(** * AMC Word extractor: a shallow embedding of [amc_streamlit_app.py]

    The extraction core of the application is a sequence of regular
    expression lookups over the text of a Word document and over its
    tables.  This development embeds

    - the fragments of Python's [str], [re] and [datetime] that the program
      calls (modules [PyStr], [Re] and [PyDate]),
    - the three extraction functions and the upload loop of the program,

    and proves properties of the extracted record.

    Text is a [string] of 8-bit characters.  The classification of
    characters (whitespace, digits, word characters, case) is the one Python
    applies to the ASCII range; a code point beyond ASCII stands as the bytes
    of its UTF-8 encoding, none of which is a digit, a space or a word
    character.  The embedding is exact on ASCII text. *)

From Stdlib Require Import String Ascii List Bool Arith Lia ZArith DecimalString.
Import ListNotations.
Local Open Scope list_scope.
Local Open Scope string_scope.
Local Open Scope nat_scope.

Set Implicit Arguments.

(* ================================================================== *)
(** * Python strings *)
(* ================================================================== *)

Module PyStr.

Definition code (c : ascii) : nat := nat_of_ascii c.

Definition between (lo hi n : nat) : bool := (lo <=? n) && (n <=? hi).

(** [str.isspace] on one character: TAB, LF, VT, FF, CR, the four
    separators FS, GS, RS, US and the blank. *)
Definition is_space (c : ascii) : bool :=
  between 9 13 (code c) || between 28 32 (code c).

Definition is_digit (c : ascii) : bool := between 48 57 (code c).

Definition is_upper (c : ascii) : bool := between 65 90 (code c).

Definition is_lower (c : ascii) : bool := between 97 122 (code c).

(** The class [\w]: letters, digits and the underscore. *)
Definition is_word (c : ascii) : bool :=
  is_digit c || is_upper c || is_lower c || (code c =? 95).

Definition lower_char (c : ascii) : ascii :=
  if is_upper c then ascii_of_nat (code c + 32) else c.

Definition upper_char (c : ascii) : ascii :=
  if is_lower c then ascii_of_nat (code c - 32) else c.

Fixpoint map_chars (f : ascii -> ascii) (s : string) : string :=
  match s with
  | EmptyString => EmptyString
  | String c r => String (f c) (map_chars f r)
  end.

(** [s.lower()] and [s.upper()] *)
Definition lower (s : string) : string := map_chars lower_char s.
Definition upper (s : string) : string := map_chars upper_char s.

Fixpoint forall_chars (p : ascii -> bool) (s : string) : bool :=
  match s with
  | EmptyString => true
  | String c r => p c && forall_chars p r
  end.

(** [s.lstrip()] *)
Fixpoint lstrip (s : string) : string :=
  match s with
  | EmptyString => EmptyString
  | String c r => if is_space c then lstrip r else s
  end.

(** [s.rstrip()]: a character is dropped when it is a space and all that
    follows it has been dropped. *)
Fixpoint rstrip (s : string) : string :=
  match s with
  | EmptyString => EmptyString
  | String c r =>
      match rstrip r with
      | EmptyString => if is_space c then EmptyString else String c EmptyString
      | r' => String c r'
      end
  end.

(** [s.strip()] *)
Definition strip (s : string) : string := rstrip (lstrip s).

(** Truth value of a string: [if s:] *)
Definition truthy (s : string) : bool :=
  match s with EmptyString => false | _ => true end.

(** [sep.join(parts)] *)
Fixpoint join (sep : string) (parts : list string) : string :=
  match parts with
  | [] => EmptyString
  | [p] => p
  | p :: rest => p ++ sep ++ join sep rest
  end.

(** [needle in s] *)
Fixpoint contains (needle s : string) : bool :=
  prefix needle s ||
  match s with
  | EmptyString => false
  | String _ r => contains needle r
  end.

(** [s.split(sep)[0]]: the part of [s] before the first occurrence of
    [sep], all of [s] when there is none. *)
Fixpoint split_head (sep s : string) : string :=
  if prefix sep s then EmptyString
  else match s with
       | EmptyString => EmptyString
       | String c r => String c (split_head sep r)
       end.

(** Line boundaries of [str.splitlines] in the ASCII range: LF, VT, FF,
    CR, FS, GS, RS. *)
Definition is_linebreak (c : ascii) : bool :=
  between 10 13 (code c) || between 28 30 (code c).

(** [s.splitlines()]; [cur] is the line read so far.  CR LF is
    one boundary, and a final boundary opens no empty last line. *)
Fixpoint splitlines_aux (cur : string) (s : string) : list string :=
  match s with
  | EmptyString =>
      match cur with EmptyString => [] | _ => [cur] end
  | String c r =>
      if is_linebreak c then
        match r with
        | String d r' =>
            if (code c =? 13) && (code d =? 10)
            then cur :: splitlines_aux EmptyString r'
            else cur :: splitlines_aux EmptyString r
        | EmptyString => [cur]
        end
      else splitlines_aux (cur ++ String c EmptyString) r
  end.

Definition splitlines (s : string) : list string :=
  splitlines_aux EmptyString s.

(** The first [n] characters of [s]. *)
Fixpoint take (n : nat) (s : string) : string :=
  match n, s with
  | S n', String c r => String c (take n' r)
  | _, _ => EmptyString
  end.

End PyStr.

(* ================================================================== *)
(** * Python regular expressions *)
(* ================================================================== *)

(** The fragment of [re] that the program's patterns use: literals, the
    classes [.], [\d], [\s] and bracketed sets, sequence, alternation, the
    greedy and the lazy star of a one-character class, capture groups, the
    word boundary [\b], the end anchor [$] and the lookahead [(?=...)].
    The matcher is a backtracking one written in continuation-passing style:
    alternatives are tried in the order [re] tries them, so the first
    success is the match [re] reports. *)

Module Re.
Import PyStr.

Record flags := { ignorecase : bool; dotall : bool }.

Definition NOFLAGS := {| ignorecase := false; dotall := false |}.
Definition IGNORECASE := {| ignorecase := true; dotall := false |}.
Definition IGNORECASE_DOTALL := {| ignorecase := true; dotall := true |}.

(** One-character classes. *)
Inductive cset : Type :=
| CChar (c : ascii)          (* a literal character *)
| CDot                       (* [.] *)
| CDigit                     (* [\d] *)
| CSpace                     (* [\s] *)
| CUnion (a b : cset).       (* members of a bracketed set *)

Fixpoint cset_match (fl : flags) (cs : cset) (a : ascii) : bool :=
  match cs with
  | CChar c =>
      if ignorecase fl
      then Ascii.eqb (lower_char c) (lower_char a)
      else Ascii.eqb c a
  | CDot => dotall fl || negb (code a =? 10)
  | CDigit => is_digit a
  | CSpace => is_space a
  | CUnion x y => cset_match fl x a || cset_match fl y a
  end.

Inductive regex : Type :=
| Eps
| Chr (cs : cset)
| Seq (r1 r2 : regex)
| Alt (r1 r2 : regex)
| Star (greedy : bool) (cs : cset)   (* [c*] and [c*?] *)
| Group (n : nat) (r : regex)        (* the [n]-th capture group *)
| WordB                              (* [\b] *)
| Eos                                (* [$] *)
| Look (r : regex).                  (* [(?=r)] *)

(** Derived forms. *)
Fixpoint lit (s : string) : regex :=
  match s with
  | EmptyString => Eps
  | String c EmptyString => Chr (CChar c)
  | String c r => Seq (Chr (CChar c)) (lit r)
  end.

Definition Opt (r : regex) : regex := Alt r Eps.              (* [r?] *)
Definition Plus (cs : cset) : regex := Seq (Chr cs) (Star true cs).       (* [c+] *)
Definition PlusLazy (cs : cset) : regex := Seq (Chr cs) (Star false cs).  (* [c+?] *)

Fixpoint Rep (n : nat) (cs : cset) : regex :=                 (* [c{n}] *)
  match n with
  | 0 => Eps
  | 1 => Chr cs
  | S n' => Seq (Chr cs) (Rep n' cs)
  end.

Fixpoint seq (rs : list regex) : regex :=
  match rs with
  | [] => Eps
  | [r] => r
  | r :: rest => Seq r (seq rest)
  end.

Fixpoint alt (rs : list regex) : regex :=
  match rs with
  | [] => Eps
  | [r] => r
  | r :: rest => Alt r (alt rest)
  end.

(** Captures: group number and captured text. *)
Definition captures := list (nat * string).

Fixpoint set_group (n : nat) (v : string) (caps : captures) : captures :=
  match caps with
  | [] => [(n, v)]
  | (m, w) :: rest =>
      if n =? m then (n, v) :: rest else (m, w) :: set_group n v rest
  end.

Fixpoint get_group (n : nat) (caps : captures) : option string :=
  match caps with
  | [] => None
  | (m, w) :: rest => if n =? m then Some w else get_group n rest
  end.

(** [\b]: exactly one of the characters before and after the position is
    a word character; a missing neighbour counts as a non-word. *)
Definition word_before (prev : option ascii) : bool :=
  match prev with Some c => is_word c | None => false end.

Definition word_after (s : string) : bool :=
  match s with String c _ => is_word c | EmptyString => false end.

Definition at_boundary (prev : option ascii) (s : string) : bool :=
  xorb (word_before prev) (word_after s).

(** [$] without MULTILINE: at the end, or before a final line feed. *)
Definition at_end (s : string) : bool :=
  match s with
  | EmptyString => true
  | String c EmptyString => code c =? 10
  | _ => false
  end.

Section Loops.
Variable A : Type.
Variable p : ascii -> bool.
Variable k : option ascii -> string -> option A.

(** [c*]: as many characters as possible first, one fewer on failure. *)
Fixpoint star_greedy (prev : option ascii) (s : string) : option A :=
  match s with
  | String a r =>
      if p a then
        match star_greedy (Some a) r with
        | Some x => Some x
        | None => k prev s
        end
      else k prev s
  | EmptyString => k prev s
  end.

(** [c*?]: no character first, one more on failure. *)
Fixpoint star_lazy (prev : option ascii) (s : string) : option A :=
  match k prev s with
  | Some x => Some x
  | None =>
      match s with
      | String a r => if p a then star_lazy (Some a) r else None
      | EmptyString => None
      end
  end.
End Loops.

Definition first_some {A : Type} (x y : option A) : option A :=
  match x with Some _ => x | None => y end.

(** [rmatch fl r prev s caps k]: match [r] at the head of [s], where
    [prev] is the character before [s] in the subject, then hand the
    position reached to [k]; [None] when every alternative fails. *)
Fixpoint rmatch (fl : flags) (r : regex) (A : Type)
    (prev : option ascii) (s : string) (caps : captures)
    (k : option ascii -> string -> captures -> option A) {struct r}
    : option A :=
  match r with
  | Eps => k prev s caps
  | Chr cs =>
      match s with
      | String a rest =>
          if cset_match fl cs a then k (Some a) rest caps else None
      | EmptyString => None
      end
  | Seq r1 r2 =>
      rmatch fl r1 prev s caps (fun p' s' c' => rmatch fl r2 p' s' c' k)
  | Alt r1 r2 =>
      first_some (rmatch fl r1 prev s caps k) (rmatch fl r2 prev s caps k)
  | Star true cs =>
      star_greedy (cset_match fl cs) (fun p' s' => k p' s' caps) prev s
  | Star false cs =>
      star_lazy (cset_match fl cs) (fun p' s' => k p' s' caps) prev s
  | Group n r1 =>
      rmatch fl r1 prev s caps
        (fun p' s' c' =>
           k p' s' (set_group n (take (String.length s - String.length s') s) c'))
  | WordB => if at_boundary prev s then k prev s caps else None
  | Eos => if at_end s then k prev s caps else None
  | Look r1 =>
      match rmatch fl r1 prev s caps (fun _ _ c' => Some c') with
      | Some c' => k prev s c'
      | None => None
      end
  end.

(** A match object: the captures, and where the match ended ([m_rest] is
    the text after it, [m_prev] the character before [m_rest]). *)
Record match_obj := {
  m_groups : captures;
  m_prev : option ascii;
  m_rest : string
}.

(** [m.group(n)].  In every pattern of the program the groups lie outside
    all alternatives, so a group of a match always has a value. *)
Definition group (n : nat) (m : match_obj) : string :=
  match get_group n (m_groups m) with
  | Some v => v
  | None => EmptyString
  end.

Definition match_here (fl : flags) (r : regex)
    (prev : option ascii) (s : string) : option match_obj :=
  rmatch fl r prev s []
    (fun p' s' c' => Some {| m_groups := c'; m_prev := p'; m_rest := s' |}).

(** The scan of [re.search]: the leftmost position where a match starts. *)
Fixpoint search_from (fl : flags) (r : regex)
    (prev : option ascii) (s : string) : option match_obj :=
  match match_here fl r prev s with
  | Some m => Some m
  | None =>
      match s with
      | String c rest => search_from fl r (Some c) rest
      | EmptyString => None
      end
  end.

(** [re.search(r, s, fl)] *)
Definition search (r : regex) (s : string) (fl : flags) : option match_obj :=
  search_from fl r None s.

(** [re.findall(r, s)] for a pattern with one group: the group of every
    match, left to right, each scan resuming where the last match ended.
    An empty match resumes one character further. *)
Fixpoint findall_from (fuel : nat) (fl : flags) (r : regex)
    (prev : option ascii) (s : string) : list string :=
  match fuel with
  | 0 => []
  | S fuel' =>
      match search_from fl r prev s with
      | None => []
      | Some m =>
          group 1 m ::
          (if String.length (m_rest m) <? String.length s
           then findall_from fuel' fl r (m_prev m) (m_rest m)
           else match m_rest m with
                | String c rest => findall_from fuel' fl r (Some c) rest
                | EmptyString => []
                end)
      end
  end.

Definition findall (r : regex) (s : string) (fl : flags) : list string :=
  findall_from (S (String.length s)) fl r None s.

(** [re.sub(r'\s+', ' ', s)]: every maximal run of whitespace becomes one
    blank.  [in_run] tells that the previous character was whitespace. *)
Fixpoint sub_spaces (in_run : bool) (s : string) : string :=
  match s with
  | EmptyString => EmptyString
  | String c r =>
      if is_space c
      then (if in_run then sub_spaces true r
            else String " " (sub_spaces true r))
      else String c (sub_spaces false r)
  end.

(** ** What a match is *)

(** The character before the position reached after reading [w]. *)
Fixpoint last_of (prev : option ascii) (w : string) : option ascii :=
  match w with
  | EmptyString => prev
  | String a r => last_of (Some a) r
  end.

(** [matches fl r prev w rest caps caps']: the pattern [r] can match the
    word [w] when [prev] is the character before it and [rest] the text
    after it; the captures go from [caps] to [caps']. *)
Inductive matches (fl : flags)
  : regex -> option ascii -> string -> string -> captures -> captures -> Prop :=
| M_Eps p rest c : matches fl Eps p "" rest c c
| M_Chr cs a p rest c :
    cset_match fl cs a = true ->
    matches fl (Chr cs) p (String a "") rest c c
| M_Seq r1 r2 p w1 w2 rest c c1 c2 :
    matches fl r1 p w1 (w2 ++ rest) c c1 ->
    matches fl r2 (last_of p w1) w2 rest c1 c2 ->
    matches fl (Seq r1 r2) p (w1 ++ w2) rest c c2
| M_AltL r1 r2 p w rest c c' :
    matches fl r1 p w rest c c' -> matches fl (Alt r1 r2) p w rest c c'
| M_AltR r1 r2 p w rest c c' :
    matches fl r2 p w rest c c' -> matches fl (Alt r1 r2) p w rest c c'
| M_Star g cs p w rest c :
    forall_chars (cset_match fl cs) w = true ->
    matches fl (Star g cs) p w rest c c
| M_Group n r p w rest c c' :
    matches fl r p w rest c c' ->
    matches fl (Group n r) p w rest c (set_group n w c')
| M_WordB p rest c :
    at_boundary p rest = true -> matches fl WordB p "" rest c c
| M_Eos p rest c :
    at_end rest = true -> matches fl Eos p "" rest c c
| M_Look r p w rest c c' :
    matches fl r p w rest c c' ->
    matches fl (Look r) p "" (w ++ rest) c c'.

Fixpoint no_groups (r : regex) : bool :=
  match r with
  | Seq r1 r2 | Alt r1 r2 => no_groups r1 && no_groups r2
  | Group _ _ => false
  | Look r1 => no_groups r1
  | _ => true
  end.

End Re.

(* ================================================================== *)
(** * Python dates *)
(* ================================================================== *)

(** [datetime.strptime(s, '%d.%m.%Y')], [strftime] with the two formats of
    the program, and the month arithmetic of [pandas.DateOffset(months=k)].
    A [datetime] of the program always has time 00:00:00, so a date stands
    for it.  [%d] and [%m] print two digits; [%Y] prints the year as the C
    library of the platform does, in decimal and without padding, so a
    year below 1000 has fewer than four digits (01.01.0999 is printed as
    01-01-999); [%B] prints the English month name (the program sets no
    locale); adding months to a date is defined as long as the result is a
    date, that is, up to year 9999. *)

Module PyDate.
Import PyStr.
Local Open Scope Z_scope.

Record date := { year : Z; month : Z; day : Z }.

Definition zbetween (lo hi n : Z) : bool := (lo <=? n) && (n <=? hi).

Definition is_leap (y : Z) : bool :=
  ((y mod 4 =? 0) && negb (y mod 100 =? 0)) || (y mod 400 =? 0).

Definition days_in_month (y m : Z) : Z :=
  match m with
  | 2 => if is_leap y then 29 else 28
  | 4 | 6 | 9 | 11 => 30
  | _ => 31
  end.

(** The check of the [datetime] constructor: years 1 to 9999. *)
Definition valid_date (y m d : Z) : bool :=
  zbetween 1 9999 y && zbetween 1 12 m && zbetween 1 (days_in_month y m) d.

Definition digit_val (c : ascii) : Z := Z.of_nat (code c) - 48.

Definition is_nonzero_digit (c : ascii) : bool :=
  between 49 57 (code c).

(** The pieces of [s] between its dots. *)
Fixpoint split_dots (cur : string) (s : string) : list string :=
  match s with
  | EmptyString => [cur]
  | String c r =>
      if Ascii.eqb c "."
      then cur :: split_dots EmptyString r
      else split_dots (cur ++ String c EmptyString) r
  end.

(** The directive [%d] accepts [3[0-1]|[1-2]\d|0[1-9]|[1-9]| [1-9]]. *)
Definition parse_day (s : string) : option Z :=
  match s with
  | String a (String b EmptyString) =>
      if is_digit a && is_digit b then
        let n := 10 * digit_val a + digit_val b in
        if zbetween 1 31 n then Some n else None
      else if Ascii.eqb a " " && is_nonzero_digit b then Some (digit_val b)
      else None
  | String a EmptyString =>
      if is_nonzero_digit a then Some (digit_val a) else None
  | _ => None
  end.

(** The directive [%m] accepts [1[0-2]|0[1-9]|[1-9]]. *)
Definition parse_month (s : string) : option Z :=
  match s with
  | String a (String b EmptyString) =>
      if is_digit a && is_digit b then
        let n := 10 * digit_val a + digit_val b in
        if zbetween 1 12 n then Some n else None
      else None
  | String a EmptyString =>
      if is_nonzero_digit a then Some (digit_val a) else None
  | _ => None
  end.

(** The directive [%Y] accepts exactly four digits. *)
Definition parse_year (s : string) : option Z :=
  match s with
  | String a (String b (String c (String d EmptyString))) =>
      if is_digit a && is_digit b && is_digit c && is_digit d
      then Some (1000 * digit_val a + 100 * digit_val b
                 + 10 * digit_val c + digit_val d)
      else None
  | _ => None
  end.

(** [datetime.strptime(s, '%d.%m.%Y')]; [None] stands for [ValueError].
    The three directives match no dot, so the whole of [s] has the format
    exactly when its three dot-separated pieces match them. *)
Definition strptime_dmy (s : string) : option date :=
  match split_dots EmptyString s with
  | [sd; sm; sy] =>
      match parse_day sd, parse_month sm, parse_year sy with
      | Some d, Some m, Some y =>
          if valid_date y m d
          then Some {| year := y; month := m; day := d |}
          else None
      | _, _, _ => None
      end
  | _ => None
  end.

Definition digit_char (n : Z) : ascii :=
  ascii_of_nat (Z.to_nat (48 + n mod 10)).

(** The directives [%d], [%m], [%H] and [%M]: two digits, zero-padded. *)
Definition pad2 (n : Z) : string :=
  String (digit_char (n / 10)) (String (digit_char n) EmptyString).

(** The four decimal places of a number below 10000. *)
Definition pad4 (n : Z) : string :=
  String (digit_char (n / 1000)) (String (digit_char (n / 100))
    (String (digit_char (n / 10)) (String (digit_char n) EmptyString))).

(** [s] without its leading zeros. *)
Fixpoint unpad (s : string) : string :=
  match s with
  | EmptyString => EmptyString
  | String c r => if Ascii.eqb c "0" then unpad r else s
  end.

(** The directive [%Y]: the year in decimal, without padding.  The year of
    a date lies between 1 and 9999. *)
Definition year_text (y : Z) : string := unpad (pad4 y).

(** [d.strftime('%d-%m-%Y')] *)
Definition strftime_dmy (d : date) : string :=
  pad2 (day d) ++ "-" ++ pad2 (month d) ++ "-" ++ year_text (year d).

(** The directive [%B] in the C locale. *)
Definition month_name (m : Z) : string :=
  match m with
  | 1 => "January" | 2 => "February" | 3 => "March" | 4 => "April"
  | 5 => "May" | 6 => "June" | 7 => "July" | 8 => "August"
  | 9 => "September" | 10 => "October" | 11 => "November"
  | _ => "December"
  end.

(** [d.strftime('%B %Y')] *)
Definition strftime_BY (d : date) : string :=
  month_name (month d) ++ " " ++ year_text (year d).

(** [d + pandas.DateOffset(months=k)]: the month moves by [k], the day is
    clipped to the length of the month reached; [None] stands for the
    error raised when the year reached is past 9999. *)
Definition add_months (d : date) (k : Z) : option date :=
  let total := month d - 1 + k in
  let y := year d + total / 12 in
  let m := total mod 12 + 1 in
  if y <=? 9999
  then Some {| year := y; month := m;
               day := Z.min (day d) (days_in_month y m) |}
  else None.

End PyDate.

(* ================================================================== *)
(** * The filename parser *)
(* ================================================================== *)

Import PyStr Re.

(** [r'CC(\d+)_'] *)
Definition contract_number_pattern : regex :=
  seq [lit "CC"; Group 1 (Plus CDigit); Chr (CChar "_")].

Definition extract_contract_number_from_filename (filename : string) : string :=
  match search contract_number_pattern filename NOFLAGS with
  | Some m => group 1 m
  | None => ""
  end.


(* ================================================================== *)
(** * The field extractor *)
(* ================================================================== *)

Import PyDate.

(** The line feed. *)
Definition nl : string := String (ascii_of_nat 10) EmptyString.

Definition is_some {A : Type} (o : option A) : bool :=
  match o with Some _ => true | None => false end.

(** ** The record: a dictionary in insertion order *)

Inductive value : Type :=
| VStr (s : string)
| VInt (n : Z).

Definition dict := list (string * value).

(** [d[k] = v]: an existing key keeps its place, a new key goes last. *)
Fixpoint dict_set (k : string) (v : value) (d : dict) : dict :=
  match d with
  | [] => [(k, v)]
  | (k', v') :: rest =>
      if String.eqb k k' then (k, v) :: rest
      else (k', v') :: dict_set k v rest
  end.

Fixpoint dict_get (k : string) (d : dict) : option value :=
  match d with
  | [] => None
  | (k', v') :: rest => if String.eqb k k' then Some v' else dict_get k rest
  end.

Definition keys (d : dict) : list string := map fst d.

(** ** The patterns of the program *)

(** [r'\b(\d{2}\.\d{2}\.\d{4})\b'] *)
Definition dmy : regex :=
  seq [Rep 2 CDigit; Chr (CChar "."); Rep 2 CDigit; Chr (CChar ".");
       Rep 4 CDigit].

Definition date_pattern : regex := seq [WordB; Group 1 dmy; WordB].

(** [r'ANNUAL MAINTENANCE CONTRACT'] and [r'LABOUR MAINTENANCE CONTRACT'] *)
Definition annual_pattern : regex := lit "ANNUAL MAINTENANCE CONTRACT".
Definition labour_pattern : regex := lit "LABOUR MAINTENANCE CONTRACT".

(** [label\s*:\s*(.*?)\n] *)
Definition label_line (label : string) : regex :=
  seq [lit label; Star true CSpace; Chr (CChar ":"); Star true CSpace;
       Group 1 (Star false CDot); Chr (CChar (ascii_of_nat 10))].

(** [r'Customer Name\s*:\s*(.*?)\n'], [r'Contact Number\s*:\s*(.*?)\n'],
    [r'Location\s*:\s*(.*?)\n'] *)
Definition customer_pattern : regex := label_line "Customer Name".
Definition contact_pattern : regex := label_line "Contact Number".
Definition location_pattern : regex := label_line "Location".

(** [r'Address\s*:\s*(.*?)(?:Contact Number|Location|Unit Details)'] *)
Definition address_pattern : regex :=
  seq [lit "Address"; Star true CSpace; Chr (CChar ":"); Star true CSpace;
       Group 1 (Star false CDot);
       alt [lit "Contact Number"; lit "Location"; lit "Unit Details"]].

(** [(?:Rs\.?|₹)?] *)
Definition currency : regex :=
  Opt (Alt (Seq (lit "Rs") (Opt (Chr (CChar ".")))) (lit "₹")).

(** [([\d,]+(?:\.\d{1,2})?)] *)
Definition number : regex :=
  Group 1 (Seq (Plus (CUnion CDigit (CChar ",")))
               (Opt (seq [Chr (CChar "."); Chr CDigit; Opt (Chr CDigit)]))).

(** [r'AMOUNT\s*[:\-]?\s*(?:Rs\.?|₹)?\s*([\d,]+(?:\.\d{1,2})?)'] *)
Definition amount_pattern : regex :=
  seq [lit "AMOUNT"; Star true CSpace;
       Opt (Chr (CUnion (CChar ":") (CChar "-"))); Star true CSpace;
       currency; Star true CSpace; number].

(** [r'(?:Rs\.?|₹)?\s*([\d,]+(?:\.\d{1,2})?)\s*/-'] *)
Definition slash_pattern : regex :=
  seq [currency; Star true CSpace; number; Star true CSpace; lit "/-"].

(** [r'AMC PERIOD\s*[:\-]?\s*(\d{2}\.\d{2}\.\d{4})\s*(?:to|-)\s*(\d{2}\.\d{2}\.\d{4})'] *)
Definition amc_pattern : regex :=
  seq [lit "AMC PERIOD"; Star true CSpace;
       Opt (Chr (CUnion (CChar ":") (CChar "-"))); Star true CSpace;
       Group 1 dmy; Star true CSpace; Alt (lit "to") (lit "-");
       Star true CSpace; Group 2 dmy].

(** [r'\bTOTAL\b'] *)
Definition total_pattern : regex := seq [WordB; lit "TOTAL"; WordB].

(** [r'UNIT DETAILS\s*:?(.+?)(?=AMOUNT|AMC PERIOD|CONTRACT NO|DATE|SERVICE|TERMS & CONDITIONS|$)'] *)
Definition unit_pattern : regex :=
  seq [lit "UNIT DETAILS"; Star true CSpace; Opt (Chr (CChar ":"));
       Group 1 (PlusLazy CDot);
       Look (alt [lit "AMOUNT"; lit "AMC PERIOD"; lit "CONTRACT NO";
                  lit "DATE"; lit "SERVICE"; lit "TERMS & CONDITIONS"; Eos])].

(** [r'Terms & Conditions|routine service'] *)
Definition terms_pattern : regex :=
  Alt (lit "Terms & Conditions") (lit "routine service").

(** ** [extract_first_valid_date] *)

(** The loop over the candidates: the first one that parses is returned,
    one that raises is passed over. *)
Fixpoint first_valid_date (candidates : list string) : string :=
  match candidates with
  | [] => ""
  | date_str :: rest =>
      match strptime_dmy date_str with
      | Some d => strftime_dmy d
      | None => first_valid_date rest
      end
  end.

Definition extract_first_valid_date (text : string) : string :=
  first_valid_date (findall date_pattern text NOFLAGS).

(** ** [extract_details] *)

Definition initial_fields (contract_no : string) : dict :=
  [ ("Contract Type", VStr "");
    ("Contract No", VStr contract_no);
    ("Customer Name", VStr "");
    ("Contact Number", VStr "");
    ("Address", VStr "");
    ("Location", VStr "");
    ("Unit Details", VStr "");
    ("Amount", VStr "");
    ("Contract Date", VStr "");
    ("Amc Start Date", VStr "");
    ("Amc End Date", VStr "");
    ("Service Frequency", VInt 4);
    ("1st Service Month", VStr "");
    ("2nd Service Month", VStr "");
    ("3rd Service Month", VStr "");
    ("4th Service Month", VStr "") ].

(** The local helper [find(pat, fb)] with its flags IGNORECASE | DOTALL. *)
Definition find (text : string) (pat : regex) (fb : string) : string :=
  match search pat text IGNORECASE_DOTALL with
  | Some m => strip (group 1 m)
  | None => fb
  end.

Definition contract_type (text : string) (fields : dict) : dict :=
  if is_some (search annual_pattern text IGNORECASE)
  then dict_set "Contract Type" (VStr "ANNUAL MAINTENANCE CONTRACT") fields
  else if is_some (search labour_pattern text IGNORECASE)
  then dict_set "Contract Type" (VStr "LABOUR MAINTENANCE CONTRACT") fields
  else fields.

Definition address (text : string) (fields : dict) : dict :=
  match search address_pattern text IGNORECASE_DOTALL with
  | Some addr =>
      dict_set "Address" (VStr (strip (sub_spaces false (group 1 addr)))) fields
  | None => fields
  end.

Definition location (text : string) (fields : dict) : dict :=
  match search location_pattern text IGNORECASE with
  | Some loc =>
      if negb (contains "CONTACT NUMBER" (upper (group 1 loc)))
      then dict_set "Location" (VStr (strip (group 1 loc))) fields
      else fields
  | None => fields
  end.

(** The amount: the labelled pattern, then the pattern with the trailing
    mark. *)
Definition amount_match (text : string) : option match_obj :=
  match search amount_pattern text IGNORECASE with
  | Some m => Some m
  | None => search slash_pattern text NOFLAGS
  end.

Definition extract_amount (text : string) : string :=
  match amount_match text with
  | Some m => strip (group 1 m)
  | None => ""
  end.

(** [str(n)] *)
Definition str_of_nat (n : nat) : string :=
  NilZero.string_of_uint (Nat.to_uint n).

(** The key written at turn [i] of the service loop. *)
Definition service_label (i : nat) : string :=
  if i =? 0 then str_of_nat (i + 1) ++ "st Service Month"
  else if i =? 1 then str_of_nat (i + 1) ++ "nd Service Month"
  else if i =? 2 then str_of_nat (i + 1) ++ "rd Service Month"
  else str_of_nat (i + 1) ++ "th Service Month".

(** [for i in range(4)] inside the [try]: an error of the month arithmetic
    leaves the loop, and the keys written so far stay written. *)
Fixpoint service_loop (start : date) (turns : list nat) (fields : dict) : dict :=
  match turns with
  | [] => fields
  | i :: rest =>
      match add_months start (Z.of_nat (2 + i * 3)) with
      | Some svc =>
          service_loop start rest
            (dict_set (service_label i) (VStr (strftime_BY svc)) fields)
      | None => fields
      end
  end.

(** The body of [if amc:], with [try ... except: pass] around it. *)
Definition amc_block (amc : match_obj) (fields : dict) : dict :=
  match strptime_dmy (group 1 amc) with
  | None => fields
  | Some start =>
      match strptime_dmy (group 2 amc) with
      | None => fields
      | Some end_ =>
          let fields := dict_set "Amc Start Date" (VStr (strftime_dmy start)) fields in
          let fields := dict_set "Amc End Date" (VStr (strftime_dmy end_)) fields in
          service_loop start [0; 1; 2; 3] fields
      end
  end.

Definition amc_period (text : string) (fields : dict) : dict :=
  match search amc_pattern text IGNORECASE with
  | Some amc => amc_block amc fields
  | None => fields
  end.

Definition table := list (list string).

Definition header_keywords : list string :=
  ["brand"; "range"; "rate"; "qty"; "amount"; "ton"].

(** [h in headers] *)
Definition mem (h : string) (headers : list string) : bool :=
  existsb (String.eqb h) headers.

(** [" | ".join(cell for cell in row if cell.strip())] *)
Definition row_text (row : list string) : string :=
  join " | " (filter (fun cell => truthy (strip cell)) row).

Definition keeps_row (row : list string) : bool :=
  truthy (row_text row) &&
  negb (is_some (search total_pattern (row_text row) IGNORECASE)).

(** [for row in table[1:]] *)
Fixpoint table_rows (rows : list (list string)) (unit_details : string) : string :=
  match rows with
  | [] => unit_details
  | row :: rest =>
      if keeps_row row
      then table_rows rest (unit_details ++ row_text row ++ nl)
      else table_rows rest unit_details
  end.

(** The test a table passes to be read: more than one row, and a keyword
    among the lower-cased cells of the first row. *)
Definition has_unit_header (t : table) : bool :=
  (1 <? List.length t) &&
  existsb (fun h => mem h (map lower (hd [] t))) header_keywords.

(** [for table in table_data], left at the first table read; [Some] carries
    the text collected when [extracted] is set. *)
Fixpoint scan_tables (table_data : list table) : option string :=
  match table_data with
  | [] => None
  | t :: rest =>
      if has_unit_header t then Some (table_rows (tl t) "")
      else scan_tables rest
  end.

(** [for line in match.group(1).splitlines()] *)
Fixpoint text_lines (lines : list string) (unit_details : string) : string :=
  match lines with
  | [] => unit_details
  | line :: rest =>
      let clean_line := strip line in
      if truthy clean_line &&
         negb (is_some (search terms_pattern clean_line IGNORECASE))
      then text_lines rest (unit_details ++ clean_line ++ nl)
      else text_lines rest unit_details
  end.

(** The branch [if not extracted:] *)
Definition unit_details_from_text (text : string) : string :=
  match search unit_pattern text IGNORECASE_DOTALL with
  | Some m => text_lines (splitlines (group 1 m)) ""
  | None => ""
  end.

Definition unit_details (text : string) (table_data : list table) : string :=
  match scan_tables table_data with
  | Some collected => strip collected
  | None => strip (unit_details_from_text text)
  end.

Definition extract_details (text contract_no : string)
    (table_data : list table) : dict :=
  let fields := initial_fields contract_no in
  let fields := contract_type text fields in
  let fields := dict_set "Customer Name" (VStr (find text customer_pattern "")) fields in
  let fields := dict_set "Contact Number"
      (VStr (strip (split_head "UNIT DETAILS" (find text contact_pattern "")))) fields in
  let fields := address text fields in
  let fields := location text fields in
  let fields := dict_set "Contract Date" (VStr (extract_first_valid_date text)) fields in
  let fields := dict_set "Amount" (VStr (extract_amount text)) fields in
  let fields := amc_period text fields in
  dict_set "Unit Details" (VStr (unit_details text table_data)) fields.

(* ================================================================== *)
(** * The document loader and the upload loop *)
(* ================================================================== *)

(** What [Document(file)] gives: the text of each paragraph, and of each
    cell of each row of each table. *)
Record docx := {
  paragraphs : list string;
  tables : list (list (list string))
}.

(** An uploaded file; [content] is [None] when [Document(file)] raises. *)
Record uploaded_file := {
  name : string;
  content : option docx
}.

Definition extract_text_from_docx (file : uploaded_file) : string * list table :=
  match content file with
  | Some doc => (join nl (paragraphs doc), map (map (map strip)) (tables doc))
  | None => ("", [])
  end.

(** [for file in uploaded_files], with [data] the list built so far. *)
Fixpoint upload_loop (uploaded_files : list uploaded_file) (data : list dict)
    : list dict :=
  match uploaded_files with
  | [] => data
  | file :: rest =>
      let (txt, tbls) := extract_text_from_docx file in
      if truthy (strip txt)
      then upload_loop rest
             (data ++ [extract_details txt
                         (extract_contract_number_from_filename (name file)) tbls])
      else upload_loop rest data
  end.

Definition process_uploads (uploaded_files : list uploaded_file) : list dict :=
  upload_loop uploaded_files [].


(* ================================================================== *)
(** * Vocabulary of the properties *)
(* ================================================================== *)

(** The declared fields, in the order of the dictionary literal. *)
Definition declared_fields : list string :=
  [ "Contract Type"; "Contract No"; "Customer Name"; "Contact Number";
    "Address"; "Location"; "Unit Details"; "Amount"; "Contract Date";
    "Amc Start Date"; "Amc End Date"; "Service Frequency";
    "1st Service Month"; "2nd Service Month"; "3rd Service Month";
    "4th Service Month" ].

(** The fields that hold a string: all but Service Frequency. *)
Definition string_fields : list string :=
  [ "Contract Type"; "Contract No"; "Customer Name"; "Contact Number";
    "Address"; "Location"; "Unit Details"; "Amount"; "Contract Date";
    "Amc Start Date"; "Amc End Date";
    "1st Service Month"; "2nd Service Month"; "3rd Service Month";
    "4th Service Month" ].

(** The fields written from the AMC PERIOD clause. *)
Definition amc_fields : list string :=
  [ "Amc Start Date"; "Amc End Date";
    "1st Service Month"; "2nd Service Month"; "3rd Service Month";
    "4th Service Month" ].

(** A dictionary is a record when it has the declared keys in their order,
    the integer 4 under Service Frequency and a string under every other
    key. *)
Definition is_record (d : dict) : Prop :=
  keys d = declared_fields /\
  dict_get "Service Frequency" d = Some (VInt 4) /\
  Forall (fun k => exists s, dict_get k d = Some (VStr s)) string_fields.

(** The dictionary as the AMC PERIOD step finds it. *)
Definition fields_before_amc (text contract_no : string) : dict :=
  dict_set "Amount" (VStr (extract_amount text))
    (dict_set "Contract Date" (VStr (extract_first_valid_date text))
      (location text (address text
        (dict_set "Contact Number"
           (VStr (strip (split_head "UNIT DETAILS" (find text contact_pattern ""))))
           (dict_set "Customer Name" (VStr (find text customer_pattern ""))
              (contract_type text (initial_fields contract_no))))))).

(** [field k r v]: the record [r] holds the string [v] under the key [k]. *)
Definition field (k : string) (r : dict) (v : string) : Prop :=
  dict_get k r = Some (VStr v).

(** [s] starts with CC, the digit run [ds] and an underscore. *)
Definition cc_at (s ds : string) : Prop :=
  ds <> "" /\ forall_chars is_digit ds = true /\
  exists post, s = "CC" ++ ds ++ "_" ++ post.

(** A date as the patterns capture it: DD.MM.YYYY, digits and two dots. *)
Definition dmy_shape (s : string) : bool :=
  match s with
  | String d1 (String d2 (String p (String m1 (String m2 (String q
      (String y1 (String y2 (String y3 (String y4 EmptyString))))))))) =>
      is_digit d1 && is_digit d2 && Ascii.eqb p "." &&
      is_digit m1 && is_digit m2 && Ascii.eqb q "." &&
      is_digit y1 && is_digit y2 && is_digit y3 && is_digit y4
  | _ => false
  end.

(** DD.MM.YYYY rewritten as DD-MM-YYYY. *)
Definition dashed (s : string) : string :=
  map_chars (fun c => if Ascii.eqb c "." then "-"%char else c) s.

(** [d'] lies in the month that comes [k] months after the month of [d]. *)
Definition months_after (d : date) (k : Z) (d' : date) : Prop :=
  (12 * year d' + month d' = 12 * year d + month d + k /\
   1 <= month d' <= 12)%Z.

(** The start dates whose four service dates stay within year 9999. *)
Definition services_in_range (start : date) : Prop :=
  (year start < 9999 \/ month start = 1)%Z.

(** A numeric capture: digits and commas, then at most a dot and one or two
    digits. *)
Definition number_char (c : ascii) : bool := is_digit c || Ascii.eqb c ",".

Definition is_fraction (s : string) : bool :=
  match s with
  | EmptyString => true
  | String p (String d EmptyString) => Ascii.eqb p "." && is_digit d
  | String p (String d (String e EmptyString)) =>
      Ascii.eqb p "." && is_digit d && is_digit e
  | _ => false
  end.

Definition is_number (s : string) : Prop :=
  exists ip fp, s = ip ++ fp /\ ip <> "" /\
                forall_chars number_char ip = true /\ is_fraction fp = true.

(** The second amount pattern when the mark has to follow the number at
    once: [([\d,]+(?:\.\d{1,2})?)/-]. *)
Definition immediate_slash_pattern : regex := seq [number; lit "/-"].

(** The keyword test on the header row alone. *)
Definition header_has_keyword (t : table) : bool :=
  existsb (fun h => mem h (map lower (hd [] t))) header_keywords.

(** A row text that mentions the word TOTAL. *)
Definition mentions_total (row_txt : string) : bool :=
  is_some (search total_pattern row_txt IGNORECASE).

(** A row read as all its cells joined, blank ones included. *)
Definition all_cells_joined (row : list string) : string := join " | " row.

(** The lines of a table when every row without TOTAL is printed with all
    its cells. *)
Definition rows_verbatim (rows : list (list string)) : string :=
  join nl (map all_cells_joined
             (filter (fun row => negb (mentions_total (all_cells_joined row))) rows)).

(** A document that gives a record: its text is not blank. *)
Definition has_text (file : uploaded_file) : bool :=
  truthy (strip (fst (extract_text_from_docx file))).

(** The record of one document. *)
Definition record_of (file : uploaded_file) : dict :=
  extract_details (fst (extract_text_from_docx file))
    (extract_contract_number_from_filename (name file))
    (snd (extract_text_from_docx file)).

(** The cells of a table as the loader delivers them: trimmed. *)
Definition trimmed_rows (rows : list (list string)) : Prop :=
  Forall (Forall (fun cell => strip cell = cell)) rows.

(** The text collected from lines in a loop: each line and a line feed. *)
Fixpoint lines_text (lines : list string) : string :=
  match lines with
  | [] => ""
  | l :: rest => l ++ nl ++ lines_text rest
  end.

(** Clean strings: not empty, no space at either end. *)
Definition clean (s : string) : Prop :=
  s <> "" /\ lstrip s = s /\ rstrip s = s.

(** [s] without its first [n] characters. *)
Fixpoint drop (n : nat) (s : string) : string :=
  match n, s with
  | S n', String _ r => drop n' r
  | _, _ => s
  end.

(** DD.MM.YYYY as the program prints the date: dashes for the dots, and the
    year without its leading zeros. *)
Definition date_text (s : string) : string :=
  dashed (take 6 s) ++ unpad (drop 6 s).

(** A date DD.MM.YYYY starts at the head of [s], with a word boundary
    before it and one after it; [prev] is the character before [s]. *)
Definition date_starts (prev : option ascii) (s : string) : bool :=
  dmy_shape (take 10 s) && at_boundary prev s &&
  at_boundary (last_of prev (take 10 s)) (drop 10 s).

(** The dates that start somewhere in [s], from left to right. *)
Fixpoint dates_in (prev : option ascii) (s : string) : list string :=
  (if date_starts prev s then [take 10 s] else []) ++
  match s with
  | EmptyString => []
  | String a r => dates_in (Some a) r
  end.

(** ** The AMC PERIOD clause *)

Definition spaces (s : string) : bool := forall_chars is_space s.

(** [s] starts with an AMC PERIOD clause whose dates are [g1] and [g2]:
    the label in any case, an optional colon or dash with optional
    whitespace around it, a date, "to" in any case or a dash with optional
    whitespace around it, and a date. *)
Definition amc_clause (s g1 g2 : string) : Prop :=
  exists label ws1 colon ws2 ws3 sep ws4 post,
    s = label ++ ws1 ++ colon ++ ws2 ++ g1 ++ ws3 ++ sep ++ ws4 ++ g2 ++ post /\
    lower label = "amc period" /\
    spaces ws1 = true /\ In colon [""; ":"; "-"] /\ spaces ws2 = true /\
    dmy_shape g1 = true /\
    spaces ws3 = true /\ In (lower sep) ["to"; "-"] /\ spaces ws4 = true /\
    dmy_shape g2 = true.

(** The clause that starts where the suffix [s] of [text] starts is the
    leftmost one of [text]. *)
Definition leftmost_amc_clause (text s g1 g2 : string) : Prop :=
  exists pre,
    text = pre ++ s /\ amc_clause s g1 g2 /\
    forall p1 p2 g g', pre = p1 ++ p2 -> p2 <> "" -> ~ amc_clause (p2 ++ s) g g'.

(** No AMC PERIOD clause starts anywhere in [text]. *)
Definition no_amc_clause (text : string) : Prop :=
  forall pre s g g', text = pre ++ s -> ~ amc_clause s g g'.

Definition digit_free (s : string) : bool :=
  forall_chars (fun c => negb (is_digit c)) s.

Definition head_digit (s : string) : bool :=
  match s with
  | String d _ => is_digit d
  | EmptyString => false
  end.

(* ================================================================== *)
(** * The table and the export *)
(* ================================================================== *)

(** [datetime.now()]: a date and the time of day, to the minute. *)
Record datetime := {
  on_date : date;
  hour : Z;
  minute : Z
}.

(** [now.strftime('%Y%m%d_%H%M')] *)
Definition strftime_stamp (now : datetime) : string :=
  year_text (year (on_date now)) ++ pad2 (month (on_date now)) ++
  pad2 (day (on_date now)) ++ "_" ++ pad2 (hour now) ++ pad2 (minute now).

(** [f"amc_output_{datetime.now().strftime('%Y%m%d_%H%M')}.xlsx"] *)
Definition output_file_name (now : datetime) : string :=
  "amc_output_" ++ strftime_stamp now ++ ".xlsx".

(** [pd.DataFrame(data)] for a list of dictionaries: one column for each
    key, in the order in which the keys first appear, and one row for each
    dictionary; a dictionary that lacks the key of a column has a missing
    cell there. *)
Record DataFrame := {
  df_columns : list string;
  df_rows : list (list (option value))
}.

Fixpoint add_columns (cols ks : list string) : list string :=
  match ks with
  | [] => cols
  | k :: rest => add_columns (if mem k cols then cols else cols ++ [k]) rest
  end.

Fixpoint columns_of (cols : list string) (data : list dict) : list string :=
  match data with
  | [] => cols
  | d :: rest => columns_of (add_columns cols (keys d)) rest
  end.

Definition make_DataFrame (data : list dict) : DataFrame :=
  let cols := columns_of [] data in
  {| df_columns := cols;
     df_rows := map (fun d => map (fun col => dict_get col d) cols) data |}.

(** What a run of the script offers: the table, shown and written to the
    sheet with its header row, and the name of the file to download. *)
Record export := {
  df : DataFrame;
  file_name : string
}.

(** The script from [if uploaded_files:] on; [now] is the time of the run.
    [None]: nothing is shown and no download is offered. *)
Definition run_app (uploaded_files : list uploaded_file) (now : datetime)
    : option export :=
  match uploaded_files with
  | [] => None
  | _ =>
      let data := process_uploads uploaded_files in
      match data with
      | [] => None
      | _ => Some {| df := make_DataFrame data;
                     file_name := output_file_name now |}
      end
  end.

(* ================================================================== *)
(** * Vocabulary of the further properties *)
(* ================================================================== *)

(** [needle] occurs in [text], letter case apart. *)
Definition contains_nocase (needle text : string) : bool :=
  contains (lower needle) (lower text).

(** No line feed in [s]. *)
Definition no_linefeed (s : string) : bool :=
  forall_chars (fun c => negb (Ascii.eqb c (ascii_of_nat 10))) s.

(** The only whitespace of [s] is the blank, and no two blanks are
    neighbours; [after_blank] tells that a blank stands before [s]. *)
Fixpoint blanks_ok (after_blank : bool) (s : string) : bool :=
  match s with
  | EmptyString => true
  | String c r =>
      if is_space c
      then Ascii.eqb c " " && negb after_blank && blanks_ok true r
      else blanks_ok false r
  end.

Definition single_spaced (s : string) : bool := blanks_ok false s.

(** A line that mentions the terms or the routine service. *)
Definition mentions_terms (line : string) : bool :=
  is_some (search terms_pattern line IGNORECASE).

(** The lines kept from the text after the UNIT DETAILS label: trimmed, not
    empty, without the two phrases. *)
Definition kept_lines (span : string) : list string :=
  filter (fun l => truthy l && negb (mentions_terms l))
    (map strip (splitlines span)).

(** The text of a service month: the month [k] months after the start, or
    nothing when that month is past year 9999. *)
Definition service_text (start : date) (k : Z) : string :=
  match add_months start k with
  | Some d => strftime_BY d
  | None => ""
  end.

(** A paragraph with a character that is no whitespace. *)
Definition has_ink (paragraph : string) : bool := negb (spaces paragraph).

(** The times of day and the dates of years with four digits. *)
Definition valid_stamp (now : datetime) : Prop :=
  (1000 <= year (on_date now) <= 9999 /\ 1 <= month (on_date now) <= 12 /\
   1 <= day (on_date now) <= 31 /\ 0 <= hour now <= 23 /\
   0 <= minute now <= 59)%Z.

(** The text after the UNIT DETAILS label, up to the next heading; nothing
    when the label is not found. *)
Definition unit_span (text : string) : string :=
  match search unit_pattern text IGNORECASE_DOTALL with
  | Some m => group 1 m
  | None => ""
  end.

(** No line boundary in [s]. *)
Definition no_linebreak (s : string) : bool :=
  forall_chars (fun c => negb (is_linebreak c)) s.

(** The headings at one of which the text after the UNIT DETAILS label
    ends. *)
Definition unit_stops : list string :=
  ["AMOUNT"; "AMC PERIOD"; "CONTRACT NO"; "DATE"; "SERVICE";
   "TERMS & CONDITIONS"].

(** [z] is a part of [s] that starts after the first character of [s]. *)
Definition inner (z s : string) : Prop :=
  exists pre post, pre <> "" /\ s = pre ++ z ++ post.

(** The labels at one of which the address ends. *)
Definition address_stops : list string :=
  ["Contact Number"; "Location"; "Unit Details"].

(* ================================================================== *)
(** * Facts about strings *)
(* ================================================================== *)

Module StrFacts.

Lemma append_nil_r (s : string) : s ++ "" = s.
Proof. induction s; simpl; congruence. Qed.

Lemma append_assoc (a b c : string) : (a ++ b) ++ c = a ++ b ++ c.
Proof. induction a; simpl; congruence. Qed.

Lemma length_append (a b : string) :
  String.length (a ++ b) = String.length a + String.length b.
Proof. induction a; simpl; congruence. Qed.

Lemma append_eq_nil (a b : string) : a ++ b = "" -> a = "" /\ b = "".
Proof. destruct a; simpl; [auto | discriminate]. Qed.

Lemma lstrip_length (s : string) : String.length (lstrip s) <= String.length s.
Proof.
  induction s as [|c r IH]; simpl; [lia|].
  destruct (is_space c); simpl; lia.
Qed.

(** A string that [lstrip] leaves alone starts with no space. *)
Lemma lstrip_fixed_head (c : ascii) (r : string) :
  lstrip (String c r) = String c r -> is_space c = false.
Proof.
  simpl. destruct (is_space c); [|reflexivity].
  intros H. pose proof (lstrip_length r) as L. rewrite H in L. simpl in L. lia.
Qed.

Lemma lstrip_app (a b : string) :
  a <> "" -> lstrip a = a -> lstrip (a ++ b) = a ++ b.
Proof.
  destruct a as [|c r]; [congruence|]. intros _ H.
  apply lstrip_fixed_head in H. simpl. now rewrite H.
Qed.

Lemma rstrip_idem (s : string) : rstrip (rstrip s) = rstrip s.
Proof.
  induction s as [|c r IH]; simpl; [reflexivity|].
  destruct (rstrip r) as [|d r'] eqn:E.
  - destruct (is_space c) eqn:Ec; simpl; [reflexivity | now rewrite Ec].
  - simpl in *. destruct (rstrip r') eqn:E'; rewrite IH; reflexivity.
Qed.

Lemma rstrip_app (a b : string) :
  rstrip b <> "" -> rstrip (a ++ b) = a ++ rstrip b.
Proof.
  intros Hb. induction a as [|c r IH]; simpl; [reflexivity|].
  rewrite IH. destruct (r ++ rstrip b) eqn:E; [|reflexivity].
  apply append_eq_nil in E. tauto.
Qed.

Lemma rstrip_spaces (b : string) :
  forall_chars is_space b = true -> rstrip b = "".
Proof.
  induction b as [|c r IH]; simpl; [reflexivity|].
  intros H. apply andb_prop in H. destruct H as [Hc Hr].
  now rewrite IH, Hc.
Qed.

Lemma rstrip_app_spaces (a b : string) :
  forall_chars is_space b = true -> rstrip (a ++ b) = rstrip a.
Proof.
  intros Hb. induction a as [|c r IH]; simpl.
  - now apply rstrip_spaces.
  - now rewrite IH.
Qed.

(** What [rstrip] returns starts as its argument does. *)
Lemma rstrip_head (c : ascii) (r : string) :
  is_space c = false -> exists r', rstrip (String c r) = String c r'.
Proof.
  intros Hc. simpl. destruct (rstrip r); rewrite ?Hc; eauto.
Qed.

Lemma lstrip_strip (s : string) : lstrip (strip s) = strip s.
Proof.
  unfold strip. induction s as [|c r IH]; simpl; [reflexivity|].
  destruct (is_space c) eqn:Hc; [exact IH|].
  destruct (@rstrip_head c r Hc) as [r' E]. rewrite E. simpl. now rewrite Hc.
Qed.

Lemma rstrip_strip (s : string) : rstrip (strip s) = strip s.
Proof. unfold strip. apply rstrip_idem. Qed.

Lemma strip_idem (s : string) : strip (strip s) = strip s.
Proof. unfold strip at 1. now rewrite lstrip_strip, rstrip_strip. Qed.

(** A string without spaces is its own [strip]. *)
Lemma strip_no_space (s : string) :
  forall_chars (fun c => negb (is_space c)) s = true -> strip s = s.
Proof.
  intros H. unfold strip.
  assert (L : lstrip s = s).
  { destruct s as [|c r]; [reflexivity|]. simpl in *.
    apply andb_prop in H. destruct H as [Hc _].
    apply negb_true_iff in Hc. now rewrite Hc. }
  rewrite L. induction s as [|c r IH]; simpl; [reflexivity|].
  simpl in H. apply andb_prop in H. destruct H as [Hc Hr].
  apply negb_true_iff in Hc.
  rewrite IH; auto.
  - destruct r; [now rewrite Hc | reflexivity].
  - destruct r as [|d r']; [reflexivity|]. simpl in *.
    apply andb_prop in Hr. destruct Hr as [Hd _].
    apply negb_true_iff in Hd. now rewrite Hd.
Qed.

Lemma forall_chars_app (p : ascii -> bool) (a b : string) :
  forall_chars p (a ++ b) = forall_chars p a && forall_chars p b.
Proof.
  induction a as [|c r IH]; simpl; [reflexivity|].
  now rewrite IH, andb_assoc.
Qed.

Lemma forall_chars_impl (p q : ascii -> bool) (s : string) :
  (forall c, p c = true -> q c = true) ->
  forall_chars p s = true -> forall_chars q s = true.
Proof.
  intros Hpq. induction s as [|c r IH]; simpl; [reflexivity|].
  intros H. apply andb_prop in H. destruct H as [Hc Hr].
  now rewrite (@Hpq c Hc), IH.
Qed.

(** ** Clean strings *)

Lemma clean_of_strip (s : string) : strip s = s -> s <> "" -> clean s.
Proof.
  intros H Hne. repeat split; [assumption| |].
  - rewrite <- H. apply lstrip_strip.
  - rewrite <- H. apply rstrip_strip.
Qed.

Lemma clean_app (a x b : string) : clean a -> clean b -> clean (a ++ x ++ b).
Proof.
  intros (Ha & La & Ra) (Hb & Lb & Rb). repeat split.
  - destruct a; [congruence | discriminate].
  - now apply lstrip_app.
  - rewrite <- append_assoc, rstrip_app, Rb; [reflexivity|]. now rewrite Rb.
Qed.

Lemma clean_join (sep : string) (parts : list string) :
  parts <> [] -> Forall clean parts -> clean (join sep parts).
Proof.
  induction parts as [|p rest IH]; [congruence|]. intros _ H.
  inversion H as [|? ? Hp Hrest]; subst.
  destruct rest as [|q rest]; [exact Hp|].
  change (join sep (p :: q :: rest)) with (p ++ sep ++ join sep (q :: rest)).
  apply clean_app; [assumption|]. apply IH; [discriminate | assumption].
Qed.

End StrFacts.

Import StrFacts.

(* ================================================================== *)
(** * The matcher finds what the pattern matches *)
(* ================================================================== *)

Module ReFacts.

Import StrFacts.

Lemma last_of_app (p : option ascii) (a b : string) :
  last_of p (a ++ b) = last_of (last_of p a) b.
Proof. revert p. induction a; simpl; intros; auto. Qed.

Lemma take_app (w s : string) :
  take (String.length (w ++ s) - String.length s) (w ++ s) = w.
Proof.
  rewrite length_append.
  replace (String.length w + String.length s - String.length s) with (String.length w) by lia.
  induction w; simpl.
  - destruct s; reflexivity.
  - now rewrite IHw.
Qed.

Lemma star_greedy_sound (A : Type) (p : ascii -> bool)
    (k : option ascii -> string -> option A) (s : string) :
  forall prev x, star_greedy p k prev s = Some x ->
  exists w rest, s = w ++ rest /\ forall_chars p w = true /\
                 k (last_of prev w) rest = Some x.
Proof.
  induction s as [|a s IH]; intros prev x H; simpl in H.
  - exists "", "". auto.
  - destruct (p a) eqn:Hp.
    + destruct (star_greedy p k (Some a) s) eqn:E.
      * injection H as ->. destruct (IH _ _ E) as (w & rest & -> & Hw & Hk).
        exists (String a w), rest. simpl. rewrite Hp. auto.
      * exists "", (String a s). auto.
    + exists "", (String a s). auto.
Qed.

Lemma star_lazy_sound (A : Type) (p : ascii -> bool)
    (k : option ascii -> string -> option A) (s : string) :
  forall prev x, star_lazy p k prev s = Some x ->
  exists w rest, s = w ++ rest /\ forall_chars p w = true /\
                 k (last_of prev w) rest = Some x.
Proof.
  induction s as [|a s IH]; intros prev x H; simpl in H.
  - destruct (k prev "") eqn:E; [|discriminate].
    exists "", "". injection H as ->. auto.
  - destruct (k prev (String a s)) eqn:E.
    + injection H as ->. exists "", (String a s). auto.
    + destruct (p a) eqn:Hp; [|discriminate].
      destruct (IH _ _ H) as (w & rest & -> & Hw & Hk).
      exists (String a w), rest. simpl. rewrite Hp. auto.
Qed.

Theorem rmatch_sound (fl : flags) (r : regex) :
  forall (A : Type) prev s caps
         (k : option ascii -> string -> captures -> option A) x,
    rmatch fl r prev s caps k = Some x ->
    exists w rest c',
      s = w ++ rest /\ matches fl r prev w rest caps c' /\
      k (last_of prev w) rest c' = Some x.
Proof.
  induction r as [|cs|r1 IH1 r2 IH2|r1 IH1 r2 IH2|g cs|n r IH| | |r IH];
    intros A prev s caps k x H; simpl in H.
  - exists "", s, caps. repeat split; auto. constructor.
  - destruct s as [|a s]; [discriminate|].
    destruct (cset_match fl cs a) eqn:E; [|discriminate].
    exists (String a ""), s, caps. repeat split; auto. now constructor.
  - apply IH1 in H. destruct H as (w1 & rest1 & c1 & -> & M1 & H).
    apply IH2 in H. destruct H as (w2 & rest & c2 & -> & M2 & H).
    exists (w1 ++ w2), rest, c2. rewrite append_assoc, last_of_app.
    repeat split; auto. econstructor; eauto.
  - unfold first_some in H.
    destruct (rmatch fl r1 prev s caps k) eqn:E.
    + injection H as ->. apply IH1 in E.
      destruct E as (w & rest & c' & -> & M & H).
      exists w, rest, c'. repeat split; auto. now apply M_AltL.
    + apply IH2 in H. destruct H as (w & rest & c' & -> & M & H).
      exists w, rest, c'. repeat split; auto. now apply M_AltR.
  - destruct g.
    + apply star_greedy_sound in H. destruct H as (w & rest & -> & Hw & H).
      exists w, rest, caps. repeat split; auto. now constructor.
    + apply star_lazy_sound in H. destruct H as (w & rest & -> & Hw & H).
      exists w, rest, caps. repeat split; auto. now constructor.
  - apply IH in H. destruct H as (w & rest & c' & -> & M & H).
    rewrite take_app in H.
    exists w, rest, (set_group n w c'). repeat split; auto. now constructor.
  - destruct (at_boundary prev s) eqn:E; [|discriminate].
    exists "", s, caps. repeat split; auto. now constructor.
  - destruct (at_end s) eqn:E; [|discriminate].
    exists "", s, caps. repeat split; auto. now constructor.
  - destruct (rmatch fl r prev s caps (fun _ _ c' => Some c')) as [c0|] eqn:E;
      [|discriminate].
    apply IH in E. destruct E as (w & rest & c' & -> & M & E).
    injection E as ->.
    exists "", (w ++ rest), c0. repeat split; auto. now constructor.
Qed.

Lemma matches_no_groups (fl : flags) r p w rest c c' :
  matches fl r p w rest c c' -> no_groups r = true -> c' = c.
Proof.
  induction 1; simpl; intros Hn; try reflexivity;
    try (apply andb_prop in Hn; destruct Hn); try discriminate; auto.
  rewrite IHmatches2, IHmatches1; auto.
Qed.

Theorem rmatch_complete (fl : flags) r p w rest c c' :
  matches fl r p w rest c c' ->
  forall (A : Type) (k : option ascii -> string -> captures -> option A),
    (forall c1, exists y, k (last_of p w) rest c1 = Some y) ->
    forall c0, exists y, rmatch fl r p (w ++ rest) c0 k = Some y.
Proof.
  induction 1; intros A k Hk c0; simpl.
  - apply Hk.
  - rewrite H. apply Hk.
  - rewrite append_assoc. apply IHmatches1. intros c3.
    apply IHmatches2. intros c4. rewrite <- last_of_app. apply Hk.
  - destruct (IHmatches A k Hk c0) as [y ->]. simpl. eauto.
  - destruct (rmatch fl r1 p (w ++ rest) c0 k); simpl; eauto.
  - destruct g.
    + revert p Hk. induction w as [|a w IH]; intros p Hk; simpl in *.
      * destruct rest as [|b rest]; simpl; [apply Hk|].
        destruct (cset_match fl cs b); [|apply Hk].
        destruct (star_greedy _ _ _ _); eauto.
      * apply andb_prop in H. destruct H as [Ha Hw]. rewrite Ha.
        destruct (IH Hw (Some a) Hk) as [y ->]. eauto.
    + revert p Hk. induction w as [|a w IH]; intros p Hk; simpl in *.
      * destruct (Hk c0) as [y Hy].
        destruct rest; simpl; rewrite Hy; eauto.
      * apply andb_prop in H. destruct H as [Ha Hw]. rewrite Ha.
        destruct (k p (String a (w ++ rest)) c0); eauto.
  - apply IHmatches. intros c1. rewrite take_app. apply Hk.
  - rewrite H. apply Hk.
  - rewrite H. apply Hk.
  - destruct (IHmatches captures (fun _ _ c1 => Some c1)
                (fun c1 => ex_intro _ c1 eq_refl) c0) as [y ->].
    apply Hk.
Qed.

(** [re.search] reports the leftmost position where a match starts. *)
Lemma match_here_sound fl r prev s m :
  match_here fl r prev s = Some m ->
  exists w, s = w ++ m_rest m /\ m_prev m = last_of prev w /\
            matches fl r prev w (m_rest m) [] (m_groups m).
Proof.
  unfold match_here. intros H. apply rmatch_sound in H.
  destruct H as (w & rest & c' & -> & M & H). injection H as <-. simpl.
  exists w. auto.
Qed.

Lemma match_here_complete fl r prev w rest c c' :
  matches fl r prev w rest c c' ->
  exists m, match_here fl r prev (w ++ rest) = Some m.
Proof.
  intros M. unfold match_here.
  eapply rmatch_complete; eauto.
Qed.

Lemma search_from_some fl r (s : string) :
  forall prev m, search_from fl r prev s = Some m ->
  exists pre tail_,
    s = pre ++ tail_ /\
    match_here fl r (last_of prev pre) tail_ = Some m /\
    (forall p1 p2, pre = p1 ++ p2 -> p2 <> "" ->
       match_here fl r (last_of prev p1) (p2 ++ tail_) = None).
Proof.
  induction s as [|a s IH]; intros prev m H; simpl in H.
  - destruct (match_here fl r prev "") eqn:E; [|discriminate].
    injection H as ->. exists "", "". repeat split; auto.
    intros p1 p2 Hp Hne. destruct p1; [|discriminate]. simpl in Hp. congruence.
  - destruct (match_here fl r prev (String a s)) eqn:E.
    + injection H as ->. exists "", (String a s). repeat split; auto.
      intros p1 p2 Hp Hne. destruct p1; [|discriminate]. simpl in Hp. congruence.
    + destruct (IH _ _ H) as (pre & tl & -> & Hm & Hfirst).
      exists (String a pre), tl. repeat split; auto.
      intros p1 p2 Hp Hne. destruct p1 as [|b p1]; simpl in Hp.
      * subst p2. simpl. exact E.
      * injection Hp as <- ->. simpl. apply Hfirst; auto.
Qed.

Lemma search_from_none fl r (s : string) :
  forall prev, search_from fl r prev s = None ->
  forall pre tail_, s = pre ++ tail_ ->
    match_here fl r (last_of prev pre) tail_ = None.
Proof.
  induction s as [|a s IH]; intros prev H pre tl Hs; simpl in H.
  - destruct (match_here fl r prev "") eqn:E; [discriminate|].
    destruct pre; [|discriminate]. simpl in *. now subst.
  - destruct (match_here fl r prev (String a s)) eqn:E; [discriminate|].
    destruct pre as [|b pre]; simpl in Hs.
    + subst tl. exact E.
    + injection Hs as <- ->. simpl. now apply IH.
Qed.

Ltac inv H := inversion H; subst; clear H.

Ltac inv_matches :=
  repeat match goal with
  | H : matches _ (Seq _ _) _ _ _ _ _ |- _ => inv H
  | H : matches _ (Chr _) _ _ _ _ _ |- _ => inv H
  | H : matches _ (Group _ _) _ _ _ _ _ |- _ => inv H
  | H : matches _ (Star _ _) _ _ _ _ _ |- _ => inv H
  | H : matches _ Eps _ _ _ _ _ |- _ => inv H
  | H : matches _ WordB _ _ _ _ _ |- _ => inv H
  end.


End ReFacts.

Import ReFacts.

(* ================================================================== *)
(** * What the patterns of the program capture *)
(* ================================================================== *)

Lemma get_set_group n v c : get_group n (set_group n v c) = Some v.
Proof.
  induction c as [|[m w] c IH]; simpl.
  - now rewrite Nat.eqb_refl.
  - destruct (n =? m) eqn:E; simpl; [now rewrite Nat.eqb_refl | now rewrite E].
Qed.

(** A literal that is no letter matches itself only, whatever the flags. *)
Lemma cchar_exact (fl : flags) (c a : ascii) :
  is_upper c = false -> is_lower c = false ->
  cset_match fl (CChar c) a = true -> a = c.
Proof.
  intros Hu Hl. simpl. destruct (ignorecase fl).
  - intros H. apply Ascii.eqb_eq in H. unfold lower_char in H.
    rewrite Hu in H. destruct (is_upper a) eqn:Ua; [|congruence].
    exfalso. subst c. unfold is_upper, is_lower, between, code in *.
    apply andb_prop in Ua. destruct Ua as [U1 U2].
    apply Nat.leb_le in U1, U2.
    rewrite nat_ascii_embedding in Hl by lia.
    apply andb_false_iff in Hl.
    destruct Hl as [Hl|Hl]; apply Nat.leb_gt in Hl; lia.
  - intros H. apply Ascii.eqb_eq in H. congruence.
Qed.

Lemma matches_seq_head (fl : flags) r1 r2 p w rest c c' :
  matches fl (Seq r1 r2) p w rest c c' -> no_groups r1 = true ->
  exists w1 w2, w = w1 ++ w2 /\ matches fl r2 (last_of p w1) w2 rest c c'.
Proof.
  intros H Hn. inv H.
  match goal with
  | M : matches fl r1 _ _ _ _ _ |- _ =>
      apply matches_no_groups in M; [subst | assumption]
  end.
  eauto.
Qed.

Lemma matches_seq_tail (fl : flags) r1 r2 p w rest c c' :
  matches fl (Seq r1 r2) p w rest c c' -> no_groups r2 = true ->
  exists w1 w2, w = w1 ++ w2 /\ matches fl r1 p w1 (w2 ++ rest) c c'.
Proof.
  intros H Hn. inv H.
  match goal with
  | M : matches fl r2 _ _ _ _ _ |- _ =>
      apply matches_no_groups in M; [subst | assumption]
  end.
  eauto.
Qed.

(** ** The contract number in a file name *)

Lemma char_eq_nocase (c a : ascii) :
  cset_match NOFLAGS (CChar c) a = true -> a = c.
Proof. simpl. intros H. apply Ascii.eqb_eq in H. auto. Qed.

Lemma cc_matches_inv p w rest c c' :
  matches NOFLAGS contract_number_pattern p w rest c c' ->
  exists ds, w = "CC" ++ ds ++ "_" /\ ds <> "" /\
             forall_chars is_digit ds = true /\ c' = set_group 1 ds c.
Proof.
  cbv [contract_number_pattern seq lit Plus]. intros H. inv_matches.
  repeat match goal with
  | H : cset_match NOFLAGS (CChar _) _ = true |- _ =>
      apply char_eq_nocase in H; subst
  end.
  simpl in *.
  match goal with
  | H1 : is_digit ?a = true, H2 : forall_chars _ ?w = true |- _ =>
      exists (String a w)
  end.
  simpl. repeat split; auto; try discriminate.
  now apply andb_true_intro.
Qed.

Lemma cc_matches_intro p ds rest c :
  ds <> "" -> forall_chars is_digit ds = true ->
  matches NOFLAGS contract_number_pattern p ("CC" ++ ds ++ "_") rest c
    (set_group 1 ds c).
Proof.
  intros Hne Hd. destruct ds as [|a ds]; [congruence|].
  simpl in Hd. apply andb_prop in Hd. destruct Hd as [Ha Hds].
  cbv [contract_number_pattern seq lit Plus].
  change ("CC" ++ String a ds ++ "_")
    with (("C" ++ "C") ++ (String a ds ++ "_")).
  eapply M_Seq.
  - eapply M_Seq; constructor; reflexivity.
  - eapply M_Seq.
    + apply M_Group. change (String a ds) with (String a "" ++ ds).
      eapply M_Seq; constructor; auto.
    + constructor. reflexivity.
Qed.

Lemma cc_here_sound p s m :
  match_here NOFLAGS contract_number_pattern p s = Some m ->
  cc_at s (group 1 m).
Proof.
  intros H. apply match_here_sound in H. destruct H as (w & -> & _ & M).
  apply cc_matches_inv in M. destruct M as (ds & -> & Hne & Hd & Hc).
  unfold group. rewrite Hc, get_set_group.
  repeat split; auto. exists (m_rest m).
  now rewrite !append_assoc.
Qed.

Lemma cc_here_none p s :
  match_here NOFLAGS contract_number_pattern p s = None ->
  forall ds, ~ cc_at s ds.
Proof.
  intros H ds (Hne & Hd & post & ->).
  pose proof (@cc_matches_intro p ds post [] Hne Hd) as M.
  apply match_here_complete in M. destruct M as [m Hm].
  rewrite !append_assoc in Hm. simpl in *. congruence.
Qed.


(** ** Dates *)

Lemma dmy_matches_inv (fl : flags) p w rest c c' :
  matches fl dmy p w rest c c' -> dmy_shape w = true /\ c' = c.
Proof.
  intros H. split; [|now apply (matches_no_groups H)].
  cbv [dmy seq Rep] in H. inv_matches.
  repeat match goal with
  | H : cset_match _ (CChar ".") _ = true |- _ =>
      apply cchar_exact in H; [subst | reflexivity | reflexivity]
  | H : cset_match _ CDigit _ = true |- _ => simpl in H
  end.
  simpl.
  repeat match goal with
  | H : is_digit _ = true |- _ => rewrite H; clear H
  end.
  reflexivity.
Qed.

Lemma group_dmy_inv (fl : flags) n p w rest c c' :
  matches fl (Group n dmy) p w rest c c' ->
  dmy_shape w = true /\ c' = set_group n w c.
Proof.
  intros H. inv H.
  match goal with
  | M : matches _ dmy _ _ _ _ _ |- _ =>
      apply dmy_matches_inv in M; destruct M as [Hs ->]
  end.
  auto.
Qed.

(** The two groups of a match of the AMC PERIOD pattern are dates in
    shape. *)
Lemma amc_groups_shape (text : string) (amc : match_obj) :
  search amc_pattern text IGNORECASE = Some amc ->
  dmy_shape (group 1 amc) = true /\ dmy_shape (group 2 amc) = true.
Proof.
  unfold search. intros H. apply search_from_some in H.
  destruct H as (pre & tl & _ & H & _).
  apply match_here_sound in H. destruct H as (w & _ & _ & M).
  cbv [amc_pattern seq] in M.
  do 4 (apply matches_seq_head in M; [|reflexivity];
        destruct M as (? & ? & _ & M)).
  inv M.
  match goal with
  | M1 : matches _ (Group 1 dmy) _ _ _ _ _ |- _ =>
      apply group_dmy_inv in M1; destruct M1 as [S1 ->]
  end.
  match goal with
  | M2 : matches _ (Seq _ _) _ _ _ _ _ |- _ =>
      do 3 (apply matches_seq_head in M2; [|reflexivity];
            destruct M2 as (? & ? & _ & M2));
      apply group_dmy_inv in M2; destruct M2 as [S2 E2]
  end.
  unfold group. rewrite E2. simpl. auto.
Qed.

Lemma date_here_shape p s m :
  match_here NOFLAGS date_pattern p s = Some m ->
  dmy_shape (group 1 m) = true /\ s = group 1 m ++ m_rest m.
Proof.
  intros H. apply match_here_sound in H. destruct H as (w & E & _ & M).
  cbv [date_pattern seq] in M. inv_matches.
  match goal with
  | M : matches _ dmy _ _ _ _ _ |- _ =>
      apply dmy_matches_inv in M; destruct M as [S1 ->]
  end.
  match goal with
  | G : set_group 1 _ [] = m_groups m |- _ => unfold group; rewrite <- G
  end.
  simpl. rewrite append_nil_r. auto.
Qed.

(** ** [findall] *)

Lemma search_rest_length fl r (s : string) prev m :
  search_from fl r prev s = Some m ->
  String.length (m_rest m) <= String.length s.
Proof.
  intros H. apply search_from_some in H.
  destruct H as (pre & tl & -> & H & _).
  apply match_here_sound in H. destruct H as (w & -> & _).
  rewrite !length_append. lia.
Qed.

(** The fuel [findall] starts with is enough: more fuel finds no more. *)
Lemma findall_fuel (fl : flags) (r : regex) (fuel : nat) :
  forall fuel' prev s,
    String.length s < fuel -> String.length s < fuel' ->
    findall_from fuel fl r prev s = findall_from fuel' fl r prev s.
Proof.
  induction fuel as [|fuel IH]; intros fuel' prev s H H'; [lia|].
  destruct fuel' as [|fuel']; [lia|]. simpl.
  destruct (search_from fl r prev s) as [m|] eqn:E; [|reflexivity].
  apply search_rest_length in E. f_equal.
  destruct (String.length (m_rest m) <? String.length s) eqn:L.
  - apply Nat.ltb_lt in L. apply IH; lia.
  - destruct (m_rest m) as [|c rest]; [reflexivity|].
    simpl in E. apply IH; lia.
Qed.

Lemma findall_from_shape (fuel : nat) :
  forall prev s,
    Forall (fun c => dmy_shape c = true)
      (findall_from fuel NOFLAGS date_pattern prev s).
Proof.
  induction fuel as [|fuel IH]; intros prev s; simpl; [constructor|].
  destruct (search_from NOFLAGS date_pattern prev s) as [m|] eqn:E;
    [|constructor].
  constructor.
  - apply search_from_some in E. destruct E as (pre & tl & _ & E & _).
    now apply date_here_shape in E.
  - destruct (_ <? _); [apply IH|].
    destruct (m_rest m); [constructor | apply IH].
Qed.

(** ** Amounts *)

Lemma number_class_char (fl : flags) (a : ascii) :
  cset_match fl (CUnion CDigit (CChar ",")) a = true -> number_char a = true.
Proof.
  cbn [cset_match]. intros H. apply orb_prop in H. destruct H as [H|H].
  - unfold number_char. now rewrite H.
  - apply (@cchar_exact fl "," a) in H; [subst|reflexivity|reflexivity].
    reflexivity.
Qed.

Lemma number_matches_inv (fl : flags) p w rest c c' :
  matches fl number p w rest c c' -> is_number w /\ c' = set_group 1 w c.
Proof.
  intros H. cbv [number] in H. inv H.
  match goal with
  | M : matches _ (Seq _ _) _ _ _ _ _ |- _ =>
      pose proof (matches_no_groups M eq_refl) as ->; rename M into H
  end.
  split; [|reflexivity].
  cbv [Plus Opt seq] in H. inv H.
  match goal with
  | M : matches _ (Seq (Chr _) (Star _ _)) _ _ _ _ _ |- _ => inv M
  end.
  inv_matches.
  match goal with
  | Ha : cset_match _ (CUnion _ _) _ = true |- _ =>
      apply number_class_char in Ha
  end.
  match goal with
  | Hw : forall_chars (cset_match _ _) _ = true |- _ =>
      apply (@forall_chars_impl _ _ _ (@number_class_char fl)) in Hw
  end.
  match goal with
  | M : matches _ (Alt _ Eps) _ _ _ _ _ |- is_number (?ip ++ ?fp) =>
      exists ip, fp; inv M
  end.
  - split; [reflexivity|]. split; [discriminate|].
    split; [simpl; now apply andb_true_intro|].
    inv_matches.
    match goal with
    | Hd : cset_match _ (CChar ".") _ = true |- _ =>
        apply cchar_exact in Hd; [subst | reflexivity | reflexivity]
    end.
    match goal with
    | M : matches _ (Alt (Chr CDigit) Eps) _ _ _ _ _ |- _ => inv M; inv_matches
    end; simpl in *;
      repeat match goal with
      | Hd : is_digit _ = true |- _ => rewrite Hd; clear Hd
      end; reflexivity.
  - inv_matches. split; [reflexivity|]. split; [discriminate|].
    split; [simpl; now apply andb_true_intro | reflexivity].
Qed.

Lemma number_char_no_space (c : ascii) :
  number_char c = true -> negb (is_space c) = true.
Proof.
  unfold number_char. intros H. apply orb_prop in H. destruct H as [H|H].
  - unfold is_digit, is_space, between in *.
    apply andb_prop in H. destruct H as [H1 H2]. apply Nat.leb_le in H1, H2.
    apply negb_true_iff, orb_false_iff. split; apply andb_false_iff.
    + right. apply Nat.leb_gt. lia.
    + right. apply Nat.leb_gt. lia.
  - apply Ascii.eqb_eq in H. now subst.
Qed.

Lemma is_digit_no_space (c : ascii) :
  is_digit c = true -> negb (is_space c) = true.
Proof.
  intros H. apply number_char_no_space. unfold number_char. now rewrite H.
Qed.

(** A numeric capture has no space, so stripping it changes nothing. *)
Lemma strip_number (w : string) : is_number w -> strip w = w.
Proof.
  intros (ip & fp & -> & _ & Hip & Hfp). apply strip_no_space.
  rewrite forall_chars_app. apply andb_true_intro. split.
  - exact (@forall_chars_impl _ _ _ number_char_no_space Hip).
  - destruct fp as [|q [|d [|e [|]]]]; try discriminate; try reflexivity;
      simpl in Hfp.
    + apply andb_prop in Hfp. destruct Hfp as [Hq Hd].
      apply Ascii.eqb_eq in Hq. subst. simpl.
      now rewrite (@is_digit_no_space d Hd).
    + apply andb_prop in Hfp. destruct Hfp as [Hfp He].
      apply andb_prop in Hfp. destruct Hfp as [Hq Hd].
      apply Ascii.eqb_eq in Hq. subst. simpl.
      now rewrite (@is_digit_no_space d Hd), (@is_digit_no_space e He).
Qed.

Lemma amount_capture (text : string) (m : match_obj) :
  search amount_pattern text IGNORECASE = Some m -> is_number (group 1 m).
Proof.
  unfold search. intros H. apply search_from_some in H.
  destruct H as (pre & tl & _ & H & _).
  apply match_here_sound in H. destruct H as (w & _ & _ & M).
  cbv [amount_pattern seq] in M.
  do 6 (apply matches_seq_head in M; [|reflexivity];
        destruct M as (? & ? & _ & M)).
  apply number_matches_inv in M. destruct M as [Hn E].
  unfold group. rewrite E. exact Hn.
Qed.

Lemma slash_capture (text : string) (m : match_obj) :
  search slash_pattern text NOFLAGS = Some m -> is_number (group 1 m).
Proof.
  unfold search. intros H. apply search_from_some in H.
  destruct H as (pre & tl & _ & H & _).
  apply match_here_sound in H. destruct H as (w & _ & _ & M).
  cbv [slash_pattern seq] in M.
  do 2 (apply matches_seq_head in M; [|reflexivity];
        destruct M as (? & ? & _ & M)).
  apply matches_seq_tail in M; [|reflexivity]. destruct M as (? & ? & _ & M).
  apply number_matches_inv in M. destruct M as [Hn E].
  unfold group. rewrite E. exact Hn.
Qed.

(* ================================================================== *)
(** * Facts about dates *)
(* ================================================================== *)

Module DateFacts.
Local Open Scope Z_scope.
Local Arguments Z.mul : simpl never.
Local Arguments Z.add : simpl never.

Lemma digit_bounds (a : ascii) :
  is_digit a = true -> 0 <= digit_val a <= 9.
Proof.
  unfold is_digit, between, digit_val. intros H.
  apply andb_prop in H. destruct H as [H1 H2].
  apply Nat.leb_le in H1, H2. lia.
Qed.

Lemma digit_char_val (a : ascii) (n : Z) :
  is_digit a = true -> n mod 10 = digit_val a -> digit_char n = a.
Proof.
  intros Ha Hn. pose proof (digit_bounds a Ha) as Hb.
  unfold digit_char. rewrite Hn. unfold digit_val in *.
  replace (Z.to_nat (48 + (Z.of_nat (code a) - 48))) with (code a) by lia.
  apply ascii_nat_embedding.
Qed.

Lemma digit_not_dot (a : ascii) :
  is_digit a = true -> Ascii.eqb a "." = false.
Proof.
  intros H. destruct (Ascii.eqb_spec a "."); [subst; discriminate | reflexivity].
Qed.

Lemma pad2_digits (a b : ascii) :
  is_digit a = true -> is_digit b = true ->
  pad2 (10 * digit_val a + digit_val b) = String a (String b EmptyString).
Proof.
  intros Ha Hb.
  pose proof (digit_bounds a Ha). pose proof (digit_bounds b Hb).
  unfold pad2. f_equal; [|f_equal]; apply digit_char_val; auto.
  - set (x := digit_val a) in *. set (y := digit_val b) in *.
    Z.div_mod_to_equations. lia.
  - set (x := digit_val a) in *. set (y := digit_val b) in *.
    Z.div_mod_to_equations. lia.
Qed.

Lemma pad4_digits (a b c d : ascii) :
  is_digit a = true -> is_digit b = true ->
  is_digit c = true -> is_digit d = true ->
  pad4 (1000 * digit_val a + 100 * digit_val b + 10 * digit_val c + digit_val d)
  = String a (String b (String c (String d EmptyString))).
Proof.
  intros Ha Hb Hc Hd.
  pose proof (digit_bounds a Ha). pose proof (digit_bounds b Hb).
  pose proof (digit_bounds c Hc). pose proof (digit_bounds d Hd).
  unfold pad4. repeat f_equal; apply digit_char_val; auto;
    set (x := digit_val a) in *; set (y := digit_val b) in *;
    set (z := digit_val c) in *; set (u := digit_val d) in *;
    Z.div_mod_to_equations; lia.
Qed.

Lemma strptime_valid (s : string) (d : date) :
  strptime_dmy s = Some d -> valid_date (year d) (month d) (day d) = true.
Proof.
  unfold strptime_dmy.
  destruct (split_dots "" s) as [|sd [|sm [|sy [|]]]]; try discriminate.
  destruct (parse_day sd), (parse_month sm), (parse_year sy); try discriminate.
  destruct (valid_date z1 z0 z) eqn:E; [|discriminate].
  intros H. injection H as <-. exact E.
Qed.

Lemma dmy_shape_inv (s : string) :
  dmy_shape s = true ->
  exists d1 d2 m1 m2 y1 y2 y3 y4,
    s = String d1 (String d2 (String "." (String m1 (String m2 (String "."
          (String y1 (String y2 (String y3 (String y4 EmptyString)))))))))
    /\ is_digit d1 = true /\ is_digit d2 = true
    /\ is_digit m1 = true /\ is_digit m2 = true
    /\ is_digit y1 = true /\ is_digit y2 = true
    /\ is_digit y3 = true /\ is_digit y4 = true.
Proof.
  intros Hs.
  do 10 (destruct s as [|? s]; [discriminate|]).
  destruct s; [|discriminate]. simpl in Hs.
  do 9 (apply andb_prop in Hs; destruct Hs as [Hs ?]).
  repeat match goal with
  | H : Ascii.eqb _ "." = true |- _ => apply Ascii.eqb_eq in H; subst
  end.
  do 8 eexists. split; [reflexivity|]. auto 10.
Qed.

(** Reformatting a date of the shape DD.MM.YYYY changes its dots into
    dashes, keeps the digits of the day and of the month, and drops the
    leading zeros of the year. *)
Lemma strftime_strptime (s : string) (d : date) :
  dmy_shape s = true -> strptime_dmy s = Some d ->
  strftime_dmy d = date_text s.
Proof.
  intros Hs.
  destruct (dmy_shape_inv s Hs)
    as (d1 & d2 & m1 & m2 & y1 & y2 & y3 & y4 & -> &
        Hd1 & Hd2 & Hm1 & Hm2 & Hy1 & Hy2 & Hy3 & Hy4).
  unfold strptime_dmy. simpl.
  rewrite !digit_not_dot by assumption. simpl.
  unfold parse_day, parse_month, parse_year.
  rewrite Hd1, Hd2, Hm1, Hm2, Hy1, Hy2, Hy3, Hy4. simpl.
  destruct (zbetween 1 31 _); [|discriminate].
  destruct (zbetween 1 12 _); [|discriminate].
  destruct (valid_date _ _ _); [|discriminate].
  intros E. injection E as <-.
  unfold strftime_dmy, year_text, date_text, dashed.
  simpl year. simpl month. simpl day.
  rewrite !pad2_digits, pad4_digits by assumption.
  simpl. rewrite !digit_not_dot by assumption. reflexivity.
Qed.

Lemma digit_char_inj (x y : Z) :
  digit_char x = digit_char y -> x mod 10 = y mod 10.
Proof.
  unfold digit_char. intros H.
  pose proof (Z.mod_pos_bound x 10 ltac:(lia)) as Hx.
  pose proof (Z.mod_pos_bound y 10 ltac:(lia)) as Hy.
  apply (f_equal nat_of_ascii) in H.
  rewrite !nat_ascii_embedding in H by lia.
  apply Z2Nat.inj in H; lia.
Qed.

(** From year 1000 on the year has its four digits. *)
Lemma year_text_pad4 (y : Z) : 1000 <= y <= 9999 -> year_text y = pad4 y.
Proof.
  intros Hy. unfold year_text, pad4. cbn [unpad].
  destruct (Ascii.eqb_spec (digit_char (y / 1000)) "0") as [E|]; [|reflexivity].
  change "0"%char with (digit_char 0) in E. apply digit_char_inj in E.
  exfalso. Z.div_mod_to_equations. lia.
Qed.

Lemma valid_date_bounds (y m d : Z) :
  valid_date y m d = true -> 1 <= y <= 9999 /\ 1 <= m <= 12.
Proof.
  unfold valid_date, zbetween. intros H.
  repeat (apply andb_prop in H; destruct H as [H ?]).
  repeat match goal with
  | H : (_ <=? _) = true |- _ => apply Z.leb_le in H
  end. lia.
Qed.

(** A date of year 1000 or later is printed with its own digits. *)
Lemma date_text_dashed (s : string) (d : date) :
  dmy_shape s = true -> strptime_dmy s = Some d -> 1000 <= year d ->
  date_text s = dashed s.
Proof.
  intros Hs Hp Hy. rewrite <- (strftime_strptime s Hs Hp).
  pose proof (strptime_valid s Hp) as Hv. apply valid_date_bounds in Hv.
  revert Hp. 
  destruct (dmy_shape_inv s Hs)
    as (d1 & d2 & m1 & m2 & y1 & y2 & y3 & y4 & -> &
        Hd1 & Hd2 & Hm1 & Hm2 & Hy1 & Hy2 & Hy3 & Hy4).
  unfold strptime_dmy. simpl.
  rewrite !digit_not_dot by assumption. simpl.
  unfold parse_day, parse_month, parse_year.
  rewrite Hd1, Hd2, Hm1, Hm2, Hy1, Hy2, Hy3, Hy4. simpl.
  destruct (zbetween 1 31 _); [|discriminate].
  destruct (zbetween 1 12 _); [|discriminate].
  destruct (valid_date _ _ _); [|discriminate].
  intros E. injection E as <-.
  unfold strftime_dmy, dashed. simpl year in *. simpl month. simpl day.
  rewrite year_text_pad4 by lia.
  rewrite !pad2_digits, pad4_digits by assumption.
  simpl. rewrite !digit_not_dot by assumption. reflexivity.
Qed.

Lemma add_months_in_range (d : date) (k : Z) :
  valid_date (year d) (month d) (day d) = true -> 0 <= k <= 11 ->
  year d < 9999 \/ month d = 1 ->
  exists d', add_months d k = Some d' /\ months_after d k d'.
Proof.
  intros Hv Hk Hy. apply valid_date_bounds in Hv. unfold add_months.
  assert (E : (year d + (month d - 1 + k) / 12 <=? 9999) = true).
  { apply Z.leb_le. Z.div_mod_to_equations. lia. }
  rewrite E. eexists. split; [reflexivity|].
  unfold months_after. simpl. Z.div_mod_to_equations. lia.
Qed.

Lemma add_months_overflow (d : date) (k : Z) :
  1 <= month d <= 12 -> 0 <= k ->
  year d = 9999 -> 12 < month d + k ->
  add_months d k = None.
Proof.
  intros Hm Hk Hy Ho. unfold add_months.
  assert (E : (year d + (month d - 1 + k) / 12 <=? 9999) = false).
  { apply Z.leb_gt. Z.div_mod_to_equations. lia. }
  now rewrite E.
Qed.

(** The month and the year that [months_after] fixes. *)
Lemma month_year_after (d : date) (k : Z) (d' : date) (y m : Z) :
  months_after d k d' ->
  12 * y + m = 12 * year d + month d + k -> 1 <= m <= 12 ->
  strftime_BY d' = (month_name m ++ " " ++ year_text y)%string.
Proof.
  unfold months_after, strftime_BY. intros [H1 H2] H3 H4.
  replace (month d') with m by lia. replace (year d') with y by lia.
  reflexivity.
Qed.

End DateFacts.

Import DateFacts.

(** ** Every date of the text is a candidate *)

Lemma take_drop (n : nat) (s : string) : take n s ++ drop n s = s.
Proof.
  revert s. induction n as [|n IH]; intros [|a r]; simpl; try reflexivity.
  now rewrite IH.
Qed.

Lemma dmy_shape_length (c : string) : dmy_shape c = true -> String.length c = 10.
Proof.
  intros H. destruct (@dmy_shape_inv c H) as (? & ? & ? & ? & ? & ? & ? & ? & -> & _).
  reflexivity.
Qed.

Lemma take_app_exact (c post : string) :
  take (String.length c) (c ++ post) = c.
Proof. induction c as [|a c IH]; simpl; [now destruct post | now rewrite IH]. Qed.

Lemma drop_app_exact (c post : string) :
  drop (String.length c) (c ++ post) = post.
Proof. induction c as [|a c IH]; simpl; [now destruct post | exact IH]. Qed.

Lemma dmy_matches_intro (fl : flags) p w rest c :
  dmy_shape w = true -> matches fl dmy p w rest c c.
Proof.
  intros H.
  destruct (@dmy_shape_inv w H)
    as (d1 & d2 & m1 & m2 & y1 & y2 & y3 & y4 & -> &
        Hd1 & Hd2 & Hm1 & Hm2 & Hy1 & Hy2 & Hy3 & Hy4).
  cbv [dmy seq Rep].
  assert (Hdot : cset_match fl (CChar ".") "." = true)
    by (simpl; destruct (ignorecase fl); reflexivity).
  change (String d1 (String d2 (String "." (String m1 (String m2 (String "."
            (String y1 (String y2 (String y3 (String y4 ""))))))))))
    with ((String d1 "" ++ String d2 "") ++ String "." "" ++
          (String m1 "" ++ String m2 "") ++ String "." "" ++
          String y1 "" ++ String y2 "" ++ String y3 "" ++ String y4 "").
  repeat (first [eapply M_Seq | apply M_Chr]); simpl; assumption.
Qed.

Lemma date_matches_inv p w rest c c' :
  matches NOFLAGS date_pattern p w rest c c' ->
  dmy_shape w = true /\ c' = set_group 1 w c /\
  at_boundary p (w ++ rest) = true /\ at_boundary (last_of p w) rest = true.
Proof.
  intros M. cbv [date_pattern seq] in M. inv_matches.
  match goal with
  | M : matches _ dmy _ _ _ _ _ |- _ =>
      apply dmy_matches_inv in M; destruct M as [S1 ->]
  end.
  simpl in *. rewrite !append_nil_r in *. auto.
Qed.

(** A match of the date pattern at the head of [s] is a date that starts
    there, and conversely. *)
Lemma date_here_starts p s m :
  match_here NOFLAGS date_pattern p s = Some m ->
  date_starts p s = true /\ group 1 m = take 10 s /\
  m_rest m = drop 10 s /\ m_prev m = last_of p (take 10 s).
Proof.
  intros H. apply match_here_sound in H. destruct H as (w & E & Hp & M).
  apply date_matches_inv in M. destruct M as (S1 & G & B1 & B2).
  pose proof (@dmy_shape_length _ S1) as L.
  assert (T : take 10 s = w) by (rewrite E, <- L; apply take_app_exact).
  assert (D : drop 10 s = m_rest m) by (rewrite E, <- L; apply drop_app_exact).
  unfold date_starts, group. rewrite T, D, S1, G, B2, <- E in *.
  rewrite B1. simpl. auto.
Qed.

Lemma date_starts_here p s :
  date_starts p s = true ->
  exists m, match_here NOFLAGS date_pattern p s = Some m.
Proof.
  unfold date_starts. intros H.
  apply andb_prop in H. destruct H as [H B2].
  apply andb_prop in H. destruct H as [S1 B1].
  pose proof (take_drop 10 s) as Es.
  remember (take 10 s) as w eqn:Ew. remember (drop 10 s) as post eqn:Ep.
  clear Ew Ep. subst s.
  replace (w ++ post) with (("" ++ w ++ "") ++ post)
    by (simpl; now rewrite append_nil_r).
  eapply match_here_complete with (c := []).
  cbv [date_pattern seq].
  eapply M_Seq.
  - apply M_WordB. simpl. rewrite ?append_nil_r. exact B1.
  - eapply M_Seq.
    + apply M_Group. apply dmy_matches_intro. exact S1.
    + apply M_WordB. simpl. rewrite ?append_nil_r. exact B2.
Qed.

Lemma date_here_none p s :
  match_here NOFLAGS date_pattern p s = None -> date_starts p s = false.
Proof.
  intros H. destruct (date_starts p s) eqn:E; [|reflexivity].
  apply date_starts_here in E. destruct E as [m E]. congruence.
Qed.

Lemma is_digit_word (a : ascii) : is_digit a = true -> is_word a = true.
Proof. unfold is_word. now intros ->. Qed.

(** No date starts inside a date: four ways to fail. *)
Lemma no_date_after_word (x y : ascii) (r : string) :
  is_word x = true -> is_word y = true ->
  date_starts (Some x) (String y r) = false.
Proof.
  intros Hx Hy. unfold date_starts, at_boundary. simpl word_before.
  simpl word_after. rewrite Hx, Hy. simpl. now rewrite andb_false_r.
Qed.

Lemma no_date_first (p : option ascii) (y : ascii) (r : string) :
  is_digit y = false -> date_starts p (String y r) = false.
Proof.
  intros Hy. unfold date_starts.
  assert (E : dmy_shape (take 10 (String y r)) = false).
  { cbn [take]. do 9 (destruct r as [|? r]; [reflexivity|]). cbn [take].
    destruct r; simpl; now rewrite Hy. }
  now rewrite E.
Qed.

Lemma no_date_third (p : option ascii) (a b c : ascii) (r : string) :
  is_digit c = true ->
  date_starts p (String a (String b (String c r))) = false.
Proof.
  intros Hc. unfold date_starts.
  assert (E : dmy_shape (take 10 (String a (String b (String c r)))) = false).
  { cbn [take]. do 7 (destruct r as [|? r]; [reflexivity|]). cbn [take].
    destruct r; simpl; rewrite (@digit_not_dot c Hc);
      now rewrite !andb_false_r. }
  now rewrite E.
Qed.

Lemma no_date_sixth (p : option ascii) (a b c d e f : ascii) (r : string) :
  is_digit f = true ->
  date_starts p
    (String a (String b (String c (String d (String e (String f r))))))
  = false.
Proof.
  intros Hf. unfold date_starts.
  assert (E : dmy_shape (take 10
            (String a (String b (String c (String d (String e (String f r)))))))
            = false).
  { cbn [take]. do 4 (destruct r as [|? r]; [reflexivity|]). cbn [take].
    destruct r; simpl; rewrite (@digit_not_dot f Hf);
      now rewrite !andb_false_r. }
  now rewrite E.
Qed.

(** After a date, the next date starts after its last character. *)
Lemma no_overlap (prev : option ascii) (s : string) :
  date_starts prev s = true ->
  match s with
  | EmptyString => []
  | String a r => dates_in (Some a) r
  end = dates_in (last_of prev (take 10 s)) (drop 10 s).
Proof.
  intros H. pose proof H as H'. unfold date_starts in H'.
  apply andb_prop in H'. destruct H' as [H' _].
  apply andb_prop in H'. destruct H' as [S1 _].
  destruct (@dmy_shape_inv _ S1)
    as (d1 & d2 & m1 & m2 & y1 & y2 & y3 & y4 & E &
        Hd1 & Hd2 & Hm1 & Hm2 & Hy1 & Hy2 & Hy3 & Hy4).
  rewrite <- (take_drop 10 s) at 1. rewrite E.
  set (post := drop 10 s).
  cbn [append last_of].
  cbn [dates_in].
  rewrite (@no_date_after_word _ _ _ (@is_digit_word _ Hd1) (@is_digit_word _ Hd2)).
  rewrite (@no_date_first (Some d2) "."%char _ eq_refl).
  rewrite (@no_date_sixth (Some "."%char) m1 m2 "." y1 y2 y3 _ Hy3).
  rewrite (@no_date_after_word _ _ _ (@is_digit_word _ Hm1) (@is_digit_word _ Hm2)).
  rewrite (@no_date_first (Some m2) "."%char _ eq_refl).
  rewrite (@no_date_third (Some "."%char) y1 y2 y3 _ Hy3).
  rewrite (@no_date_after_word _ _ _ (@is_digit_word _ Hy1) (@is_digit_word _ Hy2)).
  rewrite (@no_date_after_word _ _ _ (@is_digit_word _ Hy2) (@is_digit_word _ Hy3)).
  rewrite (@no_date_after_word _ _ _ (@is_digit_word _ Hy3) (@is_digit_word _ Hy4)).
  reflexivity.
Qed.

Lemma search_dates_none (s : string) :
  forall prev, search_from NOFLAGS date_pattern prev s = None ->
               dates_in prev s = [].
Proof.
  induction s as [|a r IH]; intros prev H; simpl in H;
    destruct (match_here NOFLAGS date_pattern prev _) eqn:E; try discriminate;
    apply date_here_none in E; cbn [dates_in]; rewrite E; [reflexivity|].
  now apply IH.
Qed.

Lemma search_dates_some (s : string) :
  forall prev m, search_from NOFLAGS date_pattern prev s = Some m ->
    dates_in prev s = group 1 m :: dates_in (m_prev m) (m_rest m).
Proof.
  induction s as [|a r IH]; intros prev m H; simpl in H;
    destruct (match_here NOFLAGS date_pattern prev _) as [m0|] eqn:E.
  - injection H as ->. apply date_here_starts in E.
    destruct E as (Hs & _). discriminate Hs.
  - discriminate.
  - injection H as ->. apply date_here_starts in E.
    destruct E as (Hs & -> & -> & ->).
    cbn [dates_in]. rewrite Hs. simpl app. f_equal.
    exact (@no_overlap _ _ Hs).
  - apply date_here_none in E. cbn [dates_in]. rewrite E. now apply IH.
Qed.

(** [findall] with the date pattern lists every date of the text. *)
Lemma findall_dates_from (fuel : nat) :
  forall prev s, String.length s < fuel ->
    findall_from fuel NOFLAGS date_pattern prev s = dates_in prev s.
Proof.
  induction fuel as [|fuel IH]; intros prev s Hf; [lia|]. simpl.
  destruct (search_from NOFLAGS date_pattern prev s) as [m|] eqn:E.
  - rewrite (@search_dates_some _ _ _ E). f_equal.
    assert (L : String.length (m_rest m) < String.length s).
    { apply search_from_some in E. destruct E as (pre & tl & -> & E & _).
      apply date_here_shape in E. destruct E as [S1 ->].
      rewrite !length_append, (@dmy_shape_length _ S1). lia. }
    apply Nat.ltb_lt in L as L'. rewrite L'. apply IH. lia.
  - symmetry. now apply search_dates_none.
Qed.

Lemma findall_dates (text : string) :
  findall date_pattern text NOFLAGS = dates_in None text.
Proof. unfold findall. apply findall_dates_from. lia. Qed.

(** ** The AMC PERIOD clause, read by the pattern *)

Lemma search_from_at (fl : flags) (r : regex) (pre : string) :
  forall prev tl m,
    (forall p1 p2, pre = p1 ++ p2 -> p2 <> "" ->
       match_here fl r (last_of prev p1) (p2 ++ tl) = None) ->
    match_here fl r (last_of prev pre) tl = Some m ->
    search_from fl r prev (pre ++ tl) = Some m.
Proof.
  induction pre as [|a pre IH]; intros prev tl m Hnone Hm; simpl in *.
  - destruct tl; simpl; now rewrite Hm.
  - pose proof (Hnone "" (String a pre) eq_refl ltac:(discriminate)) as H0.
    simpl in H0. rewrite H0.
    apply IH; [|assumption].
    intros p1 p2 E Hne. apply (Hnone (String a p1) p2); [|assumption].
    simpl. now rewrite E.
Qed.

Lemma lower_length (s : string) : String.length (lower s) = String.length s.
Proof. unfold lower. induction s; simpl; congruence. Qed.

Lemma cchar_nocase (a x : ascii) :
  cset_match IGNORECASE (CChar a) x = true -> lower_char x = lower_char a.
Proof. cbn [cset_match ignorecase IGNORECASE]. intros H. now apply Ascii.eqb_eq in H. Qed.

(** A literal under IGNORECASE matches the words that are equal to it up
    to case. *)
Lemma lit_nocase_inv (l : string) :
  forall p w rest c c',
    matches IGNORECASE (lit l) p w rest c c' -> lower w = lower l /\ c' = c.
Proof.
  induction l as [|a l IH]; intros p w rest c c' H.
  - inv H. auto.
  - destruct l as [|b l].
    + inv H.
      match goal with
      | E : cset_match _ _ _ = true |- _ => apply cchar_nocase in E
      end.
      unfold lower. simpl. split; [congruence | reflexivity].
    + change (lit (String a (String b l)))
        with (Seq (Chr (CChar a)) (lit (String b l))) in H.
      remember (lit (String b l)) as tail_ eqn:Et.
      inversion H; subst; clear H.
      match goal with
      | M : matches _ (Chr _) _ _ _ _ _ |- _ => inv M
      end.
      match goal with
      | M : matches _ (lit (String b l)) _ _ _ _ _ |- _ =>
          apply IH in M; destruct M as [E' E'']
      end.
      match goal with
      | E : cset_match _ _ _ = true |- _ => apply cchar_nocase in E
      end.
      split; [|congruence].
      unfold lower in *. simpl in *. congruence.
Qed.

Lemma lit_nocase_intro (l : string) :
  forall p w rest c,
    lower w = lower l -> matches IGNORECASE (lit l) p w rest c c.
Proof.
  induction l as [|a l IH]; intros p w rest c H.
  - destruct w; [constructor | discriminate].
  - destruct w as [|x w]; [discriminate|].
    unfold lower in H. simpl in H. injection H as Hx Hw.
    assert (Hc : cset_match IGNORECASE (CChar a) x = true)
      by (cbn [cset_match ignorecase IGNORECASE]; rewrite Hx;
          apply Ascii.eqb_refl).
    destruct l as [|b l].
    + destruct w; [|discriminate]. simpl. now constructor.
    + change (lit (String a (String b l)))
        with (Seq (Chr (CChar a)) (lit (String b l))).
      change (String x w) with (String x "" ++ w).
      eapply M_Seq; [now constructor | now apply IH].
Qed.

Lemma matches_seq_inv (fl : flags) r1 r2 p w rest c c' :
  matches fl (Seq r1 r2) p w rest c c' ->
  exists w1 w2 c1,
    w = w1 ++ w2 /\ matches fl r1 p w1 (w2 ++ rest) c c1 /\
    matches fl r2 (last_of p w1) w2 rest c1 c'.
Proof. intros H. inv H. eauto 7. Qed.

Lemma star_matches_inv (fl : flags) g cs p w rest c c' :
  matches fl (Star g cs) p w rest c c' ->
  forall_chars (cset_match fl cs) w = true /\ c' = c.
Proof. intros H. inv H. auto. Qed.

Lemma colon_matches_inv (fl : flags) p w rest c c' :
  matches fl (Opt (Chr (CUnion (CChar ":") (CChar "-")))) p w rest c c' ->
  In w [""; ":"; "-"] /\ c' = c.
Proof.
  intros H. inv H; inv_matches; [|simpl; auto].
  match goal with
  | H : cset_match _ (CUnion _ _) _ = true |- _ =>
      cbn [cset_match] in H; apply orb_prop in H; destruct H as [H|H];
      apply cchar_exact in H; try reflexivity; subst; simpl; auto
  end.
Qed.

Lemma matches_alt_inv (fl : flags) r1 r2 p w rest c c' :
  matches fl (Alt r1 r2) p w rest c c' ->
  matches fl r1 p w rest c c' \/ matches fl r2 p w rest c c'.
Proof. intros H. inv H; auto. Qed.

Lemma to_matches_inv p w rest c c' :
  matches IGNORECASE (Alt (lit "to") (lit "-")) p w rest c c' ->
  In (lower w) ["to"; "-"] /\ c' = c.
Proof.
  intros H. apply matches_alt_inv in H.
  destruct H as [H|H]; apply lit_nocase_inv in H; destruct H as [E ->];
    rewrite E; simpl; auto.
Qed.

Lemma amc_matches_inv p w rest c' :
  matches IGNORECASE amc_pattern p w rest [] c' ->
  exists g1 g2,
    amc_clause (w ++ rest) g1 g2 /\ c' = [(1, g1); (2, g2)].
Proof.
  intros M. cbv [amc_pattern seq] in M.
  apply matches_seq_inv in M. destruct M as (label & w0 & c0 & -> & M0 & M).
  apply lit_nocase_inv in M0. destruct M0 as [Hlabel ->].
  apply matches_seq_inv in M. destruct M as (ws1 & w1 & c1 & -> & M1 & M).
  apply star_matches_inv in M1. destruct M1 as [Hws1 ->].
  apply matches_seq_inv in M. destruct M as (colon & w2 & c2 & -> & M2 & M).
  apply colon_matches_inv in M2. destruct M2 as [Hcolon ->].
  apply matches_seq_inv in M. destruct M as (ws2 & w3 & c3 & -> & M3 & M).
  apply star_matches_inv in M3. destruct M3 as [Hws2 ->].
  apply matches_seq_inv in M. destruct M as (g1 & w4 & c4 & -> & M4 & M).
  apply group_dmy_inv in M4. destruct M4 as [Hg1 ->].
  apply matches_seq_inv in M. destruct M as (ws3 & w5 & c5 & -> & M5 & M).
  apply star_matches_inv in M5. destruct M5 as [Hws3 ->].
  apply matches_seq_inv in M. destruct M as (sep & w6 & c6 & -> & M6 & M).
  apply to_matches_inv in M6. destruct M6 as [Hsep ->].
  apply matches_seq_inv in M. destruct M as (ws4 & g2 & c7 & -> & M7 & M).
  apply star_matches_inv in M7. destruct M7 as [Hws4 ->].
  apply group_dmy_inv in M. destruct M as [Hg2 ->].
  exists g1, g2. split; [|reflexivity].
  exists label, ws1, colon, ws2, ws3, sep, ws4, rest.
  rewrite !append_assoc. repeat split; assumption.
Qed.

Lemma colon_matches_intro (fl : flags) p w rest c :
  In w [""; ":"; "-"] ->
  matches fl (Opt (Chr (CUnion (CChar ":") (CChar "-")))) p w rest c c.
Proof.
  simpl. intros [<-|[<-|[<-|[]]]].
  - apply M_AltR. constructor.
  - apply M_AltL. constructor. simpl. destruct (ignorecase fl); reflexivity.
  - apply M_AltL. constructor. simpl. destruct (ignorecase fl); reflexivity.
Qed.

Lemma to_matches_intro p w rest c :
  In (lower w) ["to"; "-"] ->
  matches IGNORECASE (Alt (lit "to") (lit "-")) p w rest c c.
Proof.
  intros H. simpl in H. destruct H as [E|[E|[]]].
  - apply M_AltL. apply lit_nocase_intro. now rewrite <- E.
  - apply M_AltR. apply lit_nocase_intro. now rewrite <- E.
Qed.

Lemma amc_matches_intro p s g1 g2 :
  amc_clause s g1 g2 ->
  exists w rest,
    s = w ++ rest /\
    matches IGNORECASE amc_pattern p w rest [] [(1, g1); (2, g2)].
Proof.
  intros (label & ws1 & colon & ws2 & ws3 & sep & ws4 & post & -> &
          Hlabel & Hws1 & Hcolon & Hws2 & Hg1 & Hws3 & Hsep & Hws4 & Hg2).
  exists (label ++ ws1 ++ colon ++ ws2 ++ g1 ++ ws3 ++ sep ++ ws4 ++ g2), post.
  split; [now rewrite !append_assoc|].
  cbv [amc_pattern seq].
  eapply M_Seq; [apply lit_nocase_intro; exact Hlabel|].
  eapply M_Seq; [apply M_Star; exact Hws1|].
  eapply M_Seq; [apply colon_matches_intro; exact Hcolon|].
  eapply M_Seq; [apply M_Star; exact Hws2|].
  eapply M_Seq; [apply M_Group, dmy_matches_intro; exact Hg1|].
  eapply M_Seq; [apply M_Star; exact Hws3|].
  eapply M_Seq; [apply to_matches_intro; exact Hsep|].
  eapply M_Seq; [apply M_Star; exact Hws4|].
  change [(1, g1); (2, g2)] with (set_group 2 g2 (set_group 1 g1 [])).
  apply M_Group, dmy_matches_intro. exact Hg2.
Qed.

(** *** The dates of a clause are fixed by its text *)

Lemma app_same_length (a a' b b' : string) :
  String.length a = String.length a' -> a ++ b = a' ++ b' ->
  a = a' /\ b = b'.
Proof.
  revert a'. induction a as [|x a IH]; intros [|x' a'] L E;
    try discriminate; simpl in *; [auto|].
  injection E as -> E. injection L as L.
  destruct (IH _ L E) as [-> ->]. auto.
Qed.

Lemma first_digit_unique (a a' x x' : string) :
  digit_free a = true -> digit_free a' = true ->
  head_digit x = true -> head_digit x' = true ->
  a ++ x = a' ++ x' -> a = a' /\ x = x'.
Proof.
  revert a'. induction a as [|c a IH]; intros [|c' a'] Ha Ha' Hx Hx' E;
    simpl in *.
  - auto.
  - subst x. simpl in Hx. apply andb_prop in Ha'. destruct Ha' as [Hc _].
    rewrite Hx in Hc. discriminate.
  - subst x'. simpl in Hx'. apply andb_prop in Ha. destruct Ha as [Hc _].
    rewrite Hx' in Hc. discriminate.
  - injection E as -> E.
    apply andb_prop in Ha. destruct Ha as [_ Ha].
    apply andb_prop in Ha'. destruct Ha' as [_ Ha'].
    destruct (IH _ Ha Ha' Hx Hx' E) as [-> ->]. auto.
Qed.

Lemma digit_free_app (a b : string) :
  digit_free (a ++ b) = digit_free a && digit_free b.
Proof. apply forall_chars_app. Qed.

Lemma spaces_digit_free (s : string) : spaces s = true -> digit_free s = true.
Proof.
  apply forall_chars_impl. intros c Hc.
  destruct (is_digit c) eqn:Hd; [|reflexivity].
  apply is_digit_no_space in Hd. rewrite Hc in Hd. discriminate.
Qed.

Lemma is_digit_lower (c : ascii) : is_digit (lower_char c) = is_digit c.
Proof.
  unfold lower_char. destruct (is_upper c) eqn:U; [|reflexivity].
  unfold is_upper, is_digit, between, code in *.
  apply andb_prop in U. destruct U as [U1 U2]. apply Nat.leb_le in U1, U2.
  rewrite nat_ascii_embedding by lia.
  transitivity false; [|symmetry]; apply andb_false_iff; right;
    apply Nat.leb_gt; lia.
Qed.

Lemma digit_free_lower (s : string) : digit_free (lower s) = digit_free s.
Proof.
  unfold digit_free, lower. induction s as [|c s IH]; simpl; [reflexivity|].
  now rewrite is_digit_lower, IH.
Qed.

Lemma dmy_head_digit (g : string) : dmy_shape g = true -> head_digit g = true.
Proof.
  intros H. destruct (@dmy_shape_inv g H)
    as (? & ? & ? & ? & ? & ? & ? & ? & -> & Hd & _). exact Hd.
Qed.

Lemma head_digit_app (g post : string) :
  head_digit g = true -> head_digit (g ++ post) = true.
Proof. destruct g; [discriminate | auto]. Qed.

Lemma amc_clause_unique (s g1 g2 g1' g2' : string) :
  amc_clause s g1 g2 -> amc_clause s g1' g2' -> g1 = g1' /\ g2 = g2'.
Proof.
  intros (label & ws1 & colon & ws2 & ws3 & sep & ws4 & post & -> &
          Hlabel & Hws1 & Hcolon & Hws2 & Hg1 & Hws3 & Hsep & Hws4 & Hg2)
         (label' & ws1' & colon' & ws2' & ws3' & sep' & ws4' & post' & E &
          Hlabel' & Hws1' & Hcolon' & Hws2' & Hg1' & Hws3' & Hsep' & Hws4' & Hg2').
  assert (Hcf : forall w, In w [""; ":"; "-"] -> digit_free w = true)
    by (simpl; intros w [<-|[<-|[<-|[]]]]; reflexivity).
  assert (Hsf : forall w, In (lower w) ["to"; "-"] -> digit_free w = true)
    by (intros w Hw; rewrite <- digit_free_lower;
        simpl in Hw; destruct Hw as [<-|[<-|[]]]; reflexivity).
  apply app_same_length in E;
    [|rewrite <- (lower_length label), <- (lower_length label');
      now rewrite Hlabel, Hlabel'].
  destruct E as [_ E].
  assert (E1 : (ws1 ++ colon ++ ws2) ++ g1 ++ ws3 ++ sep ++ ws4 ++ g2 ++ post
               = (ws1' ++ colon' ++ ws2') ++
                 g1' ++ ws3' ++ sep' ++ ws4' ++ g2' ++ post')
    by (rewrite !append_assoc; exact E).
  apply first_digit_unique in E1;
    [ | rewrite !digit_free_app, (@spaces_digit_free ws1 Hws1),
          (Hcf colon Hcolon), (@spaces_digit_free ws2 Hws2); reflexivity
      | rewrite !digit_free_app, (@spaces_digit_free ws1' Hws1'),
          (Hcf colon' Hcolon'), (@spaces_digit_free ws2' Hws2'); reflexivity
      | apply head_digit_app, dmy_head_digit; assumption
      | apply head_digit_app, dmy_head_digit; assumption ].
  destruct E1 as [_ E1].
  apply app_same_length in E1;
    [|now rewrite !dmy_shape_length by assumption].
  destruct E1 as [<- E1]. split; [reflexivity|].
  assert (E2 : (ws3 ++ sep ++ ws4) ++ g2 ++ post
               = (ws3' ++ sep' ++ ws4') ++ g2' ++ post')
    by (rewrite !append_assoc; exact E1).
  apply first_digit_unique in E2;
    [ | rewrite !digit_free_app, (@spaces_digit_free ws3 Hws3),
          (Hsf sep Hsep), (@spaces_digit_free ws4 Hws4); reflexivity
      | rewrite !digit_free_app, (@spaces_digit_free ws3' Hws3'),
          (Hsf sep' Hsep'), (@spaces_digit_free ws4' Hws4'); reflexivity
      | apply head_digit_app, dmy_head_digit; assumption
      | apply head_digit_app, dmy_head_digit; assumption ].
  destruct E2 as [_ E2].
  apply app_same_length in E2;
    [|now rewrite !dmy_shape_length by assumption].
  now destruct E2 as [<- _].
Qed.

(** *** The search finds the leftmost clause *)

Lemma amc_here_clause p s m :
  match_here IGNORECASE amc_pattern p s = Some m ->
  amc_clause s (group 1 m) (group 2 m).
Proof.
  intros H. apply match_here_sound in H. destruct H as (w & -> & _ & M).
  apply amc_matches_inv in M. destruct M as (g1 & g2 & Hc & E).
  unfold group. rewrite E. exact Hc.
Qed.

Lemma amc_clause_here p s g1 g2 :
  amc_clause s g1 g2 ->
  exists m, match_here IGNORECASE amc_pattern p s = Some m /\
            group 1 m = g1 /\ group 2 m = g2.
Proof.
  intros Hc. destruct (@amc_matches_intro p s g1 g2 Hc) as (w & rest & -> & M).
  apply match_here_complete in M. destruct M as [m Hm].
  exists m. split; [exact Hm|].
  apply amc_here_clause in Hm.
  destruct (amc_clause_unique Hm Hc) as [-> ->]. auto.
Qed.

Lemma amc_here_none p s :
  match_here IGNORECASE amc_pattern p s = None ->
  forall g g', ~ amc_clause s g g'.
Proof.
  intros H g g' Hc. destruct (@amc_clause_here p s g g' Hc) as (m & Hm & _).
  congruence.
Qed.

(** The match object of the search holds the dates of the leftmost
    clause. *)
Lemma amc_search_leftmost (text s g1 g2 : string) :
  leftmost_amc_clause text s g1 g2 ->
  exists amc, search amc_pattern text IGNORECASE = Some amc /\
              group 1 amc = g1 /\ group 2 amc = g2.
Proof.
  intros (pre & -> & Hc & Hfirst).
  destruct (@amc_clause_here (last_of None pre) s g1 g2 Hc) as (m & Hm & G1 & G2).
  exists m. split; [|auto]. unfold search.
  apply search_from_at; [|exact Hm].
  intros p1 p2 E Hne.
  destruct (match_here IGNORECASE amc_pattern (last_of None p1) (p2 ++ s))
    as [m'|] eqn:E'; [|reflexivity].
  apply amc_here_clause in E'. exfalso. exact (Hfirst p1 p2 _ _ E Hne E').
Qed.

Lemma amc_search_some (text : string) (amc : match_obj) :
  search amc_pattern text IGNORECASE = Some amc ->
  exists s, leftmost_amc_clause text s (group 1 amc) (group 2 amc).
Proof.
  unfold search. intros H. apply search_from_some in H.
  destruct H as (pre & tl & -> & Hm & Hfirst).
  exists tl, pre. split; [reflexivity|]. split.
  - eapply amc_here_clause; eauto.
  - intros p1 p2 g g' E Hne. eapply amc_here_none. eapply Hfirst; eauto.
Qed.

Lemma amc_search_none (text : string) :
  search amc_pattern text IGNORECASE = None -> no_amc_clause text.
Proof.
  unfold search. intros H pre s g g' E.
  eapply amc_here_none. eapply search_from_none; eauto.
Qed.
(* ================================================================== *)
(** * Properties of the record *)
(* ================================================================== *)

Lemma dict_get_set_eq (k : string) (v : value) (d : dict) :
  dict_get k (dict_set k v d) = Some v.
Proof.
  induction d as [|[k' v'] d IH]; simpl.
  - now rewrite String.eqb_refl.
  - destruct (String.eqb k k') eqn:E; simpl.
    + now rewrite String.eqb_refl.
    + now rewrite E.
Qed.

Lemma dict_get_set_ne (k k' : string) (v : value) (d : dict) :
  k <> k' -> dict_get k (dict_set k' v d) = dict_get k d.
Proof.
  intros Hne. induction d as [|[k2 v2] d IH]; simpl.
  - destruct (String.eqb k k') eqn:E; [apply String.eqb_eq in E; easy | easy].
  - destruct (String.eqb k' k2) eqn:E; simpl.
    + apply String.eqb_eq in E. subst k2.
      destruct (String.eqb k k') eqn:E2; [apply String.eqb_eq in E2; easy | easy].
    + now rewrite IH.
Qed.

Lemma keys_dict_set (k : string) (v : value) (d : dict) :
  In k (keys d) -> keys (dict_set k v d) = keys d.
Proof.
  unfold keys. induction d as [|[k' v'] d IH]; simpl; [easy|].
  intros [->|Hin].
  - now rewrite String.eqb_refl.
  - destruct (String.eqb k k') eqn:E; simpl.
    + apply String.eqb_eq in E. now subst.
    + now rewrite IH.
Qed.

Lemma initial_fields_record (contract_no : string) :
  is_record (initial_fields contract_no).
Proof.
  repeat split. unfold string_fields.
  repeat (constructor; [eexists; reflexivity|]). constructor.
Qed.

Lemma in_string_fields_declared (k : string) :
  In k string_fields -> In k declared_fields /\ k <> "Service Frequency".
Proof.
  unfold string_fields, declared_fields. simpl.
  intuition (subst; first [discriminate | auto 20]).
Qed.

Lemma set_string_record (k s : string) (d : dict) :
  In k string_fields -> is_record d -> is_record (dict_set k (VStr s) d).
Proof.
  intros Hk (Hkeys & Hfreq & Hstr).
  destruct (in_string_fields_declared Hk) as [Hdecl Hne].
  repeat split.
  - rewrite keys_dict_set; [assumption | now rewrite Hkeys].
  - rewrite dict_get_set_ne; [assumption | congruence].
  - rewrite Forall_forall in *. intros k' Hk'.
    destruct (String.eqb_spec k' k) as [->|Hd].
    + exists s. apply dict_get_set_eq.
    + rewrite dict_get_set_ne by assumption. now apply Hstr.
Qed.

Ltac field_in := unfold string_fields; simpl; auto 20.

Lemma contract_type_record (text : string) (d : dict) :
  is_record d -> is_record (contract_type text d).
Proof.
  intros H. unfold contract_type.
  destruct (is_some _); [apply set_string_record; [field_in | assumption]|].
  destruct (is_some _); [apply set_string_record; [field_in | assumption]|].
  assumption.
Qed.

Lemma address_record (text : string) (d : dict) :
  is_record d -> is_record (address text d).
Proof.
  intros H. unfold address.
  destruct (search _ _ _); [apply set_string_record; [field_in | assumption]|].
  assumption.
Qed.

Lemma location_record (text : string) (d : dict) :
  is_record d -> is_record (location text d).
Proof.
  intros H. unfold location.
  destruct (search _ _ _); [|assumption].
  destruct (negb _); [apply set_string_record; [field_in | assumption]|].
  assumption.
Qed.

Lemma service_label_cases (i : nat) :
  In i [0; 1; 2; 3] -> In (service_label i) string_fields.
Proof.
  simpl. intros [<-|[<-|[<-|[<-|[]]]]]; vm_compute; auto 20.
Qed.

Lemma service_loop_record (start : date) (turns : list nat) (d : dict) :
  incl turns [0; 1; 2; 3] -> is_record d ->
  is_record (service_loop start turns d).
Proof.
  revert d. induction turns as [|i turns IH]; intros d Hincl H; simpl.
  - assumption.
  - destruct (add_months _ _); [|assumption].
    apply IH.
    + intros j Hj. apply Hincl. now right.
    + apply set_string_record; [|assumption].
      apply service_label_cases, Hincl. now left.
Qed.

Lemma amc_period_record (text : string) (d : dict) :
  is_record d -> is_record (amc_period text d).
Proof.
  intros H. unfold amc_period.
  destruct (search _ _ _) as [amc|]; [|assumption].
  unfold amc_block.
  destruct (strptime_dmy (group 1 amc)); [|assumption].
  destruct (strptime_dmy (group 2 amc)); [|assumption].
  apply service_loop_record; [apply incl_refl|].
  apply set_string_record; [field_in|].
  apply set_string_record; [field_in | assumption].
Qed.

Lemma extract_details_record (text contract_no : string)
    (table_data : list table) :
  is_record (extract_details text contract_no table_data).
Proof.
  unfold extract_details.
  apply set_string_record; [field_in|].
  apply amc_period_record.
  apply set_string_record; [field_in|].
  apply set_string_record; [field_in|].
  apply location_record, address_record.
  apply set_string_record; [field_in|].
  apply set_string_record; [field_in|].
  apply contract_type_record, initial_fields_record.
Qed.

(** ** What each step writes *)

Ltac other_key :=
  repeat (rewrite dict_get_set_ne by congruence); try reflexivity.

Lemma contract_type_other (text k : string) (d : dict) :
  k <> "Contract Type" -> dict_get k (contract_type text d) = dict_get k d.
Proof.
  intros Hk. unfold contract_type.
  repeat (destruct (is_some _)); other_key.
Qed.

Lemma address_other (text k : string) (d : dict) :
  k <> "Address" -> dict_get k (address text d) = dict_get k d.
Proof.
  intros Hk. unfold address. destruct (search _ _ _); other_key.
Qed.

Lemma location_other (text k : string) (d : dict) :
  k <> "Location" -> dict_get k (location text d) = dict_get k d.
Proof.
  intros Hk. unfold location.
  destruct (search _ _ _); [destruct (negb _)|]; other_key.
Qed.

Lemma service_loop_other (start : date) (turns : list nat) (k : string) (d : dict) :
  incl turns [0; 1; 2; 3] -> ~ In k amc_fields ->
  dict_get k (service_loop start turns d) = dict_get k d.
Proof.
  intros Hincl Hk. revert d Hincl.
  induction turns as [|i turns IH]; intros d Hincl; simpl; [reflexivity|].
  destruct (add_months _ _); [|reflexivity].
  rewrite IH by (intros j Hj; apply Hincl; now right).
  apply dict_get_set_ne. intros ->. apply Hk.
  assert (Hi : In i [0; 1; 2; 3]) by (apply Hincl; now left).
  simpl in Hi. destruct Hi as [<-|[<-|[<-|[<-|[]]]]]; vm_compute; auto 10.
Qed.

Lemma amc_period_other (text k : string) (d : dict) :
  ~ In k amc_fields -> dict_get k (amc_period text d) = dict_get k d.
Proof.
  intros Hk. unfold amc_period, amc_block.
  destruct (search _ _ _) as [amc|]; [|reflexivity].
  destruct (strptime_dmy (group 1 amc)); [|reflexivity].
  destruct (strptime_dmy (group 2 amc)); [|reflexivity].
  rewrite service_loop_other by (assumption || apply incl_refl).
  assert (k <> "Amc Start Date" /\ k <> "Amc End Date") as [H1 H2]
    by (split; intros ->; apply Hk; simpl; auto).
  other_key.
Qed.

Lemma extract_details_unfold (text contract_no : string) (table_data : list table) :
  extract_details text contract_no table_data =
  dict_set "Unit Details" (VStr (unit_details text table_data))
    (amc_period text (fields_before_amc text contract_no)).
Proof. reflexivity. Qed.

Lemma amc_fields_initially_empty (text contract_no : string) :
  Forall (fun k => dict_get k (fields_before_amc text contract_no) = Some (VStr ""))
    amc_fields.
Proof.
  unfold amc_fields, fields_before_amc.
  repeat (constructor;
    [ other_key;
      rewrite location_other, address_other by congruence; other_key;
      rewrite contract_type_other by congruence; reflexivity | ]).
  constructor.
Qed.

Lemma get_unit_details (text contract_no : string) (table_data : list table) :
  dict_get "Unit Details" (extract_details text contract_no table_data)
  = Some (VStr (unit_details text table_data)).
Proof. rewrite extract_details_unfold. apply dict_get_set_eq. Qed.

Lemma get_amount (text contract_no : string) (table_data : list table) :
  dict_get "Amount" (extract_details text contract_no table_data)
  = Some (VStr (extract_amount text)).
Proof.
  rewrite extract_details_unfold. other_key.
  rewrite amc_period_other by (simpl; intuition congruence).
  apply dict_get_set_eq.
Qed.

Lemma get_contract_date (text contract_no : string) (table_data : list table) :
  dict_get "Contract Date" (extract_details text contract_no table_data)
  = Some (VStr (extract_first_valid_date text)).
Proof.
  rewrite extract_details_unfold. other_key.
  rewrite amc_period_other by (simpl; intuition congruence).
  unfold fields_before_amc. other_key. apply dict_get_set_eq.
Qed.

Lemma get_amc_field (text contract_no k : string) (table_data : list table) :
  In k amc_fields ->
  dict_get k (extract_details text contract_no table_data)
  = dict_get k (amc_period text (fields_before_amc text contract_no)).
Proof.
  intros Hk. rewrite extract_details_unfold.
  apply dict_get_set_ne. intros ->. simpl in Hk. intuition congruence.
Qed.

(** ** The AMC PERIOD step *)

Lemma get_contract_no (text contract_no : string) (table_data : list table) :
  dict_get "Contract No" (extract_details text contract_no table_data)
  = Some (VStr contract_no).
Proof.
  rewrite extract_details_unfold. other_key.
  rewrite amc_period_other by (simpl; intuition congruence).
  unfold fields_before_amc. other_key.
  rewrite location_other, address_other by congruence. other_key.
  rewrite contract_type_other by congruence. reflexivity.
Qed.

Lemma dict_get_absent (k : string) (d : dict) :
  ~ In k (keys d) -> dict_get k d = None.
Proof.
  unfold keys. induction d as [|[k' v'] d IH]; simpl; [reflexivity|].
  intros H. destruct (String.eqb_spec k k') as [->|Hne]; [tauto|].
  apply IH. tauto.
Qed.

(** The dictionary after the AMC PERIOD step when both dates parse and the
    service dates are in range: six keys written, in this order. *)
Lemma amc_block_in_range (amc : match_obj) (start end_ : date) (d : dict) :
  strptime_dmy (group 1 amc) = Some start ->
  strptime_dmy (group 2 amc) = Some end_ ->
  services_in_range start ->
  exists s1 s2 s3 s4,
    months_after start 2 s1 /\ months_after start 5 s2 /\
    months_after start 8 s3 /\ months_after start 11 s4 /\
    amc_block amc d =
    dict_set "4th Service Month" (VStr (strftime_BY s4))
      (dict_set "3rd Service Month" (VStr (strftime_BY s3))
        (dict_set "2nd Service Month" (VStr (strftime_BY s2))
          (dict_set "1st Service Month" (VStr (strftime_BY s1))
            (dict_set "Amc End Date" (VStr (strftime_dmy end_))
              (dict_set "Amc Start Date" (VStr (strftime_dmy start)) d))))).
Proof.
  intros H1 H2 Hr. unfold amc_block. rewrite H1, H2.
  pose proof (strptime_valid _ H1) as Hv.
  destruct (@add_months_in_range start 2 Hv ltac:(lia) Hr) as (s1 & E1 & M1).
  destruct (@add_months_in_range start 5 Hv ltac:(lia) Hr) as (s2 & E2 & M2).
  destruct (@add_months_in_range start 8 Hv ltac:(lia) Hr) as (s3 & E3 & M3).
  destruct (@add_months_in_range start 11 Hv ltac:(lia) Hr) as (s4 & E4 & M4).
  exists s1, s2, s3, s4. repeat (split; [assumption|]).
  cbn [service_loop].
  change (Z.of_nat (2 + 0 * 3)) with 2%Z. rewrite E1.
  change (Z.of_nat (2 + 1 * 3)) with 5%Z. rewrite E2.
  change (Z.of_nat (2 + 2 * 3)) with 8%Z. rewrite E3.
  change (Z.of_nat (2 + 3 * 3)) with 11%Z. rewrite E4.
  reflexivity.
Qed.

Lemma strftime_dmy_nonempty (d : date) : strftime_dmy d <> "".
Proof. unfold strftime_dmy, pad2. simpl. discriminate. Qed.

Lemma strftime_BY_nonempty (d : date) : strftime_BY d <> "".
Proof.
  unfold strftime_BY. destruct (month_name (month d)); simpl; discriminate.
Qed.

(** ** The unit details *)

Lemma has_unit_header_spec (t : table) :
  has_unit_header t = (1 <? List.length t) && header_has_keyword t.
Proof. reflexivity. Qed.

Lemma scan_tables_none (table_data : list table) :
  Forall (fun t => has_unit_header t = false) table_data ->
  scan_tables table_data = None.
Proof.
  induction 1 as [|t rest Ht _ IH]; simpl; [reflexivity|]. now rewrite Ht.
Qed.

Lemma scan_tables_first (pre : list table) (t : table) (post : list table) :
  Forall (fun t' => has_unit_header t' = false) pre ->
  has_unit_header t = true ->
  scan_tables (pre ++ t :: post) = Some (table_rows (tl t) "").
Proof.
  induction 1 as [|t' rest Ht _ IH]; simpl; intros H.
  - now rewrite H.
  - rewrite Ht. now apply IH.
Qed.

Lemma short_table_no_header (t : table) :
  List.length t <= 1 -> has_unit_header t = false.
Proof.
  intros H. unfold has_unit_header.
  destruct (1 <? List.length t) eqn:E; [|reflexivity].
  apply Nat.ltb_lt in E. lia.
Qed.

Lemma table_rows_lines (rows : list (list string)) (acc : string) :
  table_rows rows acc = acc ++ lines_text (map row_text (filter keeps_row rows)).
Proof.
  revert acc. induction rows as [|row rows IH]; intros acc; simpl.
  - now rewrite append_nil_r.
  - destruct (keeps_row row); simpl; rewrite IH; [|reflexivity].
    now rewrite !append_assoc.
Qed.

Lemma nl_spaces : forall_chars is_space nl = true.
Proof. reflexivity. Qed.

Lemma rstrip_lines_text (lines : list string) :
  Forall clean lines -> rstrip (lines_text lines) = join nl lines.
Proof.
  induction 1 as [|l rest Hl Hrest IH]; [reflexivity|].
  destruct Hl as (Hne & Ll & Rl).
  destruct rest as [|l' rest].
  - change (lines_text [l]) with (l ++ nl). change (join nl [l]) with l.
    rewrite rstrip_app_spaces by apply nl_spaces. exact Rl.
  - change (lines_text (l :: l' :: rest))
      with (l ++ nl ++ lines_text (l' :: rest)).
    change (join nl (l :: l' :: rest)) with (l ++ nl ++ join nl (l' :: rest)).
    assert (Hj : join nl (l' :: rest) <> "").
    { inversion Hrest as [|? ? (Hl' & _) _]; subst.
      destruct l'; [congruence|]. destruct rest; discriminate. }
    rewrite <- append_assoc, rstrip_app; rewrite IH; [|assumption].
    now rewrite append_assoc.
Qed.

Lemma strip_lines_text (lines : list string) :
  Forall clean lines -> strip (lines_text lines) = join nl lines.
Proof.
  intros H. unfold strip. destruct lines as [|l rest]; [reflexivity|].
  assert (L : lstrip (lines_text (l :: rest)) = lines_text (l :: rest)).
  { inversion H as [|? ? (Hne & Ll & _) _]; subst.
    simpl. now apply lstrip_app. }
  rewrite L. now apply rstrip_lines_text.
Qed.

(** The text of a row of trimmed cells that is kept is clean. *)
Lemma row_text_clean (row : list string) :
  Forall (fun cell => strip cell = cell) row ->
  truthy (row_text row) = true -> clean (row_text row).
Proof.
  intros Hrow Hne. unfold row_text in *.
  set (cells := filter (fun cell => truthy (strip cell)) row) in *.
  assert (Hc : Forall clean cells).
  { apply Forall_forall. intros cell Hin. apply filter_In in Hin.
    destruct Hin as [Hin Ht].
    rewrite Forall_forall in Hrow. rewrite (Hrow cell Hin) in Ht.
    apply clean_of_strip; [auto|]. destruct cell; [discriminate | discriminate]. }
  apply clean_join; [|assumption].
  destruct cells; [discriminate | discriminate].
Qed.

Lemma kept_rows_clean (rows : list (list string)) :
  trimmed_rows rows -> Forall clean (map row_text (filter keeps_row rows)).
Proof.
  intros H. apply Forall_forall. intros l Hin.
  apply in_map_iff in Hin. destruct Hin as (row & <- & Hin).
  apply filter_In in Hin. destruct Hin as [Hin Hk].
  unfold keeps_row in Hk. apply andb_prop in Hk. destruct Hk as [Hk _].
  unfold trimmed_rows in H. rewrite Forall_forall in H.
  apply row_text_clean; auto.
Qed.

(** The loader delivers trimmed cells. *)
Lemma loader_rows_trimmed (file : uploaded_file) :
  Forall trimmed_rows (snd (extract_text_from_docx file)).
Proof.
  unfold extract_text_from_docx, trimmed_rows.
  destruct (content file) as [doc|]; simpl; [|constructor].
  repeat (apply Forall_map, Forall_forall; intros ? _).
  apply strip_idem.
Qed.

(** ** The upload loop *)

Lemma upload_loop_step (f : uploaded_file) (files : list uploaded_file)
    (data : list dict) :
  upload_loop (f :: files) data =
  if has_text f then upload_loop files (data ++ [record_of f])
  else upload_loop files data.
Proof.
  simpl. unfold has_text, record_of.
  destruct (extract_text_from_docx f) as [txt tbls]. reflexivity.
Qed.

Lemma upload_loop_spec (files : list uploaded_file) (data : list dict) :
  upload_loop files data = (data ++ map record_of (filter has_text files))%list.
Proof.
  revert data. induction files as [|f files IH]; intros data.
  - simpl. now rewrite app_nil_r.
  - rewrite upload_loop_step. simpl filter.
    destruct (has_text f); rewrite IH; [|reflexivity].
    rewrite <- app_assoc. reflexivity.
Qed.

(** ** The date loop *)

Lemma first_valid_date_find (candidates : list string) :
  Forall (fun c => dmy_shape c = true) candidates ->
  first_valid_date candidates =
  match List.find (fun c => is_some (strptime_dmy c)) candidates with
  | Some c => date_text c
  | None => ""
  end.
Proof.
  induction 1 as [|c rest Hc _ IH]; simpl; [reflexivity|].
  destruct (strptime_dmy c) as [d|] eqn:E; simpl; [|exact IH].
  now apply strftime_strptime.
Qed.

(* ================================================================== *)
(** * The AMC PERIOD clause *)
(* ================================================================== *)

(** The six fields of the record when the leftmost AMC PERIOD clause parses
    and its service dates are in range. *)
Lemma amc_fields_when_parsed (text contract_no : string)
    (table_data : list table) (amc : match_obj) (start end_ : date) :
  search amc_pattern text IGNORECASE = Some amc ->
  strptime_dmy (group 1 amc) = Some start ->
  strptime_dmy (group 2 amc) = Some end_ ->
  services_in_range start ->
  let r := extract_details text contract_no table_data in
  exists s1 s2 s3 s4,
    months_after start 2 s1 /\ months_after start 5 s2 /\
    months_after start 8 s3 /\ months_after start 11 s4 /\
    field "Amc Start Date" r (strftime_dmy start) /\
    field "Amc End Date" r (strftime_dmy end_) /\
    field "1st Service Month" r (strftime_BY s1) /\
    field "2nd Service Month" r (strftime_BY s2) /\
    field "3rd Service Month" r (strftime_BY s3) /\
    field "4th Service Month" r (strftime_BY s4).
Proof.
  intros Hs H1 H2 Hr r.
  destruct (@amc_block_in_range amc start end_
              (fields_before_amc text contract_no) H1 H2 Hr)
    as (s1 & s2 & s3 & s4 & M1 & M2 & M3 & M4 & E).
  exists s1, s2, s3, s4. repeat (split; [assumption|]).
  unfold field, r.
  rewrite !get_amc_field by (simpl; auto 10).
  unfold amc_period. rewrite Hs, E.
  repeat split; other_key; apply dict_get_set_eq.
Qed.

(** A clause at the very start of the text is the leftmost one. *)
Lemma leftmost_at_start (text g1 g2 : string) :
  amc_clause text g1 g2 -> leftmost_amc_clause text text g1 g2.
Proof.
  intros Hc. exists "". split; [reflexivity|]. split; [exact Hc|].
  intros p1 p2 g g' E Hne. destruct p1; [|discriminate E].
  simpl in E. congruence.
Qed.

(** C1, as amended.  When the leftmost AMC PERIOD clause of the text has
    the dates [g1] and [g2], both parse, and the start date is not later
    than January 9999, Amc Start Date and Amc End Date are [g1] and [g2]
    with dashes for dots and the year without its leading zeros, that is,
    DD-MM-YYYY for a date of year 1000 or later, and the four Service Month
    fields are the month name and the year of the months that come 2, 5, 8
    and 11 months after the month of the start date. *)
Theorem amc_period_fields (text contract_no : string)
    (table_data : list table) (s g1 g2 : string) (start end_ : date) :
  leftmost_amc_clause text s g1 g2 ->
  strptime_dmy g1 = Some start ->
  strptime_dmy g2 = Some end_ ->
  services_in_range start ->
  let r := extract_details text contract_no table_data in
  field "Amc Start Date" r (date_text g1) /\
  field "Amc End Date" r (date_text g2) /\
  ((1000 <= year start)%Z -> date_text g1 = dashed g1) /\
  ((1000 <= year end_)%Z -> date_text g2 = dashed g2) /\
  exists s1 s2 s3 s4,
    months_after start 2 s1 /\ months_after start 5 s2 /\
    months_after start 8 s3 /\ months_after start 11 s4 /\
    field "1st Service Month" r (strftime_BY s1) /\
    field "2nd Service Month" r (strftime_BY s2) /\
    field "3rd Service Month" r (strftime_BY s3) /\
    field "4th Service Month" r (strftime_BY s4).
Proof.
  intros Hl H1 H2 Hr r.
  destruct (amc_search_leftmost Hl) as (amc & Hs & <- & <-).
  destruct (amc_groups_shape _ Hs) as [S1 S2].
  destruct (@amc_fields_when_parsed text contract_no table_data amc start end_
              Hs H1 H2 Hr)
    as (s1 & s2 & s3 & s4 & M1 & M2 & M3 & M4 & F1 & F2 & F3 & F4 & F5 & F6).
  rewrite (strftime_strptime _ S1 H1) in F1.
  rewrite (strftime_strptime _ S2 H2) in F2.
  split; [exact F1|]. split; [exact F2|].
  split; [exact (@date_text_dashed _ start S1 H1)|].
  split; [exact (@date_text_dashed _ end_ S2 H2)|].
  exists s1, s2, s3, s4. auto 10.
Qed.

(** The clause of the specification, evaluated. *)
Example amc_period_example :
  let r := extract_details "AMC PERIOD: 01.03.2024 to 28.02.2025" "" [] in
  field "Amc Start Date" r "01-03-2024" /\
  field "Amc End Date" r "28-02-2025" /\
  field "1st Service Month" r "May 2024" /\
  field "2nd Service Month" r "August 2024" /\
  field "3rd Service Month" r "November 2024" /\
  field "4th Service Month" r "February 2025".
Proof. vm_compute. repeat split. Qed.

(** A clause of a year below 1000: the year is printed without its leading
    zero. *)
Example amc_period_year_below_1000 :
  let r := extract_details "AMC PERIOD: 01.01.0999 to 31.12.0999" "" [] in
  field "Amc Start Date" r "01-01-999" /\
  field "Amc End Date" r "31-12-999" /\
  field "1st Service Month" r "March 999" /\
  field "2nd Service Month" r "June 999" /\
  field "3rd Service Month" r "September 999" /\
  field "4th Service Month" r "December 999".
Proof. vm_compute. repeat split. Qed.

Lemma amc_period_fields_witness :
  let text := "AMC PERIOD: 01.03.2024 to 28.02.2025" in
  let start := {| year := 2024; month := 3; day := 1 |} in
  let end_ := {| year := 2025; month := 2; day := 28 |} in
  let r := extract_details text "" [] in
  leftmost_amc_clause text text "01.03.2024" "28.02.2025" /\
  strptime_dmy "01.03.2024" = Some start /\
  strptime_dmy "28.02.2025" = Some end_ /\
  services_in_range start /\
  field "Amc Start Date" r "01-03-2024" /\
  field "Amc End Date" r "28-02-2025" /\
  field "1st Service Month" r "May 2024" /\
  field "2nd Service Month" r "August 2024" /\
  field "3rd Service Month" r "November 2024" /\
  field "4th Service Month" r "February 2025".
Proof.
  intros text start end_ r.
  assert (Hc : amc_clause text "01.03.2024" "28.02.2025").
  { exists "AMC PERIOD", "", ":", " ", " ", "to", " ", "".
    repeat split; simpl; auto. }
  assert (Hl : leftmost_amc_clause text text "01.03.2024" "28.02.2025")
    by exact (leftmost_at_start Hc).
  assert (Hr : services_in_range start) by (left; reflexivity).
  split; [exact Hl|].
  split; [reflexivity|]. split; [reflexivity|]. split; [exact Hr|].
  destruct (@amc_period_fields text "" [] text "01.03.2024" "28.02.2025"
              start end_ Hl eq_refl eq_refl Hr)
    as (F1 & F2 & _ & _ &
        s1 & s2 & s3 & s4 & M1 & M2 & M3 & M4 & G1 & G2 & G3 & G4).
  split; [exact F1|]. split; [exact F2|].
  rewrite (@month_year_after start 2 s1 2024 5 M1 eq_refl) in G1 by lia.
  rewrite (@month_year_after start 5 s2 2024 8 M2 eq_refl) in G2 by lia.
  rewrite (@month_year_after start 8 s3 2024 11 M3 eq_refl) in G3 by lia.
  rewrite (@month_year_after start 11 s4 2025 2 M4 eq_refl) in G4 by lia.
  split; [exact G1|]. split; [exact G2|]. split; [exact G3 | exact G4].
Defined.

(** C1 as stated fails: this text ends with an AMC PERIOD clause whose two
    dates parse, but the search stops at the first clause, whose start date
    is no date, and the fields stay empty. *)
Lemma amc_later_clause_not_read :
  let clause := "AMC PERIOD: 01.03.2024 to 28.02.2025" in
  let text := "AMC PERIOD: 31.02.2024 to 01.01.2025 " ++ clause in
  amc_clause clause "01.03.2024" "28.02.2025" /\
  is_some (strptime_dmy "01.03.2024") = true /\
  is_some (strptime_dmy "28.02.2025") = true /\
  Forall (fun k => field k (extract_details text "" []) "") amc_fields.
Proof.
  split.
  - exists "AMC PERIOD", "", ":", " ", " ", "to", " ", "".
    repeat split; simpl; auto.
  - split; [reflexivity|]. split; [reflexivity|].
    repeat (constructor; [reflexivity|]). constructor.
Qed.

(** C2, as amended.  When the leftmost AMC PERIOD clause of the text has a
    date that fails to parse, the six fields of the clause stay empty; when
    both dates parse and the start date is not later than January 9999, all
    six are filled. *)
Theorem amc_fields_all_or_nothing (text contract_no : string)
    (table_data : list table) (s g1 g2 : string) :
  leftmost_amc_clause text s g1 g2 ->
  let r := extract_details text contract_no table_data in
  (strptime_dmy g1 = None \/ strptime_dmy g2 = None ->
   Forall (fun k => field k r "") amc_fields) /\
  (forall start end_,
     strptime_dmy g1 = Some start ->
     strptime_dmy g2 = Some end_ ->
     services_in_range start ->
     Forall (fun k => exists v, field k r v /\ v <> "") amc_fields).
Proof.
  intros Hl r.
  destruct (amc_search_leftmost Hl) as (amc & Hs & <- & <-).
  split.
  - intros Hfail.
    assert (E : amc_period text (fields_before_amc text contract_no)
                = fields_before_amc text contract_no).
    { unfold amc_period, amc_block. rewrite Hs.
      destruct Hfail as [-> | Hf]; [reflexivity|].
      destruct (strptime_dmy (group 1 amc)); [now rewrite Hf | reflexivity]. }
    pose proof (amc_fields_initially_empty text contract_no) as H0.
    rewrite Forall_forall in *. intros k Hk. unfold field, r.
    rewrite get_amc_field, E by assumption. now apply H0.
  - intros start end_ H1 H2 Hr.
    destruct (@amc_fields_when_parsed text contract_no table_data amc start end_
                Hs H1 H2 Hr)
      as (s1 & s2 & s3 & s4 & _ & _ & _ & _ & F1 & F2 & F3 & F4 & F5 & F6).
    unfold amc_fields.
    repeat (constructor;
      [eexists; split;
       [eassumption | first [apply strftime_dmy_nonempty | apply strftime_BY_nonempty]]|]).
    constructor.
Qed.

Lemma amc_fields_all_or_nothing_witness :
  let text := "AMC PERIOD: 31.02.2024 to 01.01.2025" in
  let r := extract_details text "" [] in
  leftmost_amc_clause text text "31.02.2024" "01.01.2025" /\
  strptime_dmy "31.02.2024" = None /\
  Forall (fun k => field k r "") amc_fields.
Proof.
  intros text r.
  assert (Hc : amc_clause text "31.02.2024" "01.01.2025").
  { exists "AMC PERIOD", "", ":", " ", " ", "to", " ", "".
    repeat split; simpl; auto. }
  assert (Hl : leftmost_amc_clause text text "31.02.2024" "01.01.2025")
    by exact (leftmost_at_start Hc).
  split; [exact Hl|]. split; [reflexivity|].
  exact (proj1 (@amc_fields_all_or_nothing text "" [] text
                  "31.02.2024" "01.01.2025" Hl)
           (or_introl eq_refl)).
Defined.

(** C2 as stated fails: both dates of this clause parse, the start and end
    dates are written, and the first service date, two months after
    December 9999, does not exist, so the four Service Month fields stay
    empty. *)
Lemma amc_partial_record_in_year_9999 :
  let r := extract_details "AMC PERIOD: 01.12.9999 to 31.12.9999" "" [] in
  field "Amc Start Date" r "01-12-9999" /\
  field "Amc End Date" r "31-12-9999" /\
  field "1st Service Month" r "" /\
  field "2nd Service Month" r "" /\
  field "3rd Service Month" r "" /\
  field "4th Service Month" r "".
Proof. vm_compute. repeat split. Qed.

(* ================================================================== *)
(** * The amount *)
(* ================================================================== *)

(** C4, as amended.  Amount is the numeric capture of the leftmost match of
    the labelled pattern; only when that pattern has no match it is the
    numeric capture of the leftmost match of the second pattern, in which
    whitespace may stand between the number and the mark "/-"; when neither
    matches it is empty.  A numeric capture is a run of digits and commas,
    then at most a dot and one or two digits. *)
Theorem amount_two_patterns (text contract_no : string)
    (table_data : list table) :
  let r := extract_details text contract_no table_data in
  match search amount_pattern text IGNORECASE with
  | Some m => field "Amount" r (group 1 m) /\ is_number (group 1 m)
  | None =>
      match search slash_pattern text NOFLAGS with
      | Some m => field "Amount" r (group 1 m) /\ is_number (group 1 m)
      | None => field "Amount" r ""
      end
  end.
Proof.
  intros r. unfold field, r. rewrite get_amount.
  unfold extract_amount, amount_match.
  destruct (search amount_pattern text IGNORECASE) as [m|] eqn:E1.
  - pose proof (amount_capture _ E1) as Hn.
    now rewrite (strip_number Hn).
  - destruct (search slash_pattern text NOFLAGS) as [m|] eqn:E2; [|reflexivity].
    pose proof (slash_capture _ E2) as Hn.
    now rewrite (strip_number Hn).
Qed.

(** The two amounts of the specification, evaluated. *)
Example amount_examples :
  field "Amount" (extract_details "AMOUNT: Rs. 12,500.00" "" []) "12,500.00" /\
  field "Amount" (extract_details "12500/-" "" []) "12500" /\
  field "Amount" (extract_details "no figure here" "" []) "".
Proof. vm_compute. repeat split. Qed.

(** C4 as stated fails: in this text no number is followed at once by the
    mark and there is no label, yet Amount is not empty. *)
Lemma amount_mark_after_space :
  search amount_pattern "12500 /-" IGNORECASE = None /\
  search immediate_slash_pattern "12500 /-" NOFLAGS = None /\
  field "Amount" (extract_details "12500 /-" "" []) "12500".
Proof. vm_compute. repeat split. Qed.

(* ================================================================== *)
(** * The contract date *)
(* ================================================================== *)

(** C8, as amended.  The candidates that [findall] gives are the dates of
    the text: every substring DD.MM.YYYY of digits and dots that stands
    between two word boundaries, from left to right.  Contract Date is the
    first of them that parses, with dashes for dots and the year without
    its leading zeros, whatever number of dates that fail to parse come
    before it, and it is empty when none parses. *)
Theorem contract_date_first_valid (text contract_no : string)
    (table_data : list table) :
  findall date_pattern text NOFLAGS = dates_in None text /\
  field "Contract Date" (extract_details text contract_no table_data)
    match List.find (fun c => is_some (strptime_dmy c)) (dates_in None text) with
    | Some c => date_text c
    | None => ""
    end /\
  (forall c d, In c (dates_in None text) -> strptime_dmy c = Some d ->
               (1000 <= year d)%Z -> date_text c = dashed c) /\
  field "Contract Date"
    (extract_details "Dated 31.02.2024, revised 01.03.2024" contract_no table_data)
    "01-03-2024" /\
  field "Contract Date"
    (extract_details "Dated 01.01.0999" contract_no table_data) "01-01-999".
Proof.
  split; [apply findall_dates|].
  unfold field. rewrite !get_contract_date.
  split; [|split; [|split; reflexivity]].
  - unfold extract_first_valid_date.
    rewrite first_valid_date_find by apply findall_from_shape.
    now rewrite findall_dates.
  - intros c d Hin Hp Hy.
    assert (Hs : dmy_shape c = true).
    { assert (Hall : Forall (fun c => dmy_shape c = true)
                       (findall date_pattern text NOFLAGS))
        by apply findall_from_shape.
      rewrite findall_dates in Hall.
      exact (proj1 (Forall_forall _ _) Hall c Hin). }
    exact (@date_text_dashed c d Hs Hp Hy).
Qed.

(** C8 as stated fails: the first substring of this text that has the shape
    of a date is 01.03.2024, and it parses, yet it is no candidate, for a
    letter stands before it; Contract Date is the later date. *)
Lemma date_after_letter_not_read :
  let text := "Ref01.03.2024 then 05.04.2024" in
  text = "Ref" ++ "01.03.2024" ++ " then 05.04.2024" /\
  dmy_shape "01.03.2024" = true /\
  is_some (strptime_dmy "01.03.2024") = true /\
  (forall p1 p2, "Ref" = p1 ++ p2 -> p2 <> "" ->
     dmy_shape (take 10 (p2 ++ "01.03.2024 then 05.04.2024")) = false) /\
  forall contract_no table_data,
    field "Contract Date" (extract_details text contract_no table_data)
      "05-04-2024".
Proof.
  intros text. split; [reflexivity|]. split; [reflexivity|].
  split; [reflexivity|]. split.
  - intros p1 p2 E Hne.
    destruct p1 as [|a [|b [|c [|e p1]]]]; simpl in E.
    + subst p2. reflexivity.
    + injection E as _ <-. reflexivity.
    + injection E as _ _ <-. reflexivity.
    + injection E as _ _ _ <-. congruence.
    + injection E as _ _ _ E. destruct p1; discriminate E.
  - intros contract_no table_data. unfold field.
    rewrite get_contract_date. reflexivity.
Qed.

(* ================================================================== *)
(** * The file name *)
(* ================================================================== *)

(** C7.  Either the file name splits at the leftmost place where "CC", a
    digit run and an underscore start, and the parser returns that digit
    run, or no such place exists and the parser returns the empty string;
    the name CC1234_Client.docx gives Contract No 1234 whatever the text
    and the tables are. *)
Theorem filename_contract_number (filename : string) :
  ((exists pre s,
       filename = pre ++ s /\
       cc_at s (extract_contract_number_from_filename filename) /\
       forall p1 p2 ds, pre = p1 ++ p2 -> p2 <> "" -> ~ cc_at (p2 ++ s) ds)
   \/
   (extract_contract_number_from_filename filename = "" /\
    forall pre s ds, filename = pre ++ s -> ~ cc_at s ds))
  /\
  forall text table_data,
    field "Contract No"
      (extract_details text
         (extract_contract_number_from_filename "CC1234_Client.docx")
         table_data)
      "1234".
Proof.
  split; [|intros; apply get_contract_no].
  unfold extract_contract_number_from_filename, search.
  destruct (search_from NOFLAGS contract_number_pattern None filename)
    as [m|] eqn:E.
  - left. apply search_from_some in E.
    destruct E as (pre & tl & -> & Hm & Hfirst).
    exists pre, tl. split; [reflexivity|split].
    + eapply cc_here_sound; eauto.
    + intros p1 p2 ds Hp Hne. eapply cc_here_none. eapply Hfirst; eauto.
  - right. split; [reflexivity|].
    intros pre s ds Hs. eapply cc_here_none.
    eapply search_from_none; eauto.
Qed.

(* ================================================================== *)
(** * The record *)
(* ================================================================== *)

(** C6.  The record has the sixteen declared keys, each once and in the
    declared order, and no other key; Service Frequency holds the integer 4
    and each of the other fifteen keys holds a string; when nothing is
    found (empty text, no table) each of these strings but Contract No is
    the empty string. *)
Theorem record_has_declared_fields (text contract_no : string)
    (table_data : list table) :
  let r := extract_details text contract_no table_data in
  keys r = declared_fields /\
  List.length (keys r) = 16 /\
  NoDup (keys r) /\
  dict_get "Service Frequency" r = Some (VInt 4) /\
  Forall (fun k => exists s, dict_get k r = Some (VStr s)) string_fields /\
  (forall k, ~ In k declared_fields -> dict_get k r = None) /\
  Forall (fun k => field k (extract_details "" contract_no [])
                     (if String.eqb k "Contract No" then contract_no else ""))
    string_fields.
Proof.
  intros r.
  destruct (extract_details_record text contract_no table_data)
    as (Hk & Hf & Hs).
  fold r in Hk, Hf, Hs. rewrite Hk.
  split; [reflexivity|]. split; [reflexivity|]. split.
  - unfold declared_fields.
    repeat (constructor; [simpl; intuition discriminate|]). constructor.
  - split; [exact Hf|]. split; [exact Hs|]. split.
    + intros k Hn. apply dict_get_absent. now rewrite Hk.
    + unfold string_fields.
      repeat (constructor; [reflexivity|]). constructor.
Qed.

(* ================================================================== *)
(** * The unit details *)
(* ================================================================== *)

(** C10.  When no table has more than one row, the tables are passed over,
    whatever their header rows hold, and Unit Details comes from the text
    after the UNIT DETAILS label. *)
Theorem header_only_tables_fall_back (text contract_no : string)
    (table_data : list table) :
  Forall (fun t => List.length t <= 1) table_data ->
  field "Unit Details" (extract_details text contract_no table_data)
    (strip (unit_details_from_text text)).
Proof.
  intros H. unfold field. rewrite get_unit_details. unfold unit_details.
  rewrite scan_tables_none; [reflexivity|].
  eapply Forall_impl; [|exact H]. intros t. apply short_table_no_header.
Qed.

Lemma header_only_tables_fall_back_witness :
  let t := [["Brand"; "Qty"; "Rate"]] in
  header_has_keyword t = true /\
  Forall (fun t => List.length t <= 1) [t] /\
  field "Unit Details" (extract_details "UNIT DETAILS: foo" "" [t]) "foo".
Proof.
  intros t. split; [reflexivity|].
  assert (H : Forall (fun t => List.length t <= 1) [t])
    by (constructor; [apply le_n | constructor]).
  split; [exact H|].
  exact (@header_only_tables_fall_back "UNIT DETAILS: foo" "" [t] H).
Defined.

(** C3, as amended.  A table is read when it has at least two rows and a
    keyword among the lower-cased cells of its first row.  The first such
    table alone gives Unit Details, whatever the text holds; with the
    tables before it only, none of which is read, Unit Details comes from
    the text after the UNIT DETAILS label. *)
Theorem unit_details_two_stage (text contract_no : string)
    (pre : list table) (t : table) (post : list table) :
  Forall (fun t' => has_unit_header t' = false) pre ->
  1 < List.length t -> header_has_keyword t = true ->
  field "Unit Details" (extract_details text contract_no (pre ++ t :: post))
    (strip (table_rows (tl t) "")) /\
  field "Unit Details" (extract_details text contract_no pre)
    (strip (unit_details_from_text text)).
Proof.
  intros Hpre Hlen Hkw. unfold field. rewrite !get_unit_details.
  unfold unit_details. split.
  - rewrite (scan_tables_first _ post Hpre); [reflexivity|].
    rewrite has_unit_header_spec, Hkw.
    apply Nat.ltb_lt in Hlen. now rewrite Hlen.
  - now rewrite scan_tables_none.
Qed.

Lemma unit_details_two_stage_witness :
  let header_only := [["Brand"; "Qty"; "Rate"]] in
  let t := [["Brand"; "Qty"; "Rate"]; ["LG"; "2"; "100"]] in
  let text := "UNIT DETAILS: foo" in
  Forall (fun t' => has_unit_header t' = false) [header_only] /\
  1 < List.length t /\ header_has_keyword t = true /\
  field "Unit Details" (extract_details text "" [header_only; t]) "LG | 2 | 100" /\
  field "Unit Details" (extract_details text "" [header_only]) "foo".
Proof.
  intros header_only t text.
  assert (H : Forall (fun t' => has_unit_header t' = false) [header_only])
    by (constructor; [reflexivity | constructor]).
  split; [exact H|]. split; [apply le_n|]. split; [reflexivity|].
  exact (@unit_details_two_stage text "" [header_only] t [] H (le_n 2) eq_refl).
Defined.

(** C3 as stated fails: a keyword in the header row does not suffice.  The
    only table here has a keyword in its header row and no other row; it is
    not read, and Unit Details comes from the text. *)
Lemma unit_details_header_alone_not_enough :
  ~ (forall text contract_no pre t post,
       Forall (fun t' => header_has_keyword t' = false) pre ->
       header_has_keyword t = true ->
       field "Unit Details" (extract_details text contract_no (pre ++ t :: post))
         (strip (table_rows (tl t) ""))).
Proof.
  intros H.
  specialize (H "UNIT DETAILS: foo" "" [] [["Brand"; "Qty"; "Rate"]] []
                (Forall_nil _) eq_refl).
  vm_compute in H. discriminate H.
Qed.

(** C9, as amended.  In the table that is read, whose cells are trimmed, a
    row is left out when all its cells are blank or when its text has the
    word TOTAL; each other row gives one line, its cells that are not blank
    joined by " | "; Unit Details is these lines in the order of the
    rows. *)
Theorem table_rows_kept (text contract_no : string)
    (pre : list table) (t : table) (post : list table) :
  Forall (fun t' => has_unit_header t' = false) pre ->
  has_unit_header t = true ->
  trimmed_rows (tl t) ->
  field "Unit Details" (extract_details text contract_no (pre ++ t :: post))
    (join nl (map row_text (filter keeps_row (tl t)))) /\
  forall row, keeps_row row =
              truthy (row_text row) && negb (mentions_total (row_text row)).
Proof.
  intros Hpre Ht Htrim. split; [|reflexivity].
  unfold field. rewrite get_unit_details. unfold unit_details.
  rewrite (scan_tables_first _ post Hpre Ht).
  rewrite table_rows_lines. simpl append.
  now rewrite strip_lines_text by now apply kept_rows_clean.
Qed.

Lemma table_rows_kept_witness :
  let t := [["Brand"; "Qty"; "Rate"]; ["LG"; "2"; "100"];
            ["TOTAL 5000"; ""; ""]; [""; ""; ""]; ["Voltas"; ""; "250"]] in
  has_unit_header t = true /\
  trimmed_rows (tl t) /\
  field "Unit Details" (extract_details "" "" [t])
    ("LG | 2 | 100" ++ nl ++ "Voltas | 250").
Proof.
  intros t.
  assert (Htrim : trimmed_rows (tl t))
    by (repeat (constructor; [repeat (constructor; [reflexivity|]); constructor|]);
        constructor).
  split; [reflexivity|]. split; [exact Htrim|].
  exact (proj1 (@table_rows_kept "" "" [] t [] (Forall_nil _) eq_refl Htrim)).
Defined.

(** C9 as stated fails: the second row of this table has no TOTAL, and it is
    not printed with all its cells joined, for its blank cell is left
    out. *)
Lemma blank_cell_not_joined :
  ~ (forall text contract_no t,
       has_unit_header t = true ->
       field "Unit Details" (extract_details text contract_no [t])
         (rows_verbatim (tl t))).
Proof.
  intros H.
  specialize (H "" "" [["Brand"; "Qty"; "Rate"]; ["LG"; ""; "2"]] eq_refl).
  vm_compute in H. discriminate H.
Qed.

(* ================================================================== *)
(** * The upload loop *)
(* ================================================================== *)

(** C5, as amended.  The result holds one record for each document whose
    text is not blank, that is, has a character that is no whitespace, in
    the order of the upload; a document that fails to load has the empty
    text and gives no record. *)
Theorem blank_documents_skipped (uploaded_files : list uploaded_file) :
  process_uploads uploaded_files = map record_of (filter has_text uploaded_files)
  /\ forall file_name,
       extract_text_from_docx {| name := file_name; content := None |} = ("", [])
       /\ has_text {| name := file_name; content := None |} = false.
Proof.
  split; [|intros; split; reflexivity].
  unfold process_uploads. now rewrite upload_loop_spec.
Qed.

(** C5 as stated fails: the text of this document is one blank, which is
    not the empty text, and the document gives no record. *)
Lemma blank_text_gives_no_record :
  let file := {| name := "CC1_a.docx";
                 content := Some {| paragraphs := [" "]; tables := [] |} |} in
  fst (extract_text_from_docx file) <> "" /\
  process_uploads [file] = [].
Proof. split; [discriminate | reflexivity]. Qed.

(* ================================================================== *)
(** * Further properties: the loader, the loop and the export *)
(* ================================================================== *)

Lemma lstrip_spaces (s : string) : spaces s = true -> lstrip s = "".
Proof.
  unfold spaces. induction s as [|c r IH]; simpl; [reflexivity|].
  intros H. apply andb_prop in H. destruct H as [Hc Hr]. now rewrite Hc, IH.
Qed.

Lemma truthy_strip (s : string) : truthy (strip s) = negb (spaces s).
Proof.
  unfold strip, spaces. induction s as [|c r IH]; simpl; [reflexivity|].
  destruct (is_space c) eqn:Hc; simpl; [exact IH|].
  destruct (@rstrip_head c r Hc) as [r' E]. simpl in E. now rewrite E.
Qed.

Lemma spaces_app (a b : string) : spaces (a ++ b) = spaces a && spaces b.
Proof. apply forall_chars_app. Qed.

Lemma spaces_join (parts : list string) :
  spaces (join nl parts) = forallb spaces parts.
Proof.
  induction parts as [|p rest IH]; [reflexivity|].
  destruct rest as [|q rest].
  - simpl. now rewrite andb_true_r.
  - change (join nl (p :: q :: rest)) with (p ++ nl ++ join nl (q :: rest)).
    rewrite !spaces_app, IH. reflexivity.
Qed.

(** X1.  A document gives a record exactly when it loads and one of its
    paragraphs has a character that is no whitespace. *)
Theorem record_iff_paragraph_with_ink (file : uploaded_file) :
  has_text file =
  match content file with
  | Some doc => existsb has_ink (paragraphs doc)
  | None => false
  end.
Proof.
  unfold has_text, extract_text_from_docx.
  destruct (content file) as [doc|]; [|reflexivity]. simpl fst.
  rewrite truthy_strip, spaces_join. unfold has_ink.
  induction (paragraphs doc) as [|p rest IH]; [reflexivity|].
  simpl. rewrite negb_andb, IH. reflexivity.
Qed.

(** X2.  A batch is processed document by document: the records of two
    batches uploaded together are the records of the first followed by the
    records of the second, and a batch never gives more records than it has
    documents. *)
Theorem uploads_concatenate (first second : list uploaded_file) :
  process_uploads (first ++ second)%list
  = (process_uploads first ++ process_uploads second)%list /\
  List.length (process_uploads first) <= List.length first.
Proof.
  unfold process_uploads. rewrite !upload_loop_spec. simpl. split.
  - now rewrite filter_app, map_app.
  - rewrite length_map. apply filter_length_le.
Qed.

Lemma records_of_uploads (uploaded_files : list uploaded_file) :
  Forall is_record (process_uploads uploaded_files).
Proof.
  unfold process_uploads. rewrite upload_loop_spec. simpl.
  apply Forall_map, Forall_forall. intros f _. apply extract_details_record.
Qed.

Lemma columns_of_records (data : list dict) :
  Forall is_record data -> columns_of declared_fields data = declared_fields.
Proof.
  induction 1 as [|d rest (Hk & _) _ IH]; simpl; [reflexivity|].
  rewrite Hk. exact IH.
Qed.

Lemma columns_of_first (d : dict) (rest : list dict) :
  Forall is_record (d :: rest) -> columns_of [] (d :: rest) = declared_fields.
Proof.
  intros H. inversion H as [|? ? (Hk & _) Hrest]; subst. simpl. rewrite Hk.
  exact (columns_of_records Hrest).
Qed.

Lemma record_row_complete (d : dict) :
  is_record d ->
  forallb is_some (map (fun col => dict_get col d) declared_fields) = true.
Proof.
  intros (_ & Hf & Hs). unfold string_fields in Hs.
  repeat match goal with
  | H : Forall _ (_ :: _) |- _ =>
      let E := fresh "E" in
      inversion H as [|? ? [? E] ?]; subst; clear H
  end.
  simpl.
  repeat match goal with
  | E : dict_get _ d = Some _ |- _ => rewrite E; clear E
  end.
  reflexivity.
Qed.

Lemma no_record_iff_no_text (files : list uploaded_file) :
  match process_uploads files with [] => true | _ => false end
  = negb (existsb has_text files).
Proof.
  unfold process_uploads. rewrite upload_loop_spec. simpl app.
  induction files as [|g files IH]; [reflexivity|].
  simpl. destruct (has_text g); [reflexivity | exact IH].
Qed.

(** X3.  A run shows a table and offers a download exactly when one of the
    uploaded documents has a text that is not blank. *)
Theorem export_iff_some_text (uploaded_files : list uploaded_file)
    (now : datetime) :
  is_some (run_app uploaded_files now) = existsb has_text uploaded_files.
Proof.
  unfold run_app. pose proof (no_record_iff_no_text uploaded_files) as H.
  destruct uploaded_files as [|f rest]; [reflexivity|].
  destruct (process_uploads (f :: rest));
    destruct (existsb has_text (f :: rest));
    cbn [is_some negb] in *; congruence.
Qed.

(** X4.  The table of a run has the sixteen declared fields as its columns,
    in their order, one row for each document whose text is not blank, and
    no missing cell. *)
Theorem export_table_complete (uploaded_files : list uploaded_file)
    (now : datetime) (e : export) :
  run_app uploaded_files now = Some e ->
  df_columns (df e) = declared_fields /\
  List.length (df_rows (df e)) = List.length (filter has_text uploaded_files) /\
  Forall (fun row => List.length row = 16 /\ forallb is_some row = true)
    (df_rows (df e)).
Proof.
  unfold run_app. destruct uploaded_files as [|f rest]; [discriminate|].
  pose proof (records_of_uploads (f :: rest)) as Hrec.
  assert (Hlen : List.length (process_uploads (f :: rest))
                 = List.length (filter has_text (f :: rest))).
  { unfold process_uploads. rewrite upload_loop_spec. simpl app.
    apply length_map. }
  destruct (process_uploads (f :: rest)) as [|d data] eqn:E; [discriminate|].
  intros H. injection H as <-. unfold make_DataFrame.
  cbn [df df_columns df_rows]. rewrite (columns_of_first Hrec).
  split; [reflexivity|]. split.
  { rewrite <- Hlen. apply length_map. }
  apply Forall_map. eapply Forall_impl; [|exact Hrec].
  intros r Hr. split; [now rewrite length_map | now apply record_row_complete].
Qed.

Lemma export_table_complete_witness :
  let file := {| name := "CC1234_Client.docx";
                 content := Some {| paragraphs := ["AMOUNT: Rs. 500"];
                                    tables := [] |} |} in
  let now := {| on_date := {| year := 2024; month := 3; day := 1 |};
                hour := 9; minute := 5 |} in
  exists e,
    run_app [file] now = Some e /\
    file_name e = "amc_output_20240301_0905.xlsx" /\
    df_columns (df e) = declared_fields /\
    List.length (df_rows (df e)) = 1 /\
    Forall (fun row => List.length row = 16 /\ forallb is_some row = true)
      (df_rows (df e)).
Proof.
  intros file now. eexists. split; [reflexivity|]. split; [reflexivity|].
  exact (@export_table_complete [file] now _ eq_refl).
Defined.

(* ================================================================== *)
(** * Further properties: the fields read from labelled lines *)
(* ================================================================== *)

Lemma lower_app (a b : string) : lower (a ++ b) = lower a ++ lower b.
Proof. unfold lower. induction a; simpl; congruence. Qed.

Lemma upper_app (a b : string) : upper (a ++ b) = upper a ++ upper b.
Proof. unfold upper. induction a; simpl; congruence. Qed.

Lemma prefix_nil (s : string) : prefix "" s = true.
Proof. now destruct s. Qed.

Lemma prefix_app (a b : string) : prefix a (a ++ b) = true.
Proof.
  induction a as [|c a IH]; simpl; [apply prefix_nil|].
  destruct (ascii_dec c c); [exact IH | congruence].
Qed.

Lemma prefix_split (a s : string) :
  prefix a s = true -> exists r, s = a ++ r.
Proof.
  revert s. induction a as [|c a IH]; intros s H; [exists s; reflexivity|].
  destruct s as [|d s]; simpl in H; [discriminate|].
  destruct (ascii_dec c d) as [<-|]; [|discriminate].
  destruct (IH _ H) as [r ->]. exists r. reflexivity.
Qed.

Lemma prefix_app_l (n x z : string) :
  prefix n x = true -> prefix n (x ++ z) = true.
Proof.
  intros H. apply prefix_split in H. destruct H as [r ->].
  rewrite append_assoc. apply prefix_app.
Qed.

(** A word that is [l] up to case at the head of [s]. *)
Lemma prefix_lower_split (l s : string) :
  prefix (lower l) (lower s) = true ->
  exists w rest, s = w ++ rest /\ lower w = lower l.
Proof.
  unfold lower. revert s. induction l as [|c l IH]; intros s H.
  - exists "", s. auto.
  - destruct s as [|d s]; simpl in H; [discriminate|].
    destruct (ascii_dec (lower_char c) (lower_char d)) as [E|]; [|discriminate].
    destruct (IH _ H) as (w & rest & -> & Hw).
    exists (String d w), rest. simpl. split; [reflexivity|]. congruence.
Qed.

Lemma lit_here_prefix (l : string) p s :
  is_some (match_here IGNORECASE (lit l) p s) = prefix (lower l) (lower s).
Proof.
  destruct (match_here IGNORECASE (lit l) p s) as [m|] eqn:E; simpl.
  - apply match_here_sound in E. destruct E as (w & -> & _ & M).
    apply lit_nocase_inv in M. destruct M as [Hw _].
    rewrite lower_app, Hw. symmetry. apply prefix_app.
  - destruct (prefix (lower l) (lower s)) eqn:P; [|reflexivity].
    apply prefix_lower_split in P. destruct P as (w & rest & -> & Hw).
    pose proof (@lit_nocase_intro l p w rest [] Hw) as M.
    apply match_here_complete in M. destruct M as [m Hm]. congruence.
Qed.

(** Searching a literal under IGNORECASE is the substring test up to
    case. *)
Lemma search_lit_contains (l : string) (s : string) :
  forall p, is_some (search_from IGNORECASE (lit l) p s)
            = contains (lower l) (lower s).
Proof.
  induction s as [|c s IH]; intros p.
  - simpl search_from. pose proof (lit_here_prefix l p "") as H.
    destruct (match_here IGNORECASE (lit l) p ""); simpl in *;
      rewrite <- H; reflexivity.
  - simpl search_from. pose proof (lit_here_prefix l p (String c s)) as H.
    change (contains (lower l) (lower (String c s)))
      with (prefix (lower l) (lower (String c s)) || contains (lower l) (lower s)).
    rewrite <- H, <- (IH (Some c)).
    destruct (match_here IGNORECASE (lit l) p (String c s)); reflexivity.
Qed.

Lemma get_contract_type (text contract_no : string) (table_data : list table) :
  dict_get "Contract Type" (extract_details text contract_no table_data)
  = dict_get "Contract Type" (contract_type text (initial_fields contract_no)).
Proof.
  rewrite extract_details_unfold. other_key.
  rewrite amc_period_other by (simpl; intuition congruence).
  unfold fields_before_amc. other_key.
  rewrite location_other, address_other by congruence. other_key.
Qed.

(** X5.  Contract Type takes one of three values: the annual label when the
    text has the words ANNUAL MAINTENANCE CONTRACT in any letter case, also
    when it has the labour words too; else the labour label when the text
    has the words LABOUR MAINTENANCE CONTRACT in any letter case; else the
    empty string. *)
Theorem contract_type_by_phrase (text contract_no : string)
    (table_data : list table) :
  field "Contract Type" (extract_details text contract_no table_data)
    (if contains_nocase "ANNUAL MAINTENANCE CONTRACT" text
     then "ANNUAL MAINTENANCE CONTRACT"
     else if contains_nocase "LABOUR MAINTENANCE CONTRACT" text
     then "LABOUR MAINTENANCE CONTRACT"
     else "").
Proof.
  unfold field, contains_nocase. rewrite get_contract_type.
  unfold contract_type, annual_pattern, labour_pattern, search.
  rewrite !search_lit_contains.
  destruct (contains (lower "ANNUAL MAINTENANCE CONTRACT") (lower text));
    [reflexivity|].
  destruct (contains (lower "LABOUR MAINTENANCE CONTRACT") (lower text));
    reflexivity.
Qed.

(** ** The address *)

Lemma blanks_ok_relax (s : string) :
  blanks_ok true s = true -> blanks_ok false s = true.
Proof.
  destruct s as [|c r]; simpl; [reflexivity|].
  destruct (is_space c); [|auto].
  rewrite andb_false_r. discriminate.
Qed.

Lemma blanks_ok_sub_spaces (s : string) :
  forall b, blanks_ok b (sub_spaces b s) = true.
Proof.
  induction s as [|c r IH]; intros b; simpl; [reflexivity|].
  destruct (is_space c) eqn:Hc.
  - destruct b; [apply IH|]. simpl. apply IH.
  - simpl. rewrite Hc. apply IH.
Qed.

Lemma blanks_ok_lstrip (s : string) :
  forall b, blanks_ok b s = true -> blanks_ok false (lstrip s) = true.
Proof.
  induction s as [|c r IH]; intros b H; simpl in *; [reflexivity|].
  destruct (is_space c) eqn:Hc.
  - apply andb_prop in H. destruct H as [_ H]. now apply (IH true).
  - simpl. now rewrite Hc.
Qed.

Lemma blanks_ok_rstrip (s : string) :
  forall b, blanks_ok b s = true -> blanks_ok b (rstrip s) = true.
Proof.
  induction s as [|c r IH]; intros b H; simpl in *; [reflexivity|].
  destruct (is_space c) eqn:Hc.
  - apply andb_prop in H. destruct H as [H1 H2].
    pose proof (IH true H2) as H3.
    destruct (rstrip r) eqn:E; [reflexivity|].
    simpl. rewrite Hc, H1. exact H3.
  - pose proof (IH false H) as H3.
    destruct (rstrip r) eqn:E; simpl; rewrite Hc; [reflexivity | exact H3].
Qed.

Lemma single_spaced_no_linefeed (s : string) :
  forall b, blanks_ok b s = true -> no_linefeed s = true.
Proof.
  unfold no_linefeed. induction s as [|c r IH]; intros b H; simpl in *;
    [reflexivity|].
  destruct (is_space c) eqn:Hc.
  - apply andb_prop in H. destruct H as [H1 H2].
    apply andb_prop in H1. destruct H1 as [H1 _].
    apply Ascii.eqb_eq in H1. subst c. simpl. exact (IH true H2).
  - rewrite (IH false H), andb_true_r.
    destruct (Ascii.eqb_spec c (ascii_of_nat 10)); [subst; discriminate | reflexivity].
Qed.

Lemma get_address (text contract_no : string) (table_data : list table) :
  dict_get "Address" (extract_details text contract_no table_data)
  = dict_get "Address"
      (address text
         (dict_set "Contact Number"
            (VStr (strip (split_head "UNIT DETAILS" (find text contact_pattern ""))))
            (dict_set "Customer Name" (VStr (find text customer_pattern ""))
               (contract_type text (initial_fields contract_no))))).
Proof.
  rewrite extract_details_unfold. other_key.
  rewrite amc_period_other by (simpl; intuition congruence).
  unfold fields_before_amc. other_key.
  rewrite location_other by congruence. reflexivity.
Qed.

(** X6.  Address is on one line and single-spaced: it has no whitespace at
    either end, its only whitespace character is the blank, and no two
    blanks follow each other. *)
Theorem address_single_spaced (text contract_no : string)
    (table_data : list table) :
  exists v,
    field "Address" (extract_details text contract_no table_data) v /\
    strip v = v /\ single_spaced v = true /\ no_linefeed v = true.
Proof.
  unfold field. rewrite get_address. unfold address.
  destruct (search address_pattern text IGNORECASE_DOTALL) as [addr|].
  - eexists. split; [apply dict_get_set_eq|]. split; [apply strip_idem|].
    assert (H : single_spaced (strip (sub_spaces false (group 1 addr))) = true).
    { unfold single_spaced, strip. apply blanks_ok_rstrip.
      eapply blanks_ok_lstrip. apply blanks_ok_sub_spaces. }
    split; [exact H|]. exact (single_spaced_no_linefeed _ _ H).
  - exists "". split; [|repeat split].
    other_key. rewrite contract_type_other by congruence. reflexivity.
Qed.

(** ** Values read up to the end of a line *)

(** What the lazy star stops at: the first place where what follows
    succeeds. *)
Lemma star_lazy_minimal (A : Type) (p : ascii -> bool)
    (k : option ascii -> string -> option A) (s : string) :
  forall prev x, star_lazy p k prev s = Some x ->
  exists w rest,
    s = w ++ rest /\ forall_chars p w = true /\
    k (last_of prev w) rest = Some x /\
    forall w1 w2, w = w1 ++ w2 -> w2 <> "" ->
                  k (last_of prev w1) (w2 ++ rest) = None.
Proof.
  induction s as [|a s IH]; intros prev x H; simpl in H.
  - destruct (k prev "") eqn:E; [|discriminate]. injection H as ->.
    exists "", "". repeat split; auto.
    intros w1 w2 Hw Hne. destruct w1; [simpl in Hw; congruence | discriminate].
  - destruct (k prev (String a s)) eqn:E.
    + injection H as ->. exists "", (String a s). repeat split; auto.
      intros w1 w2 Hw Hne. destruct w1; [simpl in Hw; congruence | discriminate].
    + destruct (p a) eqn:Hp; [|discriminate].
      destruct (IH _ _ H) as (w & rest & -> & Hw & Hk & Hmin).
      exists (String a w), rest. simpl. rewrite Hp.
      repeat split; auto.
      intros w1 w2 Ew Hne. destruct w1 as [|b w1]; simpl in Ew.
      * subst w2. simpl. exact E.
      * injection Ew as <- ->. simpl. now apply Hmin.
Qed.

Lemma heads_all (q : ascii -> bool) (w : string) :
  (forall w1 a w2, w = w1 ++ String a w2 -> q a = true) ->
  forall_chars q w = true.
Proof.
  induction w as [|a w IH]; intros H; simpl; [reflexivity|].
  rewrite (H "" a w eq_refl). apply IH.
  intros w1 b w2 E. apply (H (String a w1) b w2). simpl. now rewrite E.
Qed.

Lemma no_groups_lit (l : string) : no_groups (lit l) = true.
Proof.
  induction l as [|a l IH]; [reflexivity|].
  destruct l; [reflexivity|].
  change (lit (String a (String a0 l)))
    with (Seq (Chr (CChar a)) (lit (String a0 l))).
  simpl no_groups. exact IH.
Qed.

(** The matcher leaves a leading part without groups behind it. *)
Lemma rmatch_seq_peel (fl : flags) (r1 r2 : regex) (A : Type) p s c
    (k : option ascii -> string -> captures -> option A) x :
  rmatch fl (Seq r1 r2) p s c k = Some x -> no_groups r1 = true ->
  exists p' s', rmatch fl r2 p' s' c k = Some x.
Proof.
  simpl. intros H Hn. apply rmatch_sound in H.
  destruct H as (w & rest & c' & _ & M & H).
  apply matches_no_groups in M; [subst c' | assumption]. eauto.
Qed.

(** A group read lazily up to the character [c0] has no [c0] in it. *)
Lemma lazy_until (fl : flags) (n : nat) (cs : cset) (c0 : ascii) p s caps m :
  rmatch fl (Seq (Group n (Star false cs)) (Chr (CChar c0))) p s caps
    (fun p' s' c' => Some {| m_groups := c'; m_prev := p'; m_rest := s' |})
  = Some m ->
  exists w, m_groups m = set_group n w caps /\
            forall_chars (fun a => negb (cset_match fl (CChar c0) a)) w = true.
Proof.
  cbn [rmatch]. intros H. apply star_lazy_minimal in H.
  destruct H as (w & rest & -> & _ & Hk & Hmin).
  exists w. split.
  - rewrite take_app in Hk.
    destruct rest as [|a rest]; [discriminate|].
    destruct (cset_match fl (CChar c0) a); [|discriminate].
    now injection Hk as <-.
  - apply heads_all. intros w1 a w2 E.
    specialize (Hmin w1 (String a w2) E ltac:(discriminate)).
    cbn [append] in Hmin.
    destruct (cset_match fl (CChar c0) a); [discriminate | reflexivity].
Qed.

Lemma linefeed_test (fl : flags) (a : ascii) :
  negb (cset_match fl (CChar (ascii_of_nat 10)) a) = true ->
  negb (Ascii.eqb a (ascii_of_nat 10)) = true.
Proof.
  intros H. destruct (Ascii.eqb_spec a (ascii_of_nat 10)) as [->|]; [|reflexivity].
  destruct fl as [[] ?]; discriminate H.
Qed.

(** The value after a label, read up to the end of the line, has no line
    feed, under any flags. *)
Lemma label_line_capture (fl : flags) (label text : string) (m : match_obj) :
  search (label_line label) text fl = Some m ->
  no_linefeed (group 1 m) = true.
Proof.
  unfold search. intros H. apply search_from_some in H.
  destruct H as (pre & tl & _ & H & _).
  unfold match_here in H. cbv [label_line seq] in H.
  apply rmatch_seq_peel in H; [|apply no_groups_lit]. destruct H as (p1 & s1 & H).
  do 3 (apply rmatch_seq_peel in H; [|reflexivity]; destruct H as (? & ? & H)).
  apply lazy_until in H. destruct H as (w & E & Hw).
  unfold group. rewrite E. simpl.
  exact (@forall_chars_impl _ _ _ (@linefeed_test fl) Hw).
Qed.

Lemma forall_chars_lstrip (q : ascii -> bool) (s : string) :
  forall_chars q s = true -> forall_chars q (lstrip s) = true.
Proof.
  induction s as [|c r IH]; simpl; [auto|]. intros H.
  apply andb_prop in H. destruct H as [Hc Hr].
  destruct (is_space c); [auto | simpl; now rewrite Hc, Hr].
Qed.

Lemma forall_chars_rstrip (q : ascii -> bool) (s : string) :
  forall_chars q s = true -> forall_chars q (rstrip s) = true.
Proof.
  induction s as [|c r IH]; simpl; [auto|]. intros H.
  apply andb_prop in H. destruct H as [Hc Hr]. specialize (IH Hr).
  destruct (rstrip r) eqn:E.
  - destruct (is_space c); simpl; [reflexivity | now rewrite Hc].
  - simpl in *. now rewrite Hc, IH.
Qed.

Lemma forall_chars_strip (q : ascii -> bool) (s : string) :
  forall_chars q s = true -> forall_chars q (strip s) = true.
Proof. intros H. now apply forall_chars_rstrip, forall_chars_lstrip. Qed.

Lemma split_head_prefix (sep s : string) :
  exists z, s = split_head sep s ++ z.
Proof.
  induction s as [|c r IH]; cbn [split_head].
  - exists "". destruct (prefix sep ""); reflexivity.
  - destruct (prefix sep (String c r)); [now exists (String c r)|].
    destruct IH as [z E]. exists z. simpl. now rewrite <- E.
Qed.

Lemma forall_chars_split_head (q : ascii -> bool) (sep s : string) :
  forall_chars q s = true -> forall_chars q (split_head sep s) = true.
Proof.
  intros H. destruct (split_head_prefix sep s) as [z E].
  rewrite E, forall_chars_app in H. now apply andb_prop in H.
Qed.

(** ** Substrings *)

Lemma contains_head (n s : string) :
  prefix n s = true -> contains n s = true.
Proof. intros H. destruct s; cbn [contains]; now rewrite H. Qed.

Lemma contains_app_l (n x z : string) :
  contains n x = true -> contains n (x ++ z) = true.
Proof.
  induction x as [|c x IH]; cbn [contains append]; intros H.
  - rewrite orb_false_r in H. apply contains_head.
    exact (@prefix_app_l n "" z H).
  - apply orb_prop in H. destruct H as [H|H].
    + pose proof (@prefix_app_l n (String c x) z H) as P.
      cbn [append] in P. now rewrite P.
    + rewrite (IH H). apply orb_true_r.
Qed.

Lemma contains_app_r (n x y : string) :
  contains n y = true -> contains n (x ++ y) = true.
Proof.
  intros H. induction x as [|c x IH]; cbn [contains append]; [exact H|].
  rewrite IH. apply orb_true_r.
Qed.

Lemma lstrip_suffix (s : string) : exists a, s = a ++ lstrip s.
Proof.
  induction s as [|c r IH]; simpl; [now exists ""|].
  destruct (is_space c); [|now exists ""].
  destruct IH as [a E]. exists (String c a). simpl. now rewrite <- E.
Qed.

Lemma rstrip_prefix (s : string) : exists b, s = rstrip s ++ b.
Proof.
  induction s as [|c r IH]; simpl; [now exists ""|].
  destruct IH as [b E]. destruct (rstrip r) eqn:Er.
  - destruct (is_space c); [now exists (String c r)|].
    exists r. reflexivity.
  - exists b. cbn [append]. f_equal. exact E.
Qed.

(** What [strip] returns is a part of its argument. *)
Lemma contains_strip (n s : string) :
  contains n (strip s) = true -> contains n s = true.
Proof.
  intros H. destruct (lstrip_suffix s) as [a Ea].
  destruct (rstrip_prefix (lstrip s)) as [b Eb].
  rewrite Ea, Eb. apply contains_app_r, contains_app_l. exact H.
Qed.

Lemma map_chars_strip_part (f : ascii -> ascii) (s : string) :
  exists a b, map_chars f s = a ++ map_chars f (strip s) ++ b.
Proof.
  destruct (lstrip_suffix s) as [a Ea].
  destruct (rstrip_prefix (lstrip s)) as [b Eb].
  exists (map_chars f a), (map_chars f b).
  assert (Happ : forall x y, map_chars f (x ++ y) = map_chars f x ++ map_chars f y)
    by (intros x y; induction x; simpl; congruence).
  rewrite <- !Happ. fold (strip s) in Eb. now rewrite <- Eb, <- Ea.
Qed.

(** No separator in the part before its first occurrence. *)
Lemma split_head_no_sep (sep s : string) :
  sep <> "" -> contains sep (split_head sep s) = false.
Proof.
  intros Hne.
  assert (Hnil : prefix sep "" = false) by (destruct sep; [congruence | reflexivity]).
  induction s as [|c r IH]; cbn [split_head].
  - rewrite Hnil. cbn [contains]. now rewrite Hnil.
  - destruct (prefix sep (String c r)) eqn:P; [cbn [contains]; now rewrite Hnil|].
    cbn [contains]. rewrite IH, orb_false_r.
    destruct (prefix sep (String c (split_head sep r))) eqn:P'; [|reflexivity].
    destruct (split_head_prefix sep r) as [z E].
    apply (@prefix_app_l sep _ z) in P'. cbn [append] in P'. rewrite <- E in P'.
    congruence.
Qed.

(* ================================================================== *)
(** * The fields read from one line *)
(* ================================================================== *)

Lemma get_customer_name (text contract_no : string) (table_data : list table) :
  dict_get "Customer Name" (extract_details text contract_no table_data)
  = Some (VStr (find text customer_pattern "")).
Proof.
  rewrite extract_details_unfold. other_key.
  rewrite amc_period_other by (simpl; intuition congruence).
  unfold fields_before_amc. other_key.
  rewrite location_other, address_other by congruence. other_key.
  apply dict_get_set_eq.
Qed.

Lemma get_contact_number (text contract_no : string) (table_data : list table) :
  dict_get "Contact Number" (extract_details text contract_no table_data)
  = Some (VStr (strip (split_head "UNIT DETAILS" (find text contact_pattern "")))).
Proof.
  rewrite extract_details_unfold. other_key.
  rewrite amc_period_other by (simpl; intuition congruence).
  unfold fields_before_amc. other_key.
  rewrite location_other, address_other by congruence.
  apply dict_get_set_eq.
Qed.

Lemma get_location (text contract_no : string) (table_data : list table) :
  dict_get "Location" (extract_details text contract_no table_data)
  = dict_get "Location"
      (location text (address text
        (dict_set "Contact Number"
           (VStr (strip (split_head "UNIT DETAILS" (find text contact_pattern ""))))
           (dict_set "Customer Name" (VStr (find text customer_pattern ""))
              (contract_type text (initial_fields contract_no)))))).
Proof.
  rewrite extract_details_unfold. other_key.
  rewrite amc_period_other by (simpl; intuition congruence).
  unfold fields_before_amc. other_key.
Qed.

(** What [find] gives for a pattern that reads to the end of the line. *)
Lemma find_label_line (text label : string) :
  strip (find text (label_line label) "") = find text (label_line label) "" /\
  no_linefeed (find text (label_line label) "") = true.
Proof.
  unfold find.
  destruct (search (label_line label) text IGNORECASE_DOTALL) as [m|] eqn:E.
  - split; [apply strip_idem|].
    apply forall_chars_strip. exact (@label_line_capture _ _ _ _ E).
  - split; reflexivity.
Qed.

(** X7.  Customer Name is one trimmed line: it has no whitespace at either
    end and no line feed, although the dot of its pattern matches line
    feeds. *)
Theorem customer_name_one_line (text contract_no : string)
    (table_data : list table) :
  exists v,
    field "Customer Name" (extract_details text contract_no table_data) v /\
    strip v = v /\ no_linefeed v = true.
Proof.
  eexists. split; [apply get_customer_name|].
  exact (find_label_line text "Customer Name").
Qed.

(** X8.  Contact Number is one trimmed line that stops before the words
    UNIT DETAILS: it has no whitespace at either end, no line feed, and
    nowhere the words UNIT DETAILS in capitals. *)
Theorem contact_number_one_line (text contract_no : string)
    (table_data : list table) :
  exists v,
    field "Contact Number" (extract_details text contract_no table_data) v /\
    strip v = v /\ no_linefeed v = true /\
    contains "UNIT DETAILS" v = false.
Proof.
  eexists. split; [apply get_contact_number|].
  split; [apply strip_idem|]. split.
  - apply forall_chars_strip, forall_chars_split_head.
    exact (proj2 (find_label_line text "Contact Number")).
  - destruct (contains "UNIT DETAILS" (strip (split_head "UNIT DETAILS"
                (find text contact_pattern "")))) eqn:E; [|reflexivity].
    apply contains_strip in E.
    rewrite split_head_no_sep in E by discriminate. discriminate E.
Qed.

(** X9.  Location is one trimmed line without the words CONTACT NUMBER in
    any letter case: a line after the label that holds these words is not
    taken, and the field stays empty. *)
Theorem location_one_line (text contract_no : string)
    (table_data : list table) :
  exists v,
    field "Location" (extract_details text contract_no table_data) v /\
    strip v = v /\ no_linefeed v = true /\
    contains "CONTACT NUMBER" (upper v) = false /\
    (forall loc,
       search location_pattern text IGNORECASE = Some loc ->
       contains "CONTACT NUMBER" (upper (group 1 loc)) = true -> v = "").
Proof.
  unfold field. rewrite get_location.
  assert (Hinit : dict_get "Location"
      (address text
        (dict_set "Contact Number"
           (VStr (strip (split_head "UNIT DETAILS" (find text contact_pattern ""))))
           (dict_set "Customer Name" (VStr (find text customer_pattern ""))
              (contract_type text (initial_fields contract_no)))))
      = Some (VStr "")).
  { rewrite address_other by congruence. other_key.
    rewrite contract_type_other by congruence. reflexivity. }
  unfold location.
  destruct (search location_pattern text IGNORECASE) as [loc|] eqn:E.
  - destruct (contains "CONTACT NUMBER" (upper (group 1 loc))) eqn:G; cbn [negb].
    + exists "". split; [exact Hinit|]. split; [reflexivity|].
      split; [reflexivity|]. split; reflexivity.
    + eexists. split; [apply dict_get_set_eq|].
      split; [apply strip_idem|]. split.
      * apply forall_chars_strip. exact (@label_line_capture _ _ _ _ E).
      * split.
        -- destruct (contains "CONTACT NUMBER" (upper (strip (group 1 loc)))) eqn:C;
             [|reflexivity].
           destruct (@map_chars_strip_part upper_char (group 1 loc)) as (a & b & P).
           unfold upper in *. rewrite P in G.
           rewrite (@contains_app_r "CONTACT NUMBER" a _) in G; [discriminate G|].
           apply contains_app_l. exact C.
        -- intros loc' [= <-] G'. congruence.
  - exists "". split; [exact Hinit|]. split; [reflexivity|].
    split; [reflexivity|]. split; [reflexivity|].
    intros loc' Hl. discriminate Hl.
Qed.

(* ================================================================== *)
(** * Unit Details from the text, and from a loaded table *)
(* ================================================================== *)

Lemma text_lines_kept (lines : list string) (acc : string) :
  text_lines lines acc
  = acc ++ lines_text (filter (fun l => truthy l && negb (mentions_terms l))
                         (map strip lines)).
Proof.
  revert acc. induction lines as [|line lines IH]; intros acc;
    cbn [text_lines map filter].
  - cbn [lines_text]. now rewrite append_nil_r.
  - unfold mentions_terms at 1.
    destruct (truthy (strip line) &&
              negb (is_some (search terms_pattern (strip line) IGNORECASE)));
      rewrite IH; [|reflexivity].
    cbn [lines_text]. now rewrite !append_assoc.
Qed.

Lemma splitlines_aux_no_break (n : nat) :
  forall s cur, String.length s <= n -> no_linebreak cur = true ->
  Forall (fun l => no_linebreak l = true) (splitlines_aux cur s).
Proof.
  induction n as [|n IH]; intros s cur Hn Hcur.
  - destruct s; [|simpl in Hn; lia]. simpl. destruct cur; repeat constructor.
    exact Hcur.
  - destruct s as [|c r]; [simpl; destruct cur; repeat constructor; exact Hcur|].
    cbn [splitlines_aux]. simpl in Hn.
    destruct (is_linebreak c) eqn:B.
    + destruct r as [|d r']; [repeat constructor; exact Hcur|].
      simpl in Hn.
      destruct ((code c =? 13) && (code d =? 10)); constructor; try exact Hcur;
        apply IH; try reflexivity; simpl; lia.
    + apply IH; [lia|]. unfold no_linebreak in *.
      rewrite forall_chars_app, Hcur. simpl. now rewrite B.
Qed.

Lemma kept_lines_spec (span : string) :
  Forall (fun l => clean l /\ no_linebreak l = true /\ mentions_terms l = false)
    (kept_lines span).
Proof.
  unfold kept_lines, splitlines.
  pose proof (@splitlines_aux_no_break (String.length span) span ""
                (le_n _) eq_refl) as H.
  induction H as [|l ls Hl _ IH]; cbn [map filter]; [constructor|].
  destruct (truthy (strip l)) eqn:T; cbn [andb]; [|exact IH].
  destruct (mentions_terms (strip l)) eqn:M; cbn [negb]; [exact IH|].
  constructor; [|exact IH]. split; [|split].
  - apply clean_of_strip; [apply strip_idem|].
    intros E. rewrite E in T. discriminate T.
  - apply forall_chars_strip. exact Hl.
  - exact M.
Qed.

(** X10.  When no table is read, Unit Details is made of the lines of the
    text between the UNIT DETAILS label and the next heading: each line
    trimmed, the empty lines and the lines that mention the terms or the
    routine service left out, the others joined by line feeds. *)
Theorem unit_details_text_lines (text contract_no : string)
    (table_data : list table) :
  Forall (fun t => has_unit_header t = false) table_data ->
  field "Unit Details" (extract_details text contract_no table_data)
    (join nl (kept_lines (unit_span text))) /\
  Forall (fun l => clean l /\ no_linebreak l = true /\ mentions_terms l = false)
    (kept_lines (unit_span text)).
Proof.
  intros Hnone. split; [|apply kept_lines_spec].
  unfold field. rewrite get_unit_details. unfold unit_details.
  rewrite scan_tables_none by exact Hnone.
  unfold unit_details_from_text, unit_span.
  assert (Hk : forall span,
             strip (text_lines (splitlines span) "") = join nl (kept_lines span)).
  { intros span. rewrite text_lines_kept. cbn [append].
    apply strip_lines_text.
    eapply Forall_impl; [|apply kept_lines_spec]. intros l Hl. exact (proj1 Hl). }
  destruct (search unit_pattern text IGNORECASE_DOTALL) as [m|].
  - rewrite Hk. reflexivity.
  - reflexivity.
Qed.

Lemma unit_details_text_lines_witness :
  let text := "UNIT DETAILS:" ++ nl ++ "  LG 1.5 ton  " ++ nl ++ nl ++
              "Voltas 2 ton" ++ nl ++ "AMOUNT: Rs. 5000" in
  let header_only : table := [["Brand"; "Qty"]] in
  Forall (fun t => has_unit_header t = false) [header_only] /\
  field "Unit Details" (extract_details text "" [header_only])
    ("LG 1.5 ton" ++ nl ++ "Voltas 2 ton").
Proof.
  intros text header_only.
  assert (H : Forall (fun t => has_unit_header t = false) [header_only])
    by (constructor; [reflexivity | constructor]).
  split; [exact H|].
  exact (proj1 (@unit_details_text_lines text "" [header_only] H)).
Defined.

Lemma trimmed_after_strip (rows : list (list string)) :
  trimmed_rows (map (map strip) rows).
Proof.
  unfold trimmed_rows. apply Forall_map.
  apply Forall_forall. intros row _. apply Forall_map.
  apply Forall_forall. intros cell _. apply strip_idem.
Qed.

(** X11.  For an uploaded document the loader trims every cell, so the
    first table of the document that is read gives Unit Details without any
    assumption on its cells: the rows after the header that are kept, one
    line each, each line the trimmed cells that are not blank joined by
    " | "; the tables after it and the text are not consulted. *)
Theorem loaded_table_unit_details (file : uploaded_file) (doc : docx)
    (pre : list table) (t : table) (post : list table) :
  content file = Some doc ->
  tables doc = (pre ++ t :: post)%list ->
  Forall (fun t' => has_unit_header (map (map strip) t') = false) pre ->
  has_unit_header (map (map strip) t) = true ->
  field "Unit Details" (record_of file)
    (join nl (map row_text (filter keeps_row (map (map strip) (tl t))))).
Proof.
  intros Hdoc Htables Hpre Ht.
  unfold field, record_of. rewrite get_unit_details.
  unfold extract_text_from_docx. rewrite Hdoc. cbn [snd].
  rewrite Htables, map_app. cbn [map].
  unfold unit_details.
  match goal with
  | |- context [scan_tables ?x] =>
      replace (scan_tables x)
        with (Some (table_rows (tl (map (map strip) t)) ""))
        by (symmetry; apply scan_tables_first;
            [apply Forall_map; exact Hpre | exact Ht])
  end.
  rewrite table_rows_lines. cbn [append].
  replace (tl (map (map strip) t)) with (map (map strip) (tl t))
    by (destruct t; reflexivity).
  rewrite strip_lines_text; [reflexivity|].
  apply kept_rows_clean, trimmed_after_strip.
Qed.

Lemma loaded_table_unit_details_witness :
  let t := [[" Brand "; "Qty"]; ["  LG "; " "; "2"]; ["Total"; "2"]; ["Voltas"; "1 "]] in
  let doc := {| paragraphs := ["UNIT DETAILS: see the text"]; tables := [[["Note"]]; t] |} in
  let file := {| name := "CC77_Site.docx"; content := Some doc |} in
  content file = Some doc /\
  tables doc = ([[["Note"]]] ++ t :: [])%list /\
  Forall (fun t' => has_unit_header (map (map strip) t') = false) [[["Note"]]] /\
  has_unit_header (map (map strip) t) = true /\
  field "Unit Details" (record_of file) ("LG | 2" ++ nl ++ "Voltas | 1").
Proof.
  intros t doc file.
  assert (H : Forall (fun t' => has_unit_header (map (map strip) t') = false)
                [[["Note"]]])
    by (constructor; [reflexivity | constructor]).
  split; [reflexivity|]. split; [reflexivity|]. split; [exact H|].
  split; [reflexivity|].
  exact (@loaded_table_unit_details file doc [[["Note"]]] t [] eq_refl eq_refl H eq_refl).
Defined.

(* ================================================================== *)
(** * Where the text after the UNIT DETAILS label ends *)
(* ================================================================== *)

Lemma lit_anycase_intro (fl : flags) (l : string) :
  ignorecase fl = true ->
  forall p w rest c,
    lower w = lower l -> matches fl (lit l) p w rest c c.
Proof.
  intros Hfl. induction l as [|a l IH]; intros p w rest c H.
  - destruct w; [constructor | discriminate].
  - destruct w as [|x w]; [discriminate|].
    unfold lower in H. simpl in H. injection H as Hx Hw.
    assert (Hc : cset_match fl (CChar a) x = true)
      by (cbn [cset_match]; rewrite Hfl, Hx; apply Ascii.eqb_refl).
    destruct l as [|b l].
    + destruct w; [|discriminate]. simpl. now constructor.
    + change (lit (String a (String b l)))
        with (Seq (Chr (CChar a)) (lit (String b l))).
      change (String x w) with (String x "" ++ w).
      eapply M_Seq; [now constructor | now apply IH].
Qed.

(** An occurrence up to case, cut out of the text. *)
Lemma contains_lower_split (n s : string) :
  contains n (lower s) = true ->
  exists s1 s2, s = s1 ++ s2 /\ prefix n (lower s2) = true.
Proof.
  induction s as [|a s IH]; intros H.
  - exists "", "". split; [reflexivity|].
    cbn [lower map_chars contains] in H. now rewrite orb_false_r in H.
  - change (contains n (lower (String a s)))
      with (prefix n (lower (String a s)) || contains n (lower s)) in H.
    destruct (prefix n (lower (String a s))) eqn:P.
    + exists "", (String a s). auto.
    + destruct (IH H) as (s1 & s2 & -> & P'). exists (String a s1), s2. auto.
Qed.

(** The alternatives of the lookahead that closes the pattern. *)
Lemma stop_matches (fl : flags) (h : string) :
  ignorecase fl = true -> In h unit_stops ->
  forall p u rest c,
    lower u = lower h ->
    matches fl (alt [lit "AMOUNT"; lit "AMC PERIOD"; lit "CONTRACT NO";
                     lit "DATE"; lit "SERVICE"; lit "TERMS & CONDITIONS"; Eos])
      p u rest c c.
Proof.
  intros Hfl Hin p u rest c Hu. cbn [alt].
  unfold unit_stops in Hin. cbn [In] in Hin.
  repeat (destruct Hin as [<-|Hin];
          [repeat first [ solve [apply M_AltL; apply lit_anycase_intro; assumption]
                        | apply M_AltR ] |]).
  destruct Hin.
Qed.

(** The text read after the label is the shortest one, of one character at
    least, that a heading or the end follows. *)
Lemma unit_span_minimal (text : string) (m : match_obj) :
  search unit_pattern text IGNORECASE_DOTALL = Some m ->
  exists a w rest,
    group 1 m = String a w /\
    forall w1 w2, w = w1 ++ w2 -> w2 <> "" ->
      exists c,
        rmatch IGNORECASE_DOTALL
          (alt [lit "AMOUNT"; lit "AMC PERIOD"; lit "CONTRACT NO";
                lit "DATE"; lit "SERVICE"; lit "TERMS & CONDITIONS"; Eos])
          (last_of (Some a) w1) (w2 ++ rest) c (fun _ _ c' => Some c') = None.
Proof.
  unfold search. intros H. apply search_from_some in H.
  destruct H as (pre & tl & _ & H & _).
  unfold match_here in H. cbv [unit_pattern seq] in H.
  apply rmatch_seq_peel in H; [|apply no_groups_lit]. destruct H as (p1 & s1 & H).
  do 2 (apply rmatch_seq_peel in H; [|reflexivity]; destruct H as (? & ? & H)).
  assert (Hng : no_groups
            (alt [lit "AMOUNT"; lit "AMC PERIOD"; lit "CONTRACT NO";
                  lit "DATE"; lit "SERVICE"; lit "TERMS & CONDITIONS"; Eos]) = true)
    by reflexivity.
  remember (alt [lit "AMOUNT"; lit "AMC PERIOD"; lit "CONTRACT NO";
                 lit "DATE"; lit "SERVICE"; lit "TERMS & CONDITIONS"; Eos])
    as stops eqn:Es.
  cbn [rmatch PlusLazy] in H.
  match type of H with
  | match ?s with _ => _ end = _ => destruct s as [|a r]; [discriminate|]
  end.
  destruct (cset_match IGNORECASE_DOTALL CDot a); [|discriminate].
  apply star_lazy_minimal in H.
  destruct H as (w & rest & -> & _ & Hk & Hmin).
  exists a, w, rest. split.
  - cbn beta in Hk.
    match type of Hk with
    | match ?e with _ => _ end = _ => destruct e as [c'|] eqn:R; [|discriminate]
    end.
    injection Hk as <-.
    apply rmatch_sound in R. destruct R as (w' & rest' & c'' & _ & M & Hc).
    injection Hc as <-.
    apply matches_no_groups in M; [|exact Hng]. subst c''.
    unfold group. cbn [m_groups]. rewrite get_set_group.
    change (String a (w ++ rest)) with (String a w ++ rest).
    apply take_app.
  - intros w1 w2 E Hne. specialize (Hmin w1 w2 E Hne). cbn beta in Hmin.
    match type of Hmin with
    | match rmatch _ _ _ _ ?c _ with _ => _ end = _ => exists c
    end.
    match type of Hmin with
    | match ?e with _ => _ end = _ => destruct e; [discriminate | reflexivity]
    end.
Qed.

Lemma unit_span_stops (text h : string) :
  In h unit_stops ->
  contains_nocase h (drop 1 (unit_span text)) = false.
Proof.
  intros Hin. unfold unit_span, contains_nocase.
  destruct (search unit_pattern text IGNORECASE_DOTALL) as [m|] eqn:E.
  2:{ unfold unit_stops in Hin. cbn [In] in Hin.
      repeat (destruct Hin as [<-|Hin]; [reflexivity|]). destruct Hin. }
  apply unit_span_minimal in E. destruct E as (a & w & rest & -> & Hmin).
  cbn [drop].
  destruct (contains (lower h) (lower w)) eqn:C; [|reflexivity].
  apply contains_lower_split in C. destruct C as (w1 & w2 & -> & P).
  assert (Hne : w2 <> "").
  { intros ->. unfold unit_stops in Hin. cbn [In] in Hin.
    repeat (destruct Hin as [<-|Hin]; [discriminate P|]). destruct Hin. }
  apply prefix_lower_split in P. destruct P as (u & v & -> & Hu).
  destruct (Hmin w1 (u ++ v) eq_refl Hne) as [c Hc].
  pose proof (@stop_matches IGNORECASE_DOTALL h eq_refl Hin
                (last_of (Some a) w1) u (v ++ rest) c Hu) as M.
  destruct (@rmatch_complete _ _ _ _ _ _ _ M captures (fun _ _ c' => Some c')
              (fun c1 => ex_intro _ c1 eq_refl) c) as [y Hy].
  rewrite <- append_assoc in Hy.
  rewrite Hc in Hy. discriminate Hy.
Qed.

(** ** From the text read to the lines kept *)

Lemma prefix_before_char (c0 : ascii) (b : string) (n : string) :
  forall a,
    forall_chars (fun c => negb (Ascii.eqb c c0)) n = true ->
    prefix n (a ++ String c0 b) = true -> prefix n a = true.
Proof.
  induction n as [|x n IH]; intros a Hn H.
  - destruct a; reflexivity.
  - cbn [forall_chars] in Hn. apply andb_prop in Hn. destruct Hn as [Hx Hn].
    destruct a as [|d a]; cbn [append prefix] in *.
    + destruct (ascii_dec x c0) as [->|]; [|discriminate].
      rewrite Ascii.eqb_refl in Hx. discriminate Hx.
    + destruct (ascii_dec x d); [|discriminate]. now apply IH.
Qed.

Lemma contains_across_char (c0 : ascii) (n b : string) :
  forall a,
    forall_chars (fun c => negb (Ascii.eqb c c0)) n = true -> n <> "" ->
    contains n (a ++ String c0 b) = true ->
    contains n a = true \/ contains n b = true.
Proof.
  intros a Hn Hne. induction a as [|d a IH]; intros H.
  - cbn [append] in H.
    change (contains n (String c0 b))
      with (prefix n (String c0 b) || contains n b) in H.
    apply orb_prop in H. destruct H as [H|H]; [|now right].
    apply (@prefix_before_char c0 b n "" Hn) in H.
    destruct n; [congruence | discriminate H].
  - cbn [append] in H.
    change (contains n (String d (a ++ String c0 b)))
      with (prefix n (String d a ++ String c0 b)
            || contains n (a ++ String c0 b)) in H.
    change (contains n (String d a))
      with (prefix n (String d a) || contains n a).
    apply orb_prop in H. destruct H as [H|H].
    + apply (@prefix_before_char c0 b n (String d a) Hn) in H.
      left. now rewrite H.
    + destruct (IH H) as [G|G]; [left | now right].
      rewrite G. apply orb_true_r.
Qed.

Lemma contains_drop1 (n s : string) :
  contains n (drop 1 s) = true -> contains n s = true.
Proof.
  destruct s as [|c r]; [trivial|]. cbn [drop]. intros H.
  change (contains n (String c r)) with (prefix n (String c r) || contains n r).
  rewrite H. apply orb_true_r.
Qed.

Lemma lower_drop1 (s : string) : lower (drop 1 s) = drop 1 (lower s).
Proof. destruct s; reflexivity. Qed.

Lemma inner_occurs (n z s : string) :
  inner z s -> contains n (lower z) = true ->
  contains n (lower (drop 1 s)) = true.
Proof.
  intros (pre & post & Hpre & ->) H.
  destruct pre as [|c pre]; [congruence|]. cbn [append drop].
  rewrite !lower_app. apply contains_app_r, contains_app_l. exact H.
Qed.

Lemma inner_strip (z s : string) : inner z s -> inner (strip z) s.
Proof.
  intros (pre & post & Hpre & ->).
  destruct (lstrip_suffix z) as [a Ea].
  destruct (rstrip_prefix (lstrip z)) as [b Eb]. fold (strip z) in Eb.
  exists (pre ++ a), (b ++ post). split.
  - intros E. apply append_eq_nil in E. tauto.
  - rewrite Ea at 1. rewrite Eb at 1. now rewrite !append_assoc.
Qed.

Lemma inner_longer (c : ascii) (z s : string) :
  inner z s -> inner z (String c s).
Proof.
  intros (pre & post & Hpre & ->). exists (String c pre), post.
  split; [discriminate | reflexivity].
Qed.

(** What follows the first character of a trimmed first line. *)
Lemma inner_strip_head (x r : string) (c : ascii) (z : string) :
  strip x = String c z -> inner z (x ++ r).
Proof.
  intros E.
  destruct (lstrip_suffix x) as [a Ea].
  destruct (rstrip_prefix (lstrip x)) as [b Eb]. fold (strip x) in Eb.
  rewrite E in Eb.
  exists (a ++ String c ""), (b ++ r). split.
  - intros H. apply append_eq_nil in H. destruct H as [_ H]. discriminate H.
  - rewrite Ea at 1. rewrite Eb at 1.
    rewrite !append_assoc. reflexivity.
Qed.

(** The lines of [splitlines]: the first one starts the text, each other
    one lies further inside. *)
Lemma splitlines_aux_parts (n : nat) :
  forall s cur, String.length s <= n ->
  match splitlines_aux cur s with
  | [] => True
  | h :: t => (exists x1 r1, h = cur ++ x1 /\ s = x1 ++ r1) /\
              Forall (fun y => inner y s) t
  end.
Proof.
  induction n as [|n IH]; intros s cur Hn.
  - destruct s; [|simpl in Hn; lia]. simpl. destruct cur; [exact I|].
    split; [|constructor]. exists "", "". now rewrite append_nil_r.
  - destruct s as [|c r].
    { simpl. destruct cur; [exact I|].
      split; [|constructor]. exists "", "". now rewrite append_nil_r. }
    cbn [splitlines_aux]. simpl in Hn.
    assert (Hrec : forall r', String.length r' <= n ->
              forall pre, pre <> "" -> String c r = pre ++ r' ->
              (exists x1 r1, cur = cur ++ x1 /\ String c r = x1 ++ r1) /\
              Forall (fun y => inner y (String c r)) (splitlines_aux "" r')).
    { intros r' Hr' pre Hpre E. split.
      - exists "", (String c r). now rewrite append_nil_r.
      - specialize (IH r' "" Hr').
        destruct (splitlines_aux "" r') as [|h t]; [constructor|].
        destruct IH as [(x1 & r1 & -> & Er') Ht]. cbn [append].
        constructor.
        + exists pre, r1. split; [exact Hpre|]. now rewrite E, Er'.
        + eapply Forall_impl; [|exact Ht].
          intros y (p & q & Hp & Ey). exists (pre ++ p), q. split.
          * intros H. apply append_eq_nil in H. tauto.
          * now rewrite E, Ey, !append_assoc. }
    destruct (is_linebreak c) eqn:B.
    + destruct r as [|d r'].
      * split; [|constructor]. exists "", (String c "").
        now rewrite append_nil_r.
      * simpl in Hn.
        destruct ((code c =? 13) && (code d =? 10)).
        -- apply (Hrec r' ltac:(lia) (String c (String d ""))); 
             [discriminate | reflexivity].
        -- apply (Hrec (String d r') ltac:(simpl; lia) (String c ""));
             [discriminate | reflexivity].
    + specialize (IH r (cur ++ String c "") ltac:(lia)).
      destruct (splitlines_aux (cur ++ String c "") r) as [|h t]; [exact I|].
      destruct IH as [(x1 & r1 & -> & Er) Ht]. split.
      * exists (String c x1), r1. rewrite append_assoc. cbn [append].
        now rewrite Er.
      * eapply Forall_impl; [|exact Ht]. intros y Hy. now apply inner_longer.
Qed.

Lemma join_inner (n span : string) (K : list string) :
  forall_chars (fun c => negb (Ascii.eqb c (ascii_of_nat 10))) n = true ->
  n <> "" ->
  Forall (fun k => inner k span) K ->
  contains n (lower (join nl K)) = true ->
  contains n (lower (drop 1 span)) = true.
Proof.
  intros Hn Hne HK. induction HK as [|k K Hk HK IH]; intros H.
  - cbn in H. destruct n; [congruence | discriminate H].
  - destruct K as [|k' K].
    + cbn [join] in H. exact (@inner_occurs n k span Hk H).
    + change (join nl (k :: k' :: K)) with (k ++ nl ++ join nl (k' :: K)) in H.
      rewrite lower_app in H.
      change (lower (nl ++ join nl (k' :: K)))
        with (String (ascii_of_nat 10) (lower (join nl (k' :: K)))) in H.
      apply contains_across_char in H; [|exact Hn|exact Hne].
      destruct H as [H|H]; [exact (@inner_occurs n k span Hk H) | exact (IH H)].
Qed.

Lemma kept_lines_inner (n span : string) :
  forall_chars (fun c => negb (Ascii.eqb c (ascii_of_nat 10))) n = true ->
  n <> "" ->
  contains n (lower (drop 1 (join nl (kept_lines span)))) = true ->
  contains n (lower (drop 1 span)) = true.
Proof.
  intros Hn Hne H. unfold kept_lines, splitlines in H.
  pose proof (@splitlines_aux_parts (String.length span) span "" (le_n _)) as P.
  destruct (splitlines_aux "" span) as [|h t].
  { cbn in H. destruct n; [congruence | discriminate H]. }
  destruct P as [(x1 & r1 & -> & Espan) Ht]. cbn [append] in *.
  set (keep := fun l => truthy l && negb (mentions_terms l)) in *.
  assert (HK : Forall (fun k => inner k span) (filter keep (map strip t))).
  { clear H. induction Ht as [|y t Hy Ht IH]; [constructor|].
    cbn [map filter]. destruct (keep (strip y)); [|exact IH].
    constructor; [now apply inner_strip | exact IH]. }
  cbn [map filter] in H.
  destruct (keep (strip x1)) eqn:Kx.
  - destruct (strip x1) as [|c z] eqn:Es; [discriminate Kx|].
    assert (Hz : inner z span) by (rewrite Espan; exact (@inner_strip_head x1 r1 c z Es)).
    apply (@join_inner n span (z :: filter keep (map strip t)) Hn Hne);
      [constructor; assumption|].
    destruct (filter keep (map strip t)); exact H.
  - rewrite lower_drop1 in H. apply contains_drop1 in H.
    rewrite lower_drop1. 
    rewrite <- lower_drop1. exact (@join_inner n span _ Hn Hne HK H).
Qed.

(** X12.  When no table is read, Unit Details ends where the first heading
    begins: after its first character it holds none of the words AMOUNT,
    AMC PERIOD, CONTRACT NO, DATE, SERVICE and TERMS & CONDITIONS, in any
    letter case, and neither does the text read after the UNIT DETAILS
    label. *)
Theorem unit_details_stops_at_heading (text contract_no : string)
    (table_data : list table) (h : string) :
  Forall (fun t => has_unit_header t = false) table_data ->
  In h unit_stops ->
  contains_nocase h (drop 1 (unit_span text)) = false /\
  exists v,
    field "Unit Details" (extract_details text contract_no table_data) v /\
    contains_nocase h (drop 1 v) = false.
Proof.
  intros Hnone Hin. pose proof (@unit_span_stops text h Hin) as Hspan.
  split; [exact Hspan|].
  exists (join nl (kept_lines (unit_span text))). split.
  - unfold field. rewrite get_unit_details. unfold unit_details.
    rewrite scan_tables_none by exact Hnone.
    unfold unit_details_from_text, unit_span.
    destruct (search unit_pattern text IGNORECASE_DOTALL) as [m|];
      [|reflexivity].
    rewrite text_lines_kept. cbn [append].
    rewrite strip_lines_text; [reflexivity|].
    eapply Forall_impl; [|apply kept_lines_spec]. intros l Hl. exact (proj1 Hl).
  - unfold contains_nocase in *.
    destruct (contains (lower h)
                (lower (drop 1 (join nl (kept_lines (unit_span text)))))) eqn:C;
      [|reflexivity].
    apply kept_lines_inner in C; [congruence | |];
      unfold unit_stops in Hin; cbn [In] in Hin;
      repeat (destruct Hin as [<-|Hin]; [first [reflexivity | discriminate]|]);
      destruct Hin.
Qed.

Lemma unit_details_stops_at_heading_witness :
  let text := "UNIT DETAILS: split AC, last serviced in May" in
  Forall (fun t => has_unit_header t = false) [] /\
  In "SERVICE" unit_stops /\
  field "Unit Details" (extract_details text "" []) "split AC, last" /\
  contains_nocase "SERVICE" (drop 1 (unit_span text)) = false.
Proof.
  intros text.
  assert (Hin : In "SERVICE" unit_stops) by (cbv; tauto).
  split; [constructor|]. split; [exact Hin|]. split; [reflexivity|].
  exact (proj1 (@unit_details_stops_at_heading text "" [] "SERVICE"
                  (Forall_nil _) Hin)).
Defined.

(* ================================================================== *)
(** * The service months at the end of the calendar *)
(* ================================================================== *)

(** Once a month is past the last year, every later month is. *)
Lemma add_months_none_later (d : date) (k k' : Z) :
  (k <= k')%Z -> add_months d k = None -> add_months d k' = None.
Proof.
  unfold add_months. intros Hk.
  destruct (year d + (month d - 1 + k) / 12 <=? 9999)%Z eqn:E; [discriminate|].
  intros _. apply Z.leb_gt in E.
  assert (Hd : ((month d - 1 + k) / 12 <= (month d - 1 + k') / 12)%Z)
    by (apply Z.div_le_mono; lia).
  destruct (year d + (month d - 1 + k') / 12 <=? 9999)%Z eqn:E'; [|reflexivity].
  apply Z.leb_le in E'. lia.
Qed.

Lemma service_text_none_later (start : date) (k k' : Z) :
  (k <= k')%Z -> service_text start k = "" -> service_text start k' = "".
Proof.
  unfold service_text. intros Hk H.
  destruct (add_months start k) as [d|] eqn:E.
  - now apply strftime_BY_nonempty in H.
  - now rewrite (@add_months_none_later start k k' Hk E).
Qed.

(** The loop over the four services, whatever the start date. *)
Lemma service_loop_texts (start : date) (d : dict) :
  dict_get "1st Service Month" d = Some (VStr "") ->
  dict_get "2nd Service Month" d = Some (VStr "") ->
  dict_get "3rd Service Month" d = Some (VStr "") ->
  dict_get "4th Service Month" d = Some (VStr "") ->
  let r := service_loop start [0; 1; 2; 3] d in
  dict_get "1st Service Month" r = Some (VStr (service_text start 2)) /\
  dict_get "2nd Service Month" r = Some (VStr (service_text start 5)) /\
  dict_get "3rd Service Month" r = Some (VStr (service_text start 8)) /\
  dict_get "4th Service Month" r = Some (VStr (service_text start 11)).
Proof.
  intros H1 H2 H3 H4 r. subst r.
  assert (L : forall k k', (k <= k')%Z -> add_months start k = None ->
                           service_text start k' = "").
  { intros k k' Hk E. unfold service_text.
    now rewrite (@add_months_none_later start k k' Hk E). }
  cbn [service_loop].
  change (Z.of_nat (2 + 0 * 3)) with 2%Z. change (Z.of_nat (2 + 1 * 3)) with 5%Z.
  change (Z.of_nat (2 + 2 * 3)) with 8%Z. change (Z.of_nat (2 + 3 * 3)) with 11%Z.
  change (service_label 0) with "1st Service Month".
  change (service_label 1) with "2nd Service Month".
  change (service_label 2) with "3rd Service Month".
  change (service_label 3) with "4th Service Month".
  destruct (add_months start 2) as [s1|] eqn:E1.
  2:{ rewrite (L 2 2)%Z, (L 2 5)%Z, (L 2 8)%Z, (L 2 11)%Z by (lia || exact E1).
      auto. }
  destruct (add_months start 5) as [s2|] eqn:E2.
  2:{ rewrite (L 5 5)%Z, (L 5 8)%Z, (L 5 11)%Z by (lia || exact E2).
      unfold service_text. rewrite E1.
      repeat split; other_key; try apply dict_get_set_eq; assumption. }
  destruct (add_months start 8) as [s3|] eqn:E3.
  2:{ rewrite (L 8 8)%Z, (L 8 11)%Z by (lia || exact E3).
      unfold service_text. rewrite E1, E2.
      repeat split; other_key; try apply dict_get_set_eq; assumption. }
  destruct (add_months start 11) as [s4|] eqn:E4.
  2:{ rewrite (L 11 11)%Z by (lia || exact E4).
      unfold service_text. rewrite E1, E2, E3.
      repeat split; other_key; try apply dict_get_set_eq; assumption. }
  unfold service_text. rewrite E1, E2, E3, E4.
  repeat split; other_key; apply dict_get_set_eq.
Qed.

(** The loop writes under the labels of its turns only. *)
Lemma service_loop_keeps (start : date) (k : string) (turns : list nat) :
  forall d,
    (forall i, In i turns -> service_label i <> k) ->
    dict_get k (service_loop start turns d) = dict_get k d.
Proof.
  induction turns as [|i turns IH]; intros d Hk; cbn [service_loop];
    [reflexivity|].
  destruct (add_months start (Z.of_nat (2 + i * 3))); [|reflexivity].
  rewrite IH by (intros j Hj; apply Hk; now right).
  apply dict_get_set_ne. intros E. exact (Hk i (or_introl eq_refl) (eq_sym E)).
Qed.

(** X13.  When both dates of the leftmost AMC PERIOD clause parse, the
    start and the end date are written whatever the start date is, with
    dashes for dots and the year without its leading zeros, and each
    Service Month holds the month 2, 5, 8 or 11 months after the start, or
    stays empty when that month is past year 9999; once one is empty, the
    later ones are. *)
Theorem service_months_up_to_last_year (text contract_no : string)
    (table_data : list table) (s g1 g2 : string) (start end_ : date) :
  leftmost_amc_clause text s g1 g2 ->
  strptime_dmy g1 = Some start ->
  strptime_dmy g2 = Some end_ ->
  let r := extract_details text contract_no table_data in
  field "Amc Start Date" r (date_text g1) /\
  field "Amc End Date" r (date_text g2) /\
  field "1st Service Month" r (service_text start 2) /\
  field "2nd Service Month" r (service_text start 5) /\
  field "3rd Service Month" r (service_text start 8) /\
  field "4th Service Month" r (service_text start 11) /\
  forall k k', (k <= k')%Z ->
    service_text start k = "" -> service_text start k' = "".
Proof.
  intros Hl H1 H2 r.
  destruct (@amc_search_leftmost text s g1 g2 Hl) as (amc & Hs & G1 & G2).
  destruct (@amc_groups_shape text amc Hs) as [S1 S2].
  rewrite G1 in S1. rewrite G2 in S2.
  rewrite <- (@strftime_strptime g1 start S1 H1).
  rewrite <- (@strftime_strptime g2 end_ S2 H2).
  pose proof (amc_fields_initially_empty text contract_no) as Hinit.
  rewrite Forall_forall in Hinit.
  pose proof (Hinit "1st Service Month" ltac:(simpl; auto 10)) as I1.
  pose proof (Hinit "2nd Service Month" ltac:(simpl; auto 10)) as I2.
  pose proof (Hinit "3rd Service Month" ltac:(simpl; auto 10)) as I3.
  pose proof (Hinit "4th Service Month" ltac:(simpl; auto 10)) as I4.
  set (d := dict_set "Amc End Date" (VStr (strftime_dmy end_))
              (dict_set "Amc Start Date" (VStr (strftime_dmy start))
                 (fields_before_amc text contract_no))).
  assert (E : amc_period text (fields_before_amc text contract_no)
              = service_loop start [0; 1; 2; 3] d).
  { unfold amc_period. rewrite Hs. unfold amc_block. rewrite G1, G2, H1, H2.
    reflexivity. }
  destruct (@service_loop_texts start d) as (T1 & T2 & T3 & T4);
    try (unfold d; other_key; assumption).
  unfold field, r. rewrite !get_amc_field by (simpl; auto 10). rewrite E.
  split; [|split; [|split; [|split; [|split; [|split]]]]];
    try assumption.
  - rewrite service_loop_keeps.
    + unfold d. other_key. apply dict_get_set_eq.
    + intros i Hi. cbn [In] in Hi.
      repeat (destruct Hi as [<-|Hi]; [discriminate|]). destruct Hi.
  - rewrite service_loop_keeps.
    + unfold d. apply dict_get_set_eq.
    + intros i Hi. cbn [In] in Hi.
      repeat (destruct Hi as [<-|Hi]; [discriminate|]). destruct Hi.
  - intros k k'. apply service_text_none_later.
Qed.

Lemma service_months_up_to_last_year_witness :
  let text := "AMC PERIOD: 01.06.9999 to 31.12.9999" in
  let start := {| year := 9999; month := 6; day := 1 |} in
  let end_ := {| year := 9999; month := 12; day := 31 |} in
  let r := extract_details text "" [] in
  leftmost_amc_clause text text "01.06.9999" "31.12.9999" /\
  strptime_dmy "01.06.9999" = Some start /\
  strptime_dmy "31.12.9999" = Some end_ /\
  field "Amc Start Date" r "01-06-9999" /\
  field "Amc End Date" r "31-12-9999" /\
  field "1st Service Month" r "August 9999" /\
  field "2nd Service Month" r "November 9999" /\
  field "3rd Service Month" r "" /\
  field "4th Service Month" r "".
Proof.
  intros text start end_ r.
  assert (Hc : amc_clause text "01.06.9999" "31.12.9999").
  { exists "AMC PERIOD", "", ":", " ", " ", "to", " ", "".
    repeat split; simpl; auto. }
  assert (Hl : leftmost_amc_clause text text "01.06.9999" "31.12.9999").
  { exists "". split; [reflexivity|]. split; [exact Hc|].
    intros p1 p2 g g' E Hne. destruct p1; [|discriminate E].
    simpl in E. congruence. }
  split; [exact Hl|]. split; [reflexivity|]. split; [reflexivity|].
  destruct (@service_months_up_to_last_year text "" [] text
              "01.06.9999" "31.12.9999" start end_ Hl eq_refl eq_refl)
    as (F1 & F2 & F3 & F4 & F5 & F6 & _).
  split; [exact F1|]. split; [exact F2|]. split; [exact F3|].
  split; [exact F4|]. split; [exact F5 | exact F6].
Defined.

(* ================================================================== *)
(** * The name of the file offered for download *)
(* ================================================================== *)

Lemma pad2_inj (x y : Z) :
  (0 <= x <= 99)%Z -> (0 <= y <= 99)%Z -> pad2 x = pad2 y -> x = y.
Proof.
  unfold pad2. intros Hx Hy H. injection H as H1 H2.
  apply digit_char_inj in H1. apply digit_char_inj in H2.
  Z.div_mod_to_equations. lia.
Qed.

Lemma pad4_inj (x y : Z) :
  (0 <= x <= 9999)%Z -> (0 <= y <= 9999)%Z -> pad4 x = pad4 y -> x = y.
Proof.
  unfold pad4. intros Hx Hy H. injection H as H1 H2 H3 H4.
  apply digit_char_inj in H1. apply digit_char_inj in H2.
  apply digit_char_inj in H3. apply digit_char_inj in H4.
  Z.div_mod_to_equations. lia.
Qed.

(** X14.  The file name has 29 characters, and two runs offer the same
    file name exactly when they fall on the same date and in the same
    minute. *)
Theorem output_file_name_by_minute (a b : datetime) :
  valid_stamp a -> valid_stamp b ->
  String.length (output_file_name a) = 29 /\
  (output_file_name a = output_file_name b <-> a = b).
Proof.
  intros Ha Hb.
  destruct a as [[ya ma da] ha mia], b as [[yb mb db] hb mib].
  unfold valid_stamp in Ha, Hb.
  cbn [on_date year month day hour minute] in Ha, Hb.
  unfold output_file_name, strftime_stamp.
  cbn [on_date year month day hour minute].
  rewrite !year_text_pad4 by lia.
  split; [reflexivity|].
  split; [|intros E; injection E as -> -> -> -> ->; reflexivity].
  intros H.
  apply app_same_length in H; [|reflexivity]. destruct H as [_ H].
  apply app_same_length in H; [|reflexivity]. destruct H as [H _].
  apply app_same_length in H; [|reflexivity]. destruct H as [Hy H].
  apply app_same_length in H; [|reflexivity]. destruct H as [Hm H].
  apply app_same_length in H; [|reflexivity]. destruct H as [Hd H].
  apply app_same_length in H; [|reflexivity]. destruct H as [_ H].
  apply app_same_length in H; [|reflexivity]. destruct H as [Hh Hmi].
  apply pad4_inj in Hy; [|lia|lia].
  apply pad2_inj in Hm; [|lia|lia].
  apply pad2_inj in Hd; [|lia|lia].
  apply pad2_inj in Hh; [|lia|lia].
  apply pad2_inj in Hmi; [|lia|lia].
  congruence.
Qed.

Lemma output_file_name_by_minute_witness :
  let a := {| on_date := {| year := 2024; month := 3; day := 1 |};
              hour := 9; minute := 5 |} in
  let b := {| on_date := {| year := 2024; month := 3; day := 1 |};
              hour := 9; minute := 6 |} in
  valid_stamp a /\ valid_stamp b /\
  output_file_name a = "amc_output_20240301_0905.xlsx" /\
  output_file_name b = "amc_output_20240301_0906.xlsx" /\
  (output_file_name a = output_file_name b <-> a = b).
Proof.
  intros a b.
  assert (Ha : valid_stamp a) by (unfold valid_stamp; simpl; lia).
  assert (Hb : valid_stamp b) by (unfold valid_stamp; simpl; lia).
  split; [exact Ha|]. split; [exact Hb|].
  split; [reflexivity|]. split; [reflexivity|].
  exact (proj2 (@output_file_name_by_minute a b Ha Hb)).
Defined.

(* ================================================================== *)
(** * What each field is read from *)
(* ================================================================== *)

Lemma dict_get_set_agree (k k' : string) (v : value) (d1 d2 : dict) :
  dict_get k d1 = dict_get k d2 ->
  dict_get k (dict_set k' v d1) = dict_get k (dict_set k' v d2).
Proof.
  intros H. destruct (String.eqb_spec k k') as [->|Hne].
  - now rewrite !dict_get_set_eq.
  - now rewrite !dict_get_set_ne by exact Hne.
Qed.

Lemma contract_type_agree (text k : string) (d1 d2 : dict) :
  dict_get k d1 = dict_get k d2 ->
  dict_get k (contract_type text d1) = dict_get k (contract_type text d2).
Proof.
  intros H. unfold contract_type.
  destruct (is_some (search annual_pattern text IGNORECASE));
    [now apply dict_get_set_agree|].
  destruct (is_some (search labour_pattern text IGNORECASE));
    [now apply dict_get_set_agree | exact H].
Qed.

Lemma address_agree (text k : string) (d1 d2 : dict) :
  dict_get k d1 = dict_get k d2 ->
  dict_get k (address text d1) = dict_get k (address text d2).
Proof.
  intros H. unfold address.
  destruct (search address_pattern text IGNORECASE_DOTALL);
    [now apply dict_get_set_agree | exact H].
Qed.

Lemma location_agree (text k : string) (d1 d2 : dict) :
  dict_get k d1 = dict_get k d2 ->
  dict_get k (location text d1) = dict_get k (location text d2).
Proof.
  intros H. unfold location.
  destruct (search location_pattern text IGNORECASE) as [loc|]; [|exact H].
  destruct (negb (contains "CONTACT NUMBER" (upper (group 1 loc))));
    [now apply dict_get_set_agree | exact H].
Qed.

Lemma service_loop_agree (start : date) (k : string) (turns : list nat) :
  forall d1 d2,
    dict_get k d1 = dict_get k d2 ->
    dict_get k (service_loop start turns d1)
    = dict_get k (service_loop start turns d2).
Proof.
  induction turns as [|i turns IH]; intros d1 d2 H; cbn [service_loop];
    [exact H|].
  destruct (add_months start (Z.of_nat (2 + i * 3))); [|exact H].
  apply IH. now apply dict_get_set_agree.
Qed.

Lemma amc_period_agree (text k : string) (d1 d2 : dict) :
  dict_get k d1 = dict_get k d2 ->
  dict_get k (amc_period text d1) = dict_get k (amc_period text d2).
Proof.
  intros H. unfold amc_period.
  destruct (search amc_pattern text IGNORECASE) as [amc|]; [|exact H].
  unfold amc_block.
  destruct (strptime_dmy (group 1 amc)); [|exact H].
  destruct (strptime_dmy (group 2 amc)); [|exact H].
  cbv zeta. apply service_loop_agree.
  now do 2 apply dict_get_set_agree.
Qed.

(** X15.  The file name reaches Contract No alone and the tables reach
    Unit Details alone: every other field is the same whatever the contract
    number and the tables are, Unit Details is the same whatever the
    contract number is, and Contract No is the same whatever the text and
    the tables are. *)
Theorem fields_by_source (text : string) (c1 c2 : string)
    (t1 t2 : list table) (k : string) :
  k <> "Contract No" -> k <> "Unit Details" ->
  dict_get k (extract_details text c1 t1)
  = dict_get k (extract_details text c2 t2) /\
  dict_get "Unit Details" (extract_details text c1 t1)
  = dict_get "Unit Details" (extract_details text c2 t1) /\
  forall text',
    dict_get "Contract No" (extract_details text c1 t1)
    = dict_get "Contract No" (extract_details text' c1 t2).
Proof.
  intros Hc Hu. split; [|split].
  - rewrite !extract_details_unfold.
    rewrite !dict_get_set_ne by exact Hu.
    apply amc_period_agree. unfold fields_before_amc.
    do 2 apply dict_get_set_agree.
    apply location_agree, address_agree.
    do 2 apply dict_get_set_agree.
    apply contract_type_agree.
    unfold initial_fields. cbn [dict_get].
    destruct (String.eqb k "Contract Type"); [reflexivity|].
    destruct (String.eqb_spec k "Contract No"); [contradiction | reflexivity].
  - now rewrite !get_unit_details.
  - intros text'. now rewrite !get_contract_no.
Qed.

Lemma fields_by_source_witness :
  let text := "AMOUNT: Rs. 500" in
  let t := [["Brand"; "Qty"]; ["LG"; "2"]] in
  "Amount" <> "Contract No" /\ "Amount" <> "Unit Details" /\
  dict_get "Amount" (extract_details text "12" [])
  = dict_get "Amount" (extract_details text "34" [t]).
Proof.
  intros text t.
  assert (H1 : "Amount" <> "Contract No") by discriminate.
  assert (H2 : "Amount" <> "Unit Details") by discriminate.
  split; [exact H1|]. split; [exact H2|].
  exact (proj1 (@fields_by_source text "12" "34" [] [t] "Amount" H1 H2)).
Defined.

(* ================================================================== *)
(** * Where the address ends *)
(* ================================================================== *)

Lemma label_matches (fl : flags) (h : string) :
  ignorecase fl = true -> In h address_stops ->
  forall p u rest c,
    lower u = lower h ->
    matches fl (alt [lit "Contact Number"; lit "Location"; lit "Unit Details"])
      p u rest c c.
Proof.
  intros Hfl Hin p u rest c Hu. cbn [alt].
  unfold address_stops in Hin. cbn [In] in Hin.
  repeat (destruct Hin as [<-|Hin];
          [repeat first [ solve [apply M_AltL; apply lit_anycase_intro; assumption]
                        | solve [apply lit_anycase_intro; assumption]
                        | apply M_AltR ] |]).
  destruct Hin.
Qed.

(** The address read is the shortest text that one of the labels follows:
    none of the labels starts inside it. *)
Lemma address_capture_minimal (text : string) (addr : match_obj) (h : string) :
  search address_pattern text IGNORECASE_DOTALL = Some addr ->
  In h address_stops ->
  contains_nocase h (group 1 addr) = false.
Proof.
  unfold search. intros H Hin. apply search_from_some in H.
  destruct H as (pre & tl & _ & H & _).
  unfold match_here in H. cbv [address_pattern seq] in H.
  apply rmatch_seq_peel in H; [|apply no_groups_lit]. destruct H as (p1 & s1 & H).
  do 3 (apply rmatch_seq_peel in H; [|reflexivity]; destruct H as (? & ? & H)).
  assert (Hng : no_groups
            (alt [lit "Contact Number"; lit "Location"; lit "Unit Details"]) = true)
    by reflexivity.
  pose proof (@label_matches IGNORECASE_DOTALL h eq_refl Hin) as Hlab.
  remember (alt [lit "Contact Number"; lit "Location"; lit "Unit Details"])
    as labels eqn:El.
  cbn [rmatch] in H.
  apply star_lazy_minimal in H.
  destruct H as (w & rest & -> & _ & Hk & Hmin).
  assert (G : group 1 addr = w).
  { cbn beta in Hk. apply rmatch_sound in Hk.
    destruct Hk as (w' & rest' & c'' & _ & M & Hc).
    injection Hc as <-.
    apply matches_no_groups in M; [|exact Hng]. subst c''.
    unfold group. cbn [m_groups]. rewrite get_set_group. apply take_app. }
  rewrite G. unfold contains_nocase.
  destruct (contains (lower h) (lower w)) eqn:C; [|reflexivity].
  apply contains_lower_split in C. destruct C as (w1 & w2 & -> & P).
  assert (Hne : w2 <> "").
  { intros ->. unfold address_stops in Hin. cbn [In] in Hin.
    repeat (destruct Hin as [<-|Hin]; [discriminate P|]). destruct Hin. }
  apply prefix_lower_split in P. destruct P as (u & v & -> & Hu).
  specialize (Hmin w1 (u ++ v) eq_refl Hne). cbn beta in Hmin.
  match type of Hmin with
  | rmatch _ _ ?p _ ?c ?k = None =>
      destruct (@rmatch_complete _ _ _ _ _ _ _ (Hlab p u (v ++ rest) c Hu)
                  _ k (fun c1 => ex_intro _ _ eq_refl) c) as [y Hy]
  end.
  rewrite <- append_assoc in Hy. rewrite Hmin in Hy. discriminate Hy.
Qed.

(** A word without whitespace that stands in the text after its runs of
    whitespace have been replaced stands in the text. *)
Lemma prefix_sub_spaces (n : string) :
  forall_chars (fun c => negb (is_space c)) n = true ->
  forall s,
    prefix n (lower (sub_spaces false s)) = true -> prefix n (lower s) = true.
Proof.
  induction n as [|x n IH]; intros Hn s H.
  - destruct (lower s); reflexivity.
  - cbn [forall_chars] in Hn. apply andb_prop in Hn. destruct Hn as [Hx Hn].
    destruct s as [|c r]; [discriminate H|].
    cbn [sub_spaces] in H. destruct (is_space c) eqn:Sc.
    + change (lower (String " " (sub_spaces true r)))
        with (String " " (lower (sub_spaces true r))) in H.
      cbn [prefix] in H.
      destruct (ascii_dec x " ") as [->|]; [discriminate Hx | discriminate H].
    + unfold lower in *. cbn [map_chars prefix] in *.
      destruct (ascii_dec x (lower_char c)); [|discriminate H].
      now apply IH.
Qed.

Lemma contains_sub_spaces (n : string) :
  forall_chars (fun c => negb (is_space c)) n = true -> n <> "" ->
  forall s b,
    contains n (lower (sub_spaces b s)) = true -> contains n (lower s) = true.
Proof.
  intros Hn Hne. induction s as [|c r IH]; intros b H.
  - destruct b; exact H.
  - change (contains n (lower (String c r)))
      with (prefix n (lower (String c r)) || contains n (lower r)).
    cbn [sub_spaces] in H. destruct (is_space c) eqn:Sc.
    + destruct b.
      * rewrite (IH _ H). apply orb_true_r.
      * change (lower (String " " (sub_spaces true r)))
          with (String " " (lower (sub_spaces true r))) in H.
        change (contains n (String " " (lower (sub_spaces true r))))
          with (prefix n (String " " (lower (sub_spaces true r)))
                || contains n (lower (sub_spaces true r))) in H.
        apply orb_prop in H. destruct H as [H|H].
        -- destruct n as [|x n]; [congruence|].
           cbn [forall_chars] in Hn. apply andb_prop in Hn.
           destruct Hn as [Hx _]. cbn [prefix] in H.
           destruct (ascii_dec x " ") as [->|]; [discriminate Hx | discriminate H].
        -- rewrite (IH _ H). apply orb_true_r.
    + change (contains n (lower (String c (sub_spaces false r))))
        with (prefix n (lower (String c (sub_spaces false r)))
              || contains n (lower (sub_spaces false r))) in H.
      apply orb_prop in H. destruct H as [H|H].
      * assert (P : prefix n (lower (sub_spaces false (String c r))) = true)
          by (cbn [sub_spaces]; rewrite Sc; exact H).
        apply (@prefix_sub_spaces n Hn) in P. now rewrite P.
      * rewrite (IH _ H). apply orb_true_r.
Qed.

(** X16.  The address ends where the first of the labels Contact Number,
    Location and Unit Details begins: the text read for it holds none of
    the three, in any letter case, and Address never holds the word
    Location. *)
Theorem address_stops_at_label (text contract_no : string)
    (table_data : list table) :
  (forall addr,
     search address_pattern text IGNORECASE_DOTALL = Some addr ->
     Forall (fun h => contains_nocase h (group 1 addr) = false) address_stops) /\
  exists v,
    field "Address" (extract_details text contract_no table_data) v /\
    contains_nocase "Location" v = false.
Proof.
  split.
  - intros addr E. apply Forall_forall. intros h Hin.
    exact (@address_capture_minimal text addr h E Hin).
  - unfold field. rewrite get_address. unfold address.
    destruct (search address_pattern text IGNORECASE_DOTALL) as [addr|] eqn:E.
    + eexists. split; [apply dict_get_set_eq|].
      pose proof (@address_capture_minimal text addr "Location" E
                    ltac:(cbv; tauto)) as Hc.
      unfold contains_nocase in *.
      destruct (contains (lower "Location")
                  (lower (strip (sub_spaces false (group 1 addr))))) eqn:C;
        [|reflexivity].
      destruct (@map_chars_strip_part lower_char
                  (sub_spaces false (group 1 addr))) as (a & b & P).
      assert (C' : contains (lower "Location")
                     (lower (sub_spaces false (group 1 addr))) = true).
      { unfold lower in *. rewrite P.
        apply contains_app_r, contains_app_l. exact C. }
      apply contains_sub_spaces in C'; [congruence | reflexivity | discriminate].
    + exists "". split; [|reflexivity].
      other_key. rewrite contract_type_other by congruence. reflexivity.
Qed.

(* ================================================================== *)
(** * The rows of the table *)
(* ================================================================== *)

(** X17.  The rows of the table are the records of the documents whose
    text is not blank, in the order of the upload: the cell under a column
    is the field of that name in the record of the document, and the cell
    under Contract No is the number read from the name of its file. *)
Theorem export_rows_in_upload_order (uploaded_files : list uploaded_file)
    (now : datetime) (e : export) :
  run_app uploaded_files now = Some e ->
  df_rows (df e)
  = map (fun file => map (fun col => dict_get col (record_of file)) declared_fields)
      (filter has_text uploaded_files) /\
  map (fun row => nth 1 row None) (df_rows (df e))
  = map (fun file =>
           Some (VStr (extract_contract_number_from_filename (name file))))
      (filter has_text uploaded_files).
Proof.
  intros H.
  assert (Hrows : df_rows (df e)
    = map (fun file => map (fun col => dict_get col (record_of file)) declared_fields)
        (filter has_text uploaded_files)).
  { unfold run_app in H. destruct uploaded_files as [|f rest]; [discriminate|].
    pose proof (records_of_uploads (f :: rest)) as Hrec.
    assert (Hp : process_uploads (f :: rest)
                 = map record_of (filter has_text (f :: rest)))
      by (unfold process_uploads; now rewrite upload_loop_spec).
    destruct (process_uploads (f :: rest)) as [|d data] eqn:E; [discriminate|].
    injection H as <-. unfold make_DataFrame. cbn [df df_rows].
    rewrite (columns_of_first Hrec), Hp. apply map_map. }
  split; [exact Hrows|].
  rewrite Hrows, map_map. apply map_ext. intros file.
  unfold declared_fields. cbn [map nth]. unfold record_of.
  apply get_contract_no.
Qed.

Lemma export_rows_in_upload_order_witness :
  let blank := {| name := "CC1_Blank.docx";
                  content := Some {| paragraphs := [" "]; tables := [] |} |} in
  let broken := {| name := "CC2_Broken.docx"; content := None |} in
  let file := {| name := "CC1234_Client.docx";
                 content := Some {| paragraphs := ["AMOUNT: Rs. 500"];
                                    tables := [] |} |} in
  let now := {| on_date := {| year := 2024; month := 3; day := 1 |};
                hour := 9; minute := 5 |} in
  exists e,
    run_app [blank; broken; file] now = Some e /\
    map (fun row => nth 1 row None) (df_rows (df e)) = [Some (VStr "1234")].
Proof.
  intros blank broken file now. eexists. split; [reflexivity|].
  exact (proj2 (@export_rows_in_upload_order [blank; broken; file] now _ eq_refl)).
Defined.
